(** * Akita: routing core, request context and framework facade

    A shallow embedding of the Go package [akita] (akita.go, context.go,
    group.go) together with the radix-tree router that the package
    specification describes, of the parts of its package [middleware]
    that redirect, rewrite and guard requests (redirect.go, slash.go,
    method_override.go, key_auth.go), and the properties established about
    them. *)

From Stdlib Require Import String Ascii List ZArith Lia Bool Permutation.
From stdpp Require Import base option list gmap strings pretty.

Local Open Scope string_scope.
Set Warnings "-register-all".

(** ** Go strings: byte sequences *)

Module gostr.

Fixpoint take (n : nat) (s : string) : string :=
  match n, s with
  | S n', String c s' => String c (take n' s')
  | _, _ => EmptyString
  end.

Fixpoint drop (n : nat) (s : string) : string :=
  match n, s with
  | S n', String _ s' => drop n' s'
  | _, _ => s
  end.

Definition head (s : string) : option ascii :=
  match s with
  | EmptyString => None
  | String c _ => Some c
  end.

Definition is_empty (s : string) : bool :=
  match s with
  | EmptyString => true
  | String _ _ => false
  end.

(** Length of the longest common prefix of two strings. *)
Fixpoint lcp (a b : string) : nat :=
  match a, b with
  | String x a', String y b' => if Ascii.eqb x y then S (lcp a' b') else 0
  | _, _ => 0
  end.

(** [s[:i]] and [s[i:]] for the first index [i] holding byte [c]
    (the whole string and the empty string when there is none). *)
Fixpoint until (c : ascii) (s : string) : string :=
  match s with
  | EmptyString => EmptyString
  | String x s' => if Ascii.eqb x c then EmptyString else String x (until c s')
  end.

Fixpoint from (c : ascii) (s : string) : string :=
  match s with
  | EmptyString => EmptyString
  | String x s' => if Ascii.eqb x c then s else from c s'
  end.

(** [strings.Split(s, sep)] for a one-byte separator. *)
Fixpoint Split (s : string) (sep : ascii) : list string :=
  match s with
  | EmptyString => [EmptyString]
  | String c s' =>
      if Ascii.eqb c sep then EmptyString :: Split s' sep
      else match Split s' sep with
           | [] => [String c EmptyString]
           | x :: xs => String c x :: xs
           end
  end.

(** [strings.Join(l, sep)]. *)
Fixpoint Join (l : list string) (sep : string) : string :=
  match l with
  | [] => EmptyString
  | [x] => x
  | x :: xs => x +:+ sep +:+ Join xs sep
  end.

End gostr.

(** ** net/http status texts used by the package *)

Definition StatusNotFound : Z := 404.
Definition StatusMethodNotAllowed : Z := 405.
Definition StatusInternalServerError : Z := 500.
Definition StatusUnsupportedMediaType : Z := 415.
Definition StatusUnauthorized : Z := 401.
Definition StatusForbidden : Z := 403.
Definition StatusRequestEntityTooLarge : Z := 413.

(** [http.StatusText]: the reason phrase of a status code, empty for an
    unknown code. *)
Definition StatusText (code : Z) : string :=
  match code with
  | 100 => "Continue"
  | 101 => "Switching Protocols"
  | 102 => "Processing"
  | 200 => "OK"
  | 201 => "Created"
  | 202 => "Accepted"
  | 203 => "Non-Authoritative Information"
  | 204 => "No Content"
  | 205 => "Reset Content"
  | 206 => "Partial Content"
  | 207 => "Multi-Status"
  | 208 => "Already Reported"
  | 226 => "IM Used"
  | 300 => "Multiple Choices"
  | 301 => "Moved Permanently"
  | 302 => "Found"
  | 303 => "See Other"
  | 304 => "Not Modified"
  | 305 => "Use Proxy"
  | 307 => "Temporary Redirect"
  | 308 => "Permanent Redirect"
  | 400 => "Bad Request"
  | 401 => "Unauthorized"
  | 402 => "Payment Required"
  | 403 => "Forbidden"
  | 404 => "Not Found"
  | 405 => "Method Not Allowed"
  | 406 => "Not Acceptable"
  | 407 => "Proxy Authentication Required"
  | 408 => "Request Timeout"
  | 409 => "Conflict"
  | 410 => "Gone"
  | 411 => "Length Required"
  | 412 => "Precondition Failed"
  | 413 => "Request Entity Too Large"
  | 414 => "Request URI Too Long"
  | 415 => "Unsupported Media Type"
  | 416 => "Requested Range Not Satisfiable"
  | 417 => "Expectation Failed"
  | 418 => "I'm a teapot"
  | 422 => "Unprocessable Entity"
  | 423 => "Locked"
  | 424 => "Failed Dependency"
  | 426 => "Upgrade Required"
  | 428 => "Precondition Required"
  | 429 => "Too Many Requests"
  | 431 => "Request Header Fields Too Large"
  | 451 => "Unavailable For Legal Reasons"
  | 500 => "Internal Server Error"
  | 501 => "Not Implemented"
  | 502 => "Bad Gateway"
  | 503 => "Service Unavailable"
  | 504 => "Gateway Timeout"
  | 505 => "HTTP Version Not Supported"
  | 506 => "Variant Also Negotiates"
  | 507 => "Insufficient Storage"
  | 508 => "Loop Detected"
  | 510 => "Not Extended"
  | 511 => "Network Authentication Required"
  | _ => ""
  end%Z.

(** ** Values of the package *)

(** HTTP methods *)
Definition CONNECT := "CONNECT".
Definition DELETE := "DELETE".
Definition GET := "GET".
Definition HEAD := "HEAD".
Definition OPTIONS := "OPTIONS".
Definition PATCH := "PATCH".
Definition POST := "POST".
Definition PUT := "PUT".
Definition TRACE := "TRACE".

Definition methods : list string :=
  [CONNECT; DELETE; GET; HEAD; OPTIONS; PATCH; POST; PUT; TRACE].

(** [MiddlewareFunc] values are opaque to everything modelled here; they
    are told apart by an identifier. *)
Definition MiddlewareFunc := nat.

(** [HandlerFunc]: a reference to a handler.  The two package-level
    sentinels, a user function (identified by the program counter that
    [handlerName] resolves), the closure that [static] builds over a root
    directory, and the closure that [Akita.Add] builds around a handler and
    its route-level middleware. *)
Inductive HandlerFunc : Type :=
  | NotFoundHandler
  | MethodNotAllowedHandler
  | Func (pc : nat)
  | StaticHandler (root : string)
  | AddClosure (handler : HandlerFunc) (middleware : list MiddlewareFunc).

(** [interface{}] values that occur as messages. *)
Inductive iface : Type :=
  | INil
  | IString (s : string)
  | IMap (m : list (string * iface))
  | IOther (repr : string).

Definition Map := list (string * iface).

(** [HTTPError] and the [error] interface.  An [error] is the nil
    interface, a [*HTTPError] (which may itself be a nil pointer), or a
    value of some other type with its [Error()] text. *)
Inductive error : Type :=
  | nil_error
  | HTTPErr (he : option HTTPError)
  | OtherErr (text : string)
with HTTPError : Type :=
  | mkHTTPError (Code : Z) (Message : iface) (Inner : error).

Definition Code (he : HTTPError) : Z :=
  match he with mkHTTPError c _ _ => c end.
Definition Message (he : HTTPError) : iface :=
  match he with mkHTTPError _ m _ => m end.
Definition Inner (he : HTTPError) : error :=
  match he with mkHTTPError _ _ i => i end.

(** NewHTTPError creates a new HTTPError instance. *)
Definition NewHTTPError (code : Z) (message : list iface) : HTTPError :=
  let he := mkHTTPError code (IString (StatusText code)) nil_error in
  match message with
  | m0 :: _ => mkHTTPError (Code he) m0 (Inner he)
  | [] => he
  end.

Definition ErrUnsupportedMediaType := NewHTTPError StatusUnsupportedMediaType [].
Definition ErrNotFound := NewHTTPError StatusNotFound [].
Definition ErrUnauthorized := NewHTTPError StatusUnauthorized [].
Definition ErrForbidden := NewHTTPError StatusForbidden [].
Definition ErrMethodNotAllowed := NewHTTPError StatusMethodNotAllowed [].
Definition ErrStatusRequestEntityTooLarge :=
  NewHTTPError StatusRequestEntityTooLarge [].

(** Route contains a handler and information for matching against
    requests. *)
Record Route : Type := mkRoute {
  Method : string;
  Path : string;
  Name : string
}.

#[global] Instance Route_eq_dec : EqDecision Route.
Proof. solve_decision. Defined.

(** ** Go slices of strings

    A slice shows [elems]; [spare] is the rest of its backing array up to
    the capacity, which a reslice [s[:n]] can expose. *)
Record slice : Type := mkSlice {
  elems : list string;
  spare : list string
}.

Definition len (s : slice) : nat := length (elems s).
Definition cap (s : slice) : nat := length (elems s) + length (spare s).

(** [make([]string, n)] *)
Definition make (n : nat) : slice :=
  {| elems := replicate n EmptyString; spare := [] |}.

(** [s[:n]]: out of range (a run-time panic) when [n] exceeds the
    capacity. *)
Definition reslice (s : slice) (n : nat) : option slice :=
  if decide (n <= cap s) then
    let backing := (elems s ++ spare s)%list in
    Some {| elems := firstn n backing; spare := skipn n backing |}
  else None.

(** ** context.go: the per-request context *)

(** [*http.Request], reduced to what the package and its middleware
    read from it and write to it: [Method], [URL.Path], [URL.RawPath],
    [URL.RawQuery] and [RequestURI]. *)
Record Request : Type := mkRequest {
  ReqMethod : string;
  URLPath : string;
  URLRawPath : string;
  RawQuery : string;
  RequestURI : string
}.

Section Context.

(** [http.ResponseWriter] and the package's [Response] wrapper
    (response.go) are outside what is modelled: they are kept abstract,
    with the operations [context] and [Akita] invoke on them. *)
Variables ResponseWriter Response : Type.
Variable Response_reset : Response -> ResponseWriter -> Response.

(** The [context] struct.  [query] and [store] are Go maps and may be
    nil; [pnames] is a slice read only through [range] and [len], so a
    nil one is the empty list.  The back pointer [akita] is not stored:
    operations that follow it take the instance as an argument. *)
Record context : Type := mkContext {
  request : option Request;
  response : Response;
  path : string;
  pnames : list string;
  pvalues : slice;
  query : option (list (string * list string));
  handler : HandlerFunc;
  store : option Map
}.

Definition SetPath (ctx : context) (p : string) : context :=
  {| request := request ctx; response := response ctx; path := p;
     pnames := pnames ctx; pvalues := pvalues ctx; query := query ctx;
     handler := handler ctx; store := store ctx |}.

(** The loop of [Param], from index [i] on. *)
Fixpoint Param_range (i : nat) (names : list string) (values : list string)
    (name : string) : string :=
  match names with
  | [] => ""
  | n :: names' =>
      if decide (i < length values) then
        if String.eqb n name then nth i values ""
        else if existsb (fun p => String.eqb p name) (gostr.Split n ",")
             then nth i values ""
             else Param_range (S i) names' values name
      else Param_range (S i) names' values name
  end.

Definition Param (ctx : context) (name : string) : string :=
  Param_range 0 (pnames ctx) (elems (pvalues ctx)) name.

Definition ParamNames (ctx : context) : list string := pnames ctx.

Definition SetParamNames (ctx : context) (names : list string) : context :=
  {| request := request ctx; response := response ctx; path := path ctx;
     pnames := names; pvalues := pvalues ctx; query := query ctx;
     handler := handler ctx; store := store ctx |}.

(** [ctx.pvalues[:len(ctx.pnames)]]; [None] is the run-time panic of an
    out-of-range slice expression. *)
Definition ParamValues (ctx : context) : option slice :=
  reslice (pvalues ctx) (length (pnames ctx)).

Definition SetParamValues (ctx : context) (values : slice) : context :=
  {| request := request ctx; response := response ctx; path := path ctx;
     pnames := pnames ctx; pvalues := values; query := query ctx;
     handler := handler ctx; store := store ctx |}.

Definition Handler (ctx : context) : HandlerFunc := handler ctx.

Definition SetHandler (ctx : context) (h : HandlerFunc) : context :=
  {| request := request ctx; response := response ctx; path := path ctx;
     pnames := pnames ctx; pvalues := pvalues ctx; query := query ctx;
     handler := h; store := store ctx |}.

Definition Reset (ctx : context) (r : option Request) (w : ResponseWriter)
    : context :=
  {| request := r;
     response := Response_reset (response ctx) w;
     path := "";
     pnames := [];
     pvalues := pvalues ctx;
     query := None;
     handler := NotFoundHandler;
     store := None |}.

End Context.

Arguments mkContext {Response}.
Arguments request {Response}.
Arguments response {Response}.
Arguments path {Response}.
Arguments pnames {Response}.
Arguments pvalues {Response}.
Arguments query {Response}.
Arguments handler {Response}.
Arguments store {Response}.
Arguments Param {Response}.
Arguments ParamNames {Response}.
Arguments SetParamNames {Response}.
Arguments ParamValues {Response}.
Arguments SetParamValues {Response}.
Arguments Handler {Response}.
Arguments SetHandler {Response}.
Arguments SetPath {Response}.
Arguments Reset {ResponseWriter Response}.

(** ** The router

    The source of router.go is not available; the package specification
    (sections 3 and 4) describes its data model and its two operations, and
    every definition of this module follows that text. *)

Module router.

Inductive kind : Type := skind | pkind | akind.

#[global] Instance kind_eq_dec : EqDecision kind.
Proof. solve_decision. Defined.

(** Modelled from the spec: the [node] type of router.go.  One
    edge-compressed segment of a registered path: its [prefix], its
    [kind], its ordered [children], the parameter names collected from the
    root to it, and the handlers of the path that ends at it, by method. *)
Inductive node : Type := Node {
  nkind : kind;
  prefix : string;
  children : list node;
  paramNames : list string;
  handlers : gmap string HandlerFunc
}.

(** Modelled from the spec: the [Router] type of router.go.  The trie
    and the auxiliary map from [method+pattern] to the route record. *)
Record Router : Type := mkRouter {
  tree : node;
  routes : gmap string Route
}.

(** Modelled from the spec: [NewRouter] of router.go.  An empty root
    and no route records. *)
Definition NewRouter : Router :=
  {| tree := Node skind "" [] [] ∅; routes := ∅ |}.

(** *** Path patterns *)

(** The pieces of a path pattern: literal text, a [:name] parameter
    segment, the [*] wildcard. *)
Inductive segment : Type :=
  | Lit (text : string)
  | Par (name : string)
  | Wild.

Inductive scan_state : Type :=
  | InLit (text : string)
  | InPar (name : string).

Definition flush (text : string) : list segment :=
  match text with
  | EmptyString => []
  | _ => [Lit text]
  end.

Definition snoc (s : string) (c : ascii) : string :=
  s +:+ String c EmptyString.

(** Modelled from the spec: the pattern syntax that [Router.Add] of
    router.go accepts.  Segments are separated by [/], a parameter
    segment runs from [:] to the next [/], and a [*] must be the last
    byte of the pattern ([None] otherwise: the registration is
    rejected). *)
Fixpoint scan (s : string) (st : scan_state) : option (list segment) :=
  match s with
  | EmptyString =>
      match st with
      | InLit text => Some (flush text)
      | InPar name => Some [Par name]
      end
  | String c s' =>
      match st with
      | InLit text =>
          if Ascii.eqb c ":" then
            app (flush text) <$> scan s' (InPar "")
          else if Ascii.eqb c "*" then
            if gostr.is_empty s' then Some (flush text ++ [Wild])%list
            else None
          else scan s' (InLit (snoc text c))
      | InPar name =>
          if Ascii.eqb c "/" then
            cons (Par name) <$> scan s' (InLit "/")
          else scan s' (InPar (snoc name c))
      end
  end.

Definition segments (pattern : string) : option (list segment) :=
  scan pattern (InLit "").

Definition seg_kind (t : segment) : kind :=
  match t with
  | Lit _ => skind
  | Par _ => pkind
  | Wild => akind
  end.

(** The prefix of the node that stands for a segment. *)
Definition seg_prefix (t : segment) : string :=
  match t with
  | Lit text => text
  | Par _ => ":"
  | Wild => "*"
  end.

(** The static text still to be matched inside the node entered for a
    segment. *)
Definition seg_text (t : segment) : string :=
  match t with
  | Lit text => text
  | _ => ""
  end.

(** The names a segment appends to its parent's accumulated names. *)
Definition seg_names (t : segment) : list string :=
  match t with
  | Lit _ => []
  | Par name => [name]
  | Wild => ["*"]
  end.

Definition count_params (ts : list segment) : nat :=
  length (concat (map seg_names ts)).

(** *** Child selection *)

Definition label_matches (c : node) (s : string) : bool :=
  match gostr.head (prefix c), gostr.head s with
  | Some x, Some y => Ascii.eqb x y
  | _, _ => false
  end.

(** Modelled from the spec: the child lookup of router.go.  Static
    children are keyed by their first byte; the param child and the any
    child are found by their kind. *)
Definition selects (k : kind) (s : string) (c : node) : bool :=
  match k with
  | skind => bool_decide (nkind c = skind) && label_matches c s
  | pkind => bool_decide (nkind c = pkind)
  | akind => bool_decide (nkind c = akind)
  end.

Definition child (k : kind) (s : string) (cs : list node) : option node :=
  List.find (selects k s) cs.

(** *** Insertion *)

(** Modelled from the spec: the creation of child nodes in the insertion
    of router.go.  A fresh branch: a node for segment [t], below it the
    rest of the pattern, the handler at its end; each param or any segment
    appends its name to the names accumulated by its parent. *)
Fixpoint branch (t : segment) (ts : list segment) (names : list string)
    (method : string) (h : HandlerFunc) : node :=
  let names' := (names ++ seg_names t)%list in
  match ts with
  | [] => Node (seg_kind t) (seg_prefix t) [] names' {[ method := h ]}
  | t' :: ts' =>
      Node (seg_kind t) (seg_prefix t) [branch t' ts' names' method h]
           names' ∅
  end.

(** The tokens left once [l] bytes of the literal [s] are consumed. *)
Definition remaining (l : nat) (s : string) (ts : list segment)
    : list segment :=
  (flush (gostr.drop l s) ++ ts)%list.

(** Modelled from the spec: the name check of the insertion of
    router.go.  A param child registered under another name is a
    conflict. *)
Definition conflicts (t : segment) (c : node) : bool :=
  match t with
  | Par name => negb (bool_decide (last (paramNames c) = Some name))
  | _ => false
  end.

Inductive descent : Type :=
  | NoChild
  | Fatal
  | Updated (cs : list node).

(** Modelled from the spec: the insertion walk of router.go
    (section 4.1).  At node [n], [s] is the literal text still to be
    matched against the node's prefix and [ts] the pattern after it.
      - Partial match of the prefix: the node is split at the divergence
        point; the new intermediate node keeps the common part and gets
        the old node (with the unmatched suffix, the children and the
        handlers) as a child.
      - Full match, pattern remains: descend into the child selected by
        the next byte, or into the param or any slot, creating the branch
        if there is none.
      - Exact match, pattern exhausted: record the handler for the method.
    [None] is the fatal registration error of a parameter name that
    differs from the one already registered at the same position. *)
Fixpoint insert (n : node) (s : string) (ts : list segment)
    (names : list string) (method : string) (h : HandlerFunc)
    : option node :=
  match n with
  | Node k p cs pn hs =>
      let l := match k with skind => gostr.lcp p s | _ => 0 end in
      if bool_decide (k = skind) && Nat.ltb l (String.length p) then
        let old := Node skind (gostr.drop l p) cs pn hs in
        Some match remaining l s ts with
             | [] => Node skind (gostr.take l p) [old] names {[ method := h ]}
             | t :: ts' =>
                 Node skind (gostr.take l p)
                      [old; branch t ts' names method h] names ∅
             end
      else
        match remaining l s ts with
        | [] => Some (Node k p cs pn (<[ method := h ]> hs))
        | t :: ts' =>
            let fix descend (l : list node) : descent :=
              match l with
              | [] => NoChild
              | c :: l' =>
                  if selects (seg_kind t) (seg_text t) c then
                    if conflicts t c then Fatal
                    else
                      match insert c (seg_text t) ts'
                                   (names ++ seg_names t)%list method h with
                      | Some c' => Updated (c' :: l')
                      | None => Fatal
                      end
                  else
                    match descend l' with
                    | Updated r => Updated (c :: r)
                    | other => other
                    end
              end in
            match descend cs with
            | NoChild =>
                Some (Node k p (cs ++ [branch t ts' names method h])%list pn hs)
            | Fatal => None
            | Updated cs' => Some (Node k p cs' pn hs)
            end
        end
  end.

(** Modelled from the spec: [Router.Add] of router.go.  The pattern is
    threaded into the trie from the root; [maxParam] is the counter shared
    with the framework instance, raised to the number of parameters of the
    pattern.  The route records are the facade's and are left alone. *)
Definition Add (method pattern : string) (h : HandlerFunc)
    (r : Router) (maxParam : nat) : option (Router * nat) :=
  ts ← segments pattern;
  t ← insert (tree r) "" ts [] method h;
  Some ({| tree := t; routes := routes r |},
        Nat.max maxParam (count_params ts)).

(** *** Lookup *)

(** Modelled from the spec: what a node consumes of the input
    (section 4.2).  A static node consumes its prefix by exact
    comparison, a param node the run up to the next [/] (captured), an any
    node all that remains (captured). *)
Definition consume (k : kind) (p s : string)
    : option (list string * string) :=
  match k with
  | skind =>
      if String.prefix p s then Some ([], gostr.drop (String.length p) s)
      else None
  | pkind => Some ([gostr.until "/" s], gostr.from "/" s)
  | akind => Some ([s], "")
  end.

Section Search.

Context {R : Type}.
(** What makes a node reached at the end of the input a result. *)
Variable accept : node -> list string -> option R.

(** Modelled from the spec: the backtracking walk of [Router.Find]
    of router.go (section 4.2).  After the node has consumed its part
    of the input, the node itself is tried when the input is exhausted,
    then the static child keyed by the next byte, then the param child,
    then the any child; an alternative that does not lead to a result
    is given up for the next one, at every level. *)
Fixpoint search (n : node) (s : string) (values : list string)
    : option R :=
  match n with
  | Node k p cs pn hs =>
      match consume k p s with
      | None => None
      | Some (captured, rest) =>
          let values' := (values ++ captured)%list in
          let fix try (kd : kind) (l : list node) : option R :=
            match l with
            | [] => None
            | c :: l' =>
                if selects kd rest c then search c rest values'
                else try kd l'
            end in
          let here :=
            if gostr.is_empty rest then accept n values' else None in
          match here with
          | Some r => Some r
          | None =>
              match try skind cs with
              | Some r => Some r
              | None =>
                  match try pkind cs with
                  | Some r => Some r
                  | None => try akind cs
                  end
              end
          end
      end
  end.

End Search.

(** Modelled from the spec: the result of [Router.Find] of router.go,
    one of the three outcomes matched, method not allowed, not found. *)
Inductive outcome : Type :=
  | Matched (h : HandlerFunc) (names values : list string)
  | MethodNotAllowed
  | NotFound.

Definition findHandler (method : string) (n : node) (values : list string)
    : option outcome :=
  (fun h => Matched h (paramNames n) values) <$> handlers n !! method.

Definition hasHandlers (n : node) (values : list string) : option unit :=
  if bool_decide (handlers n = ∅) then None else Some ().

(** Modelled from the spec: the result of [Router.Find] of router.go.
    The handler of the first walk, in priority order, that ends at a node
    with a handler for the method; failing that, "method not allowed" when
    the path resolves to a node with handlers for other methods, and "not
    found" otherwise. *)
Definition lookup (method path : string) (r : Router) : outcome :=
  match search (findHandler method) (tree r) path [] with
  | Some o => o
  | None =>
      match search hasHandlers (tree r) path [] with
      | Some _ => MethodNotAllowed
      | None => NotFound
      end
  end.

(** Modelled from the spec: the writes of [Router.Find] of router.go
    into the parameter sink.  The captured values are written
    positionally, from slot [i] on; the sink is pre-sized, a value without
    a slot is dropped. *)
Fixpoint write (i : nat) (values : list string) (sink : list string)
    : list string :=
  match values with
  | [] => sink
  | v :: values' => write (S i) values' (<[ i := v ]> sink)
  end.

(** Modelled from the spec: [Router.Find] of router.go as the
    dispatch layer sees it.  The context is a passive sink: on a match
    its handler, its parameter names and (positionally) its parameter
    values are set; otherwise its handler becomes one of the two
    sentinels.  The spec names no other field that [Find] writes: [path]
    is left as it is. *)
Definition Find {Response : Type} (method urlPath : string) (r : Router)
    (ctx : context Response) : context Response :=
  match lookup method urlPath r with
  | Matched h names values =>
      {| request := request ctx; response := response ctx;
         path := path ctx; pnames := names;
         pvalues := {| elems := write 0 values (elems (pvalues ctx));
                       spare := spare (pvalues ctx) |};
         query := query ctx; handler := h; store := store ctx |}
  | MethodNotAllowed => SetHandler ctx MethodNotAllowedHandler
  | NotFound => SetHandler ctx NotFoundHandler
  end.

End router.

(** ** Go library functions the package calls on paths *)

Module gopath.

(** One step of [path.Clean] over the elements of a path; [out] is the
    cleaned path so far, last element first.  Empty and [.] elements are
    dropped; [..] removes the last element when there is one to remove,
    is dropped at the root of a rooted path, and is kept in front of an
    unrooted one. *)
Definition clean_step (rooted : bool) (out : list string) (el : string)
    : list string :=
  if String.eqb el "" || String.eqb el "." then out
  else if String.eqb el ".." then
    match out with
    | x :: out' =>
        if String.eqb x ".." then (if rooted then out else ".." :: out)
        else out'
    | [] => if rooted then [] else [".."]
    end
  else el :: out.

Definition rooted (p : string) : bool :=
  match p with
  | String "/" _ => true
  | _ => false
  end.

(** The elements of the cleaned path, first element first. *)
Definition clean_elems (p : string) : list string :=
  rev (fold_left (clean_step (rooted p)) (gostr.Split p "/") []).

(** [path.Clean], and [filepath.Clean] where the separator is [/]. *)
Definition Clean (p : string) : string :=
  if gostr.is_empty p then "."
  else
    let els := clean_elems p in
    if rooted p then "/" +:+ gostr.Join els "/"
    else match els with
         | [] => "."
         | _ => gostr.Join els "/"
         end.

(** [filepath.Join] of two elements where the separator is [/]: empty
    elements in front are ignored, the rest is joined and cleaned. *)
Definition Join (a b : string) : string :=
  if negb (gostr.is_empty a) then Clean (a +:+ "/" +:+ b)
  else if negb (gostr.is_empty b) then Clean b
  else "".

Definition ishex (c : ascii) : bool :=
  let n := nat_of_ascii c in
  (48 <=? n)%nat && (n <=? 57)%nat
  || (97 <=? n)%nat && (n <=? 102)%nat
  || (65 <=? n)%nat && (n <=? 70)%nat.

Definition unhex (c : ascii) : nat :=
  let n := nat_of_ascii c in
  if (48 <=? n)%nat && (n <=? 57)%nat then n - 48
  else if (97 <=? n)%nat && (n <=? 102)%nat then n - 97 + 10
  else if (65 <=? n)%nat && (n <=? 70)%nat then n - 65 + 10
  else 0.

(** [url.PathUnescape]: every [%XX] becomes the byte it encodes
    ([inl]).  At the first [%] that is not followed by two hexadecimal
    digits the decoding fails, with the text from that [%] on, three bytes
    of it at most, as the escape at fault ([inr]). *)
Fixpoint unescape (s : string) : string + string :=
  match s with
  | EmptyString => inl EmptyString
  | String c s' =>
      if Ascii.eqb c "%" then
        match s' with
        | String a (String b s'') =>
            if ishex a && ishex b then
              match unescape s'' with
              | inl p =>
                  inl (String (ascii_of_nat (16 * unhex a + unhex b)) p)
              | inr fragment => inr fragment
              end
            else inr (gostr.take 3 s)
        | _ => inr (gostr.take 3 s)
        end
      else
        match unescape s' with
        | inl p => inl (String c p)
        | inr fragment => inr fragment
        end
  end.

End gopath.

(** ** path/filepath and strconv

    [filepath.Join] is the one of the operating system the program is
    built for, and [strconv.Quote] goes by the Unicode tables: both are an
    interface here.  [gopath.Join] above is [filepath.Join] of the systems
    whose path separator is [/] (path_unix.go). *)
Class Platform : Type := {
  filepath_Join : string -> string -> string;
  strconv_Quote : string -> string
}.

(** The program is built for a system whose path separator is [/]. *)
Definition slash_separated (os : Platform) : Prop :=
  forall a b : string, filepath_Join a b = gopath.Join a b.

(** [url.EscapeError(fragment)] as an error value: its text is the
    fixed words followed by the quoted escape. *)
Definition EscapeError {os : Platform} (fragment : string) : error :=
  OtherErr ("invalid URL escape " +:+ strconv_Quote fragment).

(** util_go18.go: PathUnescape is wraps [url.PathUnescape]. *)
Definition PathUnescape {os : Platform} (s : string) : string + error :=
  match gopath.unescape s with
  | inl p => inl p
  | inr fragment => inr (EscapeError fragment)
  end.

(** ** akita.go: the framework instance *)

(** The [Akita] struct, reduced to the fields the modelled operations
    touch.  [maxParam] is the [*int] cell shared with the router. *)
Record Akita : Type := mkAkita {
  Debug : bool;
  maxParam : nat;
  router : router.Router
}.

(** What a handler does with a request, as far as it is observed here:
    it returns an error value, or hands a file name to [Context.File]. *)
Inductive served : Type :=
  | Returns (err : error)
  | File (name : string).

Section Akita.

Context {os : Platform}.
Variables ResponseWriter Response : Type.
Variable NewResponse : ResponseWriter -> Akita -> Response.
Variable Committed : Response -> bool.
Variable WriteHeader : Response -> Z -> Response.

(** [reflect] and [runtime]: the name of the function behind a handler
    value. *)
Variable handlerName : HandlerFunc -> string.

(** [fmt.Sprintf("%v", v)] *)
Variable Sprintf_v : iface -> string.

(** [context.JSON]: rendering through encoding/json is outside what is
    modelled; it yields the context after the write and the error of the
    encoder or the writer. *)
Variable JSON : context Response -> Z -> iface -> context Response * error.

(** New creates an instance of Akita. *)
Definition New : Akita :=
  {| Debug := false; maxParam := 0; router := router.NewRouter |}.

(** NewContext returns a Context instance. *)
Definition NewContext (a : Akita) (r : option Request) (w : ResponseWriter)
    : context Response :=
  {| request := r;
     response := NewResponse w a;
     path := "";
     pnames := [];
     pvalues := make (maxParam a);
     query := None;
     handler := NotFoundHandler;
     store := Some [] |}.

(** The package-level handlers [NotFoundHandler] and
    [MethodNotAllowedHandler], and the closure of [static], applied to a
    context.  User functions and middleware chains are opaque: [None]
    stands for a call whose outcome is not described here. *)
Definition call (h : HandlerFunc) (c : context Response) : option served :=
  match h with
  | NotFoundHandler => Some (Returns (HTTPErr (Some ErrNotFound)))
  | MethodNotAllowedHandler =>
      Some (Returns (HTTPErr (Some ErrMethodNotAllowed)))
  | StaticHandler root =>
      Some match PathUnescape (Param c "*") with
           | inr err => Returns err
           | inl p =>
               let name := filepath_Join root (gopath.Clean ("/" +:+ p)) in
               File name
           end
  | _ => None
  end.

(** [err.Error()]; [None] is the panic of a call through a nil
    interface or of a dereferenced nil pointer. *)
Definition Error (err : error) : option string :=
  match err with
  | nil_error => None
  | HTTPErr None => None
  | HTTPErr (Some he) =>
      Some ("code=" +:+ pretty (Code he) +:+ ", message="
            +:+ Sprintf_v (Message he))
  | OtherErr text => Some text
  end.

(** The type assertion [he, ok := err.( *HTTPError)]: on failure [he] is
    the nil pointer. *)
Definition as_HTTPError (err : error) : option HTTPError * bool :=
  match err with
  | HTTPErr he => (he, true)
  | _ => (None, false)
  end.

Definition is_nil (err : error) : bool :=
  match err with
  | nil_error => true
  | _ => false
  end.

Definition NoContent (ctx : context Response) (code : Z)
    : context Response * error :=
  ({| request := request ctx;
      response := WriteHeader (response ctx) code;
      path := path ctx; pnames := pnames ctx; pvalues := pvalues ctx;
      query := query ctx; handler := handler ctx; store := store ctx |},
   nil_error).

(** DefaultHTTPErrorHandler is the default HTTP error handler.  It
    sends a JSON response with status code.  The result is the status
    code and message computed and the context after the response is
    sent; [None] is a run-time panic (a nil dereference).  Logging is
    left out. *)
Definition DefaultHTTPErrorHandler (a : Akita) (err : error)
    (ctx : context Response) : option (Z * iface * context Response) :=
  let code := StatusInternalServerError in
  let '(he, ok) := as_HTTPError err in
  '(code, msg) ←
    (if ok then
       h ← he;
       Some (Code h, Message h)
     else if Debug a then
       text ← Error err;
       h ← he;
       if negb (is_nil (Inner h)) then
         inner ← Error (Inner h);
         Some (code, IString (text +:+ ", " +:+ inner))
       else Some (code, IString text)
     else Some (code, IString (StatusText code)));
  let msg := match msg with
             | IString s => IMap [("message", IString s)]
             | _ => msg
             end in
  if negb (Committed (response ctx)) then
    req ← request ctx;
    let '(ctx', _) :=
      if String.eqb (ReqMethod req) HEAD then NoContent ctx code
      else JSON ctx code msg in
    Some (code, msg, ctx')
  else Some (code, msg, ctx).

(** Add registers a new route for an HTTP method and path with matching
    handler in the router with optional route-level middleware.  [None]
    is a registration the router rejects. *)
Definition Add (method path : string) (handler : HandlerFunc)
    (middleware : list MiddlewareFunc) (a : Akita)
    : option (Route * Akita) :=
  let name := handlerName handler in
  '(rt, mp) ← router.Add method path (AddClosure handler middleware)
                (router a) (maxParam a);
  let r := {| Method := method; Path := path; Name := name |} in
  Some (r, {| Debug := Debug a;
              maxParam := mp;
              router := {| router.tree := router.tree rt;
                           router.routes :=
                             <[ method +:+ path := r ]> (router.routes rt) |}
           |}).

(** GET registers a new GET route for a path with matching handler in
    the router with optional route-level middleware.  (The name [GET] is
    taken by the method constant.) *)
Definition GET_ (path : string) (h : HandlerFunc)
    (m : list MiddlewareFunc) (a : Akita) : option (Route * Akita) :=
  Add GET path h m a.

(** The loop shared by [Any] and [Match]: one [Add] per method, the
    records appended in turn. *)
Fixpoint add_each (ms : list string) (path : string) (handler : HandlerFunc)
    (middleware : list MiddlewareFunc) (routes : list Route) (a : Akita)
    : option (list Route * Akita) :=
  match ms with
  | [] => Some (routes, a)
  | m :: ms' =>
      '(r, a') ← Add m path handler middleware a;
      add_each ms' path handler middleware (routes ++ [r])%list a'
  end.

(** Any registers a new route for all HTTP methods and path with
    matching handler in the router with optional route-level
    middleware. *)
Definition Any (path : string) (handler : HandlerFunc)
    (middleware : list MiddlewareFunc) (a : Akita)
    : option (list Route * Akita) :=
  add_each methods path handler middleware [] a.

(** Match registers a new route for multiple HTTP methods and path. *)
Definition Match (ms : list string) (path : string) (handler : HandlerFunc)
    (middleware : list MiddlewareFunc) (a : Akita)
    : option (list Route * Akita) :=
  add_each ms path handler middleware [] a.

(** [static], for an [i] whose [GET] registers under [prefix0 + path]
    with the middleware [mw] (the instance itself: no prefix, no
    middleware; a group: its own). *)
Definition static (prefix0 : string) (mw : list MiddlewareFunc)
    (prefix root : string) (a : Akita) : option (Route * Akita) :=
  let h := StaticHandler root in
  '(_, a1) ← GET_ (prefix0 +:+ prefix) h mw a;
  if String.eqb prefix "/" then GET_ (prefix0 +:+ (prefix +:+ "*")) h mw a1
  else GET_ (prefix0 +:+ (prefix +:+ "/*")) h mw a1.

(** Static registers a new route with path prefix to serve static files
    from the provided root directory. *)
Definition Static (prefix root : string) (a : Akita)
    : option (Route * Akita) :=
  let root := if String.eqb root "" then "." else root in
  static "" [] prefix root a.

(** Group.Static implements [Akita#Static()] for sub-routes within the
    Group. *)
Definition Group_Static (gprefix : string) (gmiddleware : list MiddlewareFunc)
    (prefix root : string) (a : Akita) : option (Route * Akita) :=
  static gprefix gmiddleware prefix root a.

(** *** Reverse *)

(** The inner loop of [Reverse]: the first index from [i] on that is
    the end of the path or holds a [/]. *)
Definition skip_name (path : string) (i : nat) : nat :=
  i + String.length (gostr.until "/" (gostr.drop i path)).

(** The loop of [Reverse] over the bytes of one path, from index [i],
    with the parameters not yet used.  Every round moves [i] forward, so
    [fuel] rounds are enough when [fuel] is the length of the path. *)
Fixpoint Reverse_loop (fuel : nat) (path : string) (i : nat)
    (params : list iface) (uri : string) : string :=
  match fuel with
  | 0 => uri
  | S fuel' =>
      if decide (i < String.length path) then
        let '(i, params, uri) :=
          match String.get i path, params with
          | Some c, v :: params' =>
              if Ascii.eqb c ":" then
                (skip_name path i, params', uri +:+ Sprintf_v v)
              else (i, params, uri)
          | _, _ => (i, params, uri)
          end in
        let uri :=
          match String.get i path with
          | Some c => uri +:+ String c EmptyString
          | None => uri
          end in
        Reverse_loop fuel' path (S i) params uri
      else uri
  end.

(** Reverse generates an URL from route name and provided parameters.
    [order] is the order in which [range] happens to visit the route
    records of the map. *)
Definition Reverse (order : list Route) (name : string)
    (params : list iface) : string :=
  match List.find (fun r => String.eqb (Name r) name) order with
  | Some r =>
      Reverse_loop (String.length (Path r)) (Path r) 0 params ""
  | None => ""
  end.

(** The orders in which the route records of an instance can be
    visited. *)
Definition visits (a : Akita) (order : list Route) : Prop :=
  Permutation order (snd <$> map_to_list (router.routes (router a))).

(** *** Dispatch *)

(** The routing step of [ServeHTTP]: the raw path when the request has
    one, the path otherwise. *)
Definition route (a : Akita) (r : Request) (ctx : context Response)
    : context Response :=
  let urlPath :=
    if String.eqb (URLRawPath r) "" then URLPath r else URLRawPath r in
  router.Find (ReqMethod r) urlPath (router a) ctx.

End Akita.

(** ** Notions used to state the properties *)

(** A recorded parameter name [n] answers to [name]: it is that name, or
    [name] is one of its comma-separated aliases. *)
Definition binds (n name : string) : Prop :=
  n = name \/ In name (gostr.Split n ",").

(** A concrete stand-in for the abstract response type, for examples. *)
Definition unit_response (w : unit) (a : Akita) : unit := tt.

Definition blank : context unit :=
  {| request := None; response := tt; path := ""; pnames := [];
     pvalues := make 0; query := None; handler := NotFoundHandler;
     store := None |}.

(** *** Walks through the trie

    A walk from node [n] on input [s] ends at a node with the input
    exhausted.  Its trace lists, branch point by branch point, the kind of
    child taken; [values] are the parameter values captured on the way. *)
Inductive walk : router.node -> string -> list string -> list router.kind ->
                 router.node -> list string -> Prop :=
  | walk_here n s values captured :
      router.consume (router.nkind n) (router.prefix n) s
      = Some (captured, "") ->
      walk n s values [] n (values ++ captured)%list
  | walk_down n s values captured rest k c t n' values' :
      router.consume (router.nkind n) (router.prefix n) s
      = Some (captured, rest) ->
      router.child k rest (router.children n) = Some c ->
      walk c rest (values ++ captured)%list t n' values' ->
      walk n s values (k :: t) n' values'.

(** static > param > any *)
Definition rank (k : router.kind) : nat :=
  match k with
  | router.skind => 0
  | router.pkind => 1
  | router.akind => 2
  end.

(** [prior t t']: trace [t] comes no later than [t'] when, at every branch
    point, the alternatives are taken in the order static, param, any and
    stopping at a node comes before descending from it. *)
Fixpoint prior (t t' : list router.kind) : Prop :=
  match t, t' with
  | [], _ => True
  | _ :: _, [] => False
  | k :: t1, k' :: t1' => rank k < rank k' \/ (k = k' /\ prior t1 t1')
  end.

(** Instances built by registration: [New], then any number of accepted
    [Add]s (and changes of the [Debug] flag). *)
Inductive registered (handlerName : HandlerFunc -> string) : Akita -> Prop :=
  | registered_New : registered handlerName New
  | registered_Debug a b :
      registered handlerName a ->
      registered handlerName
        {| Debug := b; maxParam := maxParam a; router := router a |}
  | registered_Add a method path h mw r a' :
      registered handlerName a ->
      Add handlerName method path h mw a = Some (r, a') ->
      registered handlerName a'.

(** The two routes of the specification's example, registered on a new
    instance in either order. *)
Definition users_new_then_id (handlerName : HandlerFunc -> string)
    (h1 h2 : HandlerFunc) (mw1 mw2 : list MiddlewareFunc) : option Akita :=
  '(_, a1) ← Add handlerName GET "/users/new" h1 mw1 New;
  '(_, a2) ← Add handlerName GET "/users/:id" h2 mw2 a1;
  Some a2.

Definition users_id_then_new (handlerName : HandlerFunc -> string)
    (h1 h2 : HandlerFunc) (mw1 mw2 : list MiddlewareFunc) : option Akita :=
  '(_, a1) ← Add handlerName GET "/users/:id" h2 mw2 New;
  '(_, a2) ← Add handlerName GET "/users/new" h1 mw1 a1;
  Some a2.

(** Routes that make the lookup give up a static alternative two levels
    down and come back to the param child of an ancestor. *)
Definition backtracking_routes (handlerName : HandlerFunc -> string)
    (h1 h2 : HandlerFunc) : option Akita :=
  '(_, a1) ← Add handlerName GET "/a/x/:c/d" h1 [] New;
  '(_, a2) ← Add handlerName GET "/a/:b/c/e" h2 [] a1;
  Some a2.

(** The lookup of a request for [urlPath] on instance [a], in a context
    fresh from [NewContext]. *)
Definition dispatch (method urlPath : string) (a : Akita) : context unit :=
  let r := {| ReqMethod := method; URLPath := urlPath; URLRawPath := "";
              RawQuery := ""; RequestURI := urlPath |} in
  route unit a r (NewContext unit unit unit_response a (Some r) tt).

(** A single route [GET /] on a new instance (the package's test of the
    405 answer). *)
Definition only_get_root (handlerName : HandlerFunc -> string)
    (h : HandlerFunc) (mw : list MiddlewareFunc) : option Akita :=
  snd <$> Add handlerName GET "/" h mw New.

(** *** Reverse, by segments

    What [Reverse] is meant to produce from a path pattern: the pattern is
    cut at its [/] separators; in a segment that holds a [:], the text from
    the [:] to the end of the segment is replaced by the next parameter
    value, as long as values are left; everything else stays. *)
Section Instantiate.

Variable Sprintf_v : iface -> string.

Definition has_param (sg : string) : bool :=
  negb (gostr.is_empty (gostr.from ":" sg)).

Fixpoint fill (segs : list string) (params : list iface) : list string :=
  match segs, params with
  | sg :: segs', v :: params' =>
      if has_param sg then
        (gostr.until ":" sg +:+ Sprintf_v v) :: fill segs' params'
      else sg :: fill segs' params
  | _, _ => segs
  end.

Definition instantiate (pattern : string) (params : list iface) : string :=
  gostr.Join (fill (gostr.Split pattern "/") params) "/".

End Instantiate.

(** The route records of an instance. *)
Definition records (a : Akita) : list Route :=
  snd <$> map_to_list (router.routes (router a)).

(** [%v] of the values used in examples: a string prints as itself. *)
Definition show (v : iface) : string :=
  match v with
  | IString s => s
  | IOther repr => repr
  | _ => "<nil>"
  end.

(** The routes of the package's URL test. *)
Definition url_test (handlerName : HandlerFunc -> string) : option Akita :=
  '(_, a1) ← Add handlerName GET "/static/file" (Func 1) [] New;
  '(_, a2) ← Add handlerName GET "/users/:id" (Func 2) [] a1;
  '(_, a3) ← Add handlerName GET "/group/users/:uid/files/:fid" (Func 3) [] a2;
  Some a3.

Definition func_name (h : HandlerFunc) : string :=
  match h with
  | Func 1 => "static"
  | Func 2 => "getUser"
  | Func 3 => "getFile"
  | _ => "func"
  end.

(** *** Paths below a root

    A plain path element names an entry of a directory: it is not empty,
    not [.], not [..], and holds no separator.  [render] writes a list of
    elements as [Clean] does. *)
Definition plain (el : string) : Prop :=
  el <> "" /\ el <> "." /\ el <> ".." /\ gostr.from "/" el = "".

Definition render (rooted : bool) (els : list string) : string :=
  if rooted then "/" +:+ gostr.Join els "/"
  else match els with
       | [] => "."
       | _ => gostr.Join els "/"
       end.

(** A system whose path separator is [/].  Its [Quote] puts the text
    between two quotation marks, which is what [strconv.Quote] does to
    printable ASCII text that holds no quotation mark and no backslash. *)
Definition unix : Platform :=
  {| filepath_Join := gopath.Join;
     strconv_Quote := fun s =>
       String (ascii_of_nat 34) (s +:+ String (ascii_of_nat 34) "") |}.

(** A context whose only parameter is the wildcard, with its captured
    value. *)
Definition wildcard (value : string) : context unit :=
  {| request := None; response := tt; path := ""; pnames := ["*"];
     pvalues := {| elems := [value]; spare := [] |}; query := None;
     handler := StaticHandler "public"; store := None |}.

(** *** Well-formed patterns

    In the segments of a pattern no literal is empty and no two literals
    are adjacent; [after_lit] tells whether literal text comes just
    before. *)
Fixpoint alternating (after_lit : bool) (ts : list router.segment) : Prop :=
  match ts with
  | [] => True
  | router.Lit text :: ts' =>
      after_lit = false /\ text <> "" /\ alternating true ts'
  | _ :: ts' => alternating false ts'
  end.

(** The descent of [insert] into the children of a node, for the next
    segment [t] of the pattern. *)
Fixpoint descend (t : router.segment) (ts : list router.segment)
    (names : list string) (method : string) (h : HandlerFunc)
    (l : list router.node) : router.descent :=
  match l with
  | [] => router.NoChild
  | c :: l' =>
      if router.selects (router.seg_kind t) (router.seg_text t) c then
        if router.conflicts t c then router.Fatal
        else
          match router.insert c (router.seg_text t) ts
                  (names ++ router.seg_names t)%list method h with
          | Some c' => router.Updated (c' :: l')
          | None => router.Fatal
          end
      else
        match descend t ts names method h l' with
        | router.Updated r => router.Updated (c :: r)
        | other => other
        end
  end.

(** The instance stays as registration leaves it: the root of the trie is
    a static node with an empty prefix. *)
Definition well_rooted (a : Akita) : Prop :=
  router.nkind (router.tree (router a)) = router.skind /\
  router.prefix (router.tree (router a)) = "".

(** [Add] called for each method of [ms] in turn, from instance [a]: the
    records returned and the instance reached. *)
Inductive added_in_turn (handlerName : HandlerFunc -> string) (path : string)
    (h : HandlerFunc) (mw : list MiddlewareFunc)
    : list string -> Akita -> list Route -> Akita -> Prop :=
  | turn_done a : added_in_turn handlerName path h mw [] a [] a
  | turn_next m ms a r a1 rs a' :
      Add handlerName m path h mw a = Some (r, a1) ->
      added_in_turn handlerName path h mw ms a1 rs a' ->
      added_in_turn handlerName path h mw (m :: ms) a (r :: rs) a'.

(** *** The search, alternative by alternative *)
Section SearchNotions.

Context {R : Type}.
Variable accept : router.node -> list string -> option R.

(** The alternative of kind [k] at a branch point. *)
Definition alternative (k : router.kind) (cs : list router.node)
    (rest : string) (values : list string) : option R :=
  match router.child k rest cs with
  | Some c => router.search accept c rest values
  | None => None
  end.

(** The search from a node is characterised: what it returns ends the
    first accepted walk, and when it returns nothing no walk is accepted. *)
Definition search_ok (n : router.node) : Prop :=
  forall s values,
    match router.search accept n s values with
    | Some r =>
        exists t n' values',
          walk n s values t n' values' /\ accept n' values' = Some r /\
          (forall t' n'' values'',
              walk n s values t' n'' values'' ->
              is_Some (accept n'' values'') -> prior t t')
    | None =>
        forall t n' values',
          walk n s values t n' values' -> accept n' values' = None
    end.

End SearchNotions.

(** *** The loop of Reverse, byte by byte *)
Section Substitute.

Variable Sprintf_v : iface -> string.

(** The loop of [Reverse] as a walk over the bytes left: [subst] copies
    bytes and meets the parameters, [skip] runs over a parameter name to
    the next [/]. *)
Fixpoint subst (s : string) (params : list iface) : string :=
  match s with
  | EmptyString => EmptyString
  | String c s' =>
      match params with
      | v :: params' =>
          if Ascii.eqb c ":" then Sprintf_v v +:+ skip s' params'
          else String c (subst s' params)
      | [] => String c (subst s' params)
      end
  end
with skip (s : string) (params : list iface) : string :=
  match s with
  | EmptyString => EmptyString
  | String c s' =>
      if Ascii.eqb c "/" then String c (subst s' params)
      else skip s' params
  end.

End Substitute.

(** What [strings.Join] puts after the first element. *)
Fixpoint slashes (l : list string) : string :=
  match l with
  | [] => ""
  | x :: l' => "/" +:+ x +:+ slashes l'
  end.

(** The condition under which a pattern is threaded into a node: the
    pattern is well formed after the literal text [s], and only the root is
    entered with no text to match. *)
Definition threads (n : router.node) (s : string) (ts : list router.segment)
    : Prop :=
  alternating (negb (gostr.is_empty s)) ts /\
  (router.nkind n = router.skind -> s = "" -> router.prefix n = "").

(** A pattern that was accepted at a node is accepted again by the node
    that results. *)
Definition accepts_again (n : router.node) : Prop :=
  forall s ts names m h n',
    threads n s ts ->
    router.insert n s ts names m h = Some n' ->
    forall names' m' h', is_Some (router.insert n' s ts names' m' h').

(** ** net/http and os, as the package goes through them

    What a [*http.Request] holds beyond the fields of [Request] (as it
    arrived), the header map and status line behind a [Response], and the
    files that [Context.File] opens, on the platform the program is built
    for, are outside the package; they are interfaces here. *)

Class HTTPRequest : Type := {
  (** [r.TLS != nil] *)
  TLS : Request -> bool;
  Host : Request -> string;
  (** [r.URL.Query()] *)
  URL_Query : Request -> list (string * list string);
  (** [r.Header.Get(name)] *)
  Header_Get : Request -> string -> string
}.

Class HTTPResponse (Response : Type) : Type := {
  (** [response.Header().Set(name, value)] *)
  Header_Set : Response -> string -> string -> Response;
  (** [response.WriteHeader(code)] *)
  Response_WriteHeader : Response -> Z -> Response
}.

Class Files (Response : Type) : Type := {
  platform :: Platform;
  os_File : Type;
  FileInfo : Type;
  (** [os.Open]; [None] is a failed open. *)
  os_Open : string -> option os_File;
  (** [f.Stat()]: the file information, or the error (with a nil
      [FileInfo]). *)
  Stat : os_File -> FileInfo + error;
  IsDir : FileInfo -> bool;
  (** [http.ServeContent(response, request, fi.Name(), fi.ModTime(), f)] *)
  ServeContent :
    Response -> option Request -> FileInfo -> os_File -> Response
}.

(** Headers *)
Definition HeaderAuthorization := "Authorization".
Definition HeaderContentDisposition := "Content-Disposition".
Definition HeaderLocation := "Location".
Definition HeaderUpgrade := "Upgrade".
Definition HeaderXForwardedProto := "X-Forwarded-Proto".
Definition HeaderXForwardedProtocol := "X-Forwarded-Protocol".
Definition HeaderXForwardedSsl := "X-Forwarded-Ssl".
Definition HeaderXUrlScheme := "X-Url-Scheme".
Definition HeaderXHTTPMethodOverride := "X-HTTP-Method-Override".

Definition StatusMovedPermanently : Z := 301.
Definition StatusBadRequest : Z := 400.

Definition ErrInvalidRedirectCode : error :=
  OtherErr "Invalid redirect status code".

Definition indexPage := "index.html".

(** ** Go maps with string keys

    [m[key]], with the zero value for a missing key, and [m[key] = val]
    on a map kept as a list of its entries. *)
Fixpoint index (m : Map) (key : string) : iface :=
  match m with
  | [] => INil
  | (k, v) :: m' => if String.eqb k key then v else index m' key
  end.

Fixpoint assign (m : Map) (key : string) (val : iface) : Map :=
  match m with
  | [] => [(key, val)]
  | (k, v) :: m' =>
      if String.eqb k key then (k, val) :: m'
      else (k, v) :: assign m' key val
  end.

(** [url.Values.Get]: the first value of the key, or the empty string. *)
Fixpoint Values_Get (v : list (string * list string)) (key : string)
    : string :=
  match v with
  | [] => ""
  | (k, vs) :: v' =>
      if String.eqb k key then
        match vs with
        | [] => ""
        | x :: _ => x
        end
      else Values_Get v' key
  end.

(** [s[:n]], [s[n:]] and [s[len(s)-1]]; out of range is a run-time
    panic. *)
Definition slice_to (s : string) (n : nat) : option string :=
  if decide (n <= String.length s) then Some (gostr.take n s) else None.

Definition slice_from (s : string) (n : nat) : option string :=
  if decide (n <= String.length s) then Some (gostr.drop n s) else None.

Definition last_byte (s : string) : option ascii :=
  match String.length s with
  | 0 => None
  | S l => String.get l s
  end.

(** ** context.go: request, query, store, responders *)

Section ContextOps.

Context {Response : Type}.
Context {net : HTTPRequest} {out : HTTPResponse Response}
  {fs : Files Response}.

(** [fmt.Sprintf("%q", s)] *)
Variable Sprintf_q : string -> string.

Definition SetRequest (ctx : context Response) (r : option Request)
    : context Response :=
  {| request := r; response := response ctx; path := path ctx;
     pnames := pnames ctx; pvalues := pvalues ctx; query := query ctx;
     handler := handler ctx; store := store ctx |}.

(** The context after a write to its response. *)
Definition responded (ctx : context Response) (w : Response)
    : context Response :=
  {| request := request ctx; response := w; path := path ctx;
     pnames := pnames ctx; pvalues := pvalues ctx; query := query ctx;
     handler := handler ctx; store := store ctx |}.

(** In what follows [None] is the run-time panic of a call through the
    nil request pointer. *)
Definition IsTLS (ctx : context Response) : option bool :=
  r ← request ctx;
  Some (TLS r).

Definition IsWebSocket (ctx : context Response) : option bool :=
  r ← request ctx;
  let upgrade := Header_Get r HeaderUpgrade in
  Some (String.eqb upgrade "websocket" || String.eqb upgrade "Websocket").

Definition Scheme (ctx : context Response) : option string :=
  tls ← IsTLS ctx;
  if (tls : bool) then Some "https"
  else
    r ← request ctx;
    if negb (String.eqb (Header_Get r HeaderXForwardedProto) "") then
      Some (Header_Get r HeaderXForwardedProto)
    else if negb (String.eqb (Header_Get r HeaderXForwardedProtocol) "") then
      Some (Header_Get r HeaderXForwardedProtocol)
    else if String.eqb (Header_Get r HeaderXForwardedSsl) "on" then
      Some "https"
    else if negb (String.eqb (Header_Get r HeaderXUrlScheme) "") then
      Some (Header_Get r HeaderXUrlScheme)
    else Some "http".

(** QueryParams parses the query of the request on first use and keeps
    it in the context. *)
Definition QueryParams (ctx : context Response)
    : option (context Response * list (string * list string)) :=
  match query ctx with
  | Some q => Some (ctx, q)
  | None =>
      r ← request ctx;
      let q := URL_Query r in
      Some ({| request := request ctx; response := response ctx;
               path := path ctx; pnames := pnames ctx;
               pvalues := pvalues ctx; query := Some q;
               handler := handler ctx; store := store ctx |}, q)
  end.

Definition QueryParam (ctx : context Response) (name : string)
    : option (context Response * string) :=
  '(ctx, q) ← QueryParams ctx;
  Some (ctx, Values_Get q name).

Definition QueryString (ctx : context Response) : option string :=
  r ← request ctx;
  Some (RawQuery r).

(** Get retrieves data from the context. *)
Definition Get (ctx : context Response) (key : string) : iface :=
  match store ctx with
  | Some m => index m key
  | None => INil
  end.

(** Set saves data in the context.  (The name [Set] is taken.) *)
Definition Set_ (ctx : context Response) (key : string) (val : iface)
    : context Response :=
  let m := match store ctx with
           | Some m => m
           | None => []
           end in
  {| request := request ctx; response := response ctx; path := path ctx;
     pnames := pnames ctx; pvalues := pvalues ctx; query := query ctx;
     handler := handler ctx; store := Some (assign m key val) |}.

(** Redirect redirects the request to a provided URL with status
    code. *)
Definition Redirect (ctx : context Response) (code : Z) (url : string)
    : context Response * error :=
  if (code <? 300)%Z || (308 <? code)%Z then (ctx, ErrInvalidRedirectCode)
  else
    (responded ctx
       (Response_WriteHeader (Header_Set (response ctx) HeaderLocation url)
          code),
     nil_error).

(** File sends a response with the content of the file.  (The name
    [File] is taken.)  [None] is the panic of [fi.IsDir()] on the nil
    [FileInfo] that a failed first [Stat] leaves. *)
Definition File_ (ctx : context Response) (file : string)
    : option (context Response * error) :=
  match os_Open file with
  | None => Some (ctx, HTTPErr (Some ErrNotFound))
  | Some f =>
      match Stat f with
      | inr _ => None
      | inl fi =>
          if IsDir fi then
            let file := filepath_Join file indexPage in
            match os_Open file with
            | None => Some (ctx, HTTPErr (Some ErrNotFound))
            | Some f =>
                match Stat f with
                | inr err => Some (ctx, err)
                | inl fi =>
                    Some (responded ctx
                            (ServeContent (response ctx) (request ctx) fi f),
                          nil_error)
                end
            end
          else
            Some (responded ctx
                    (ServeContent (response ctx) (request ctx) fi f),
                  nil_error)
      end
  end.

Definition contentDisposition (ctx : context Response)
    (file name dispositionType : string)
    : option (context Response * error) :=
  let ctx :=
    responded ctx
      (Header_Set (response ctx) HeaderContentDisposition
         (dispositionType +:+ "; filename=" +:+ Sprintf_q name)) in
  '(ctx, _) ← File_ ctx file;
  Some (ctx, nil_error).

(** Attachment sends a response as attachment, prompting client to save
    the file. *)
Definition Attachment (ctx : context Response) (file name : string)
    : option (context Response * error) :=
  contentDisposition ctx file name "attachment".

(** Inline sends a response as inline, opening the file in the
    browser. *)
Definition Inline (ctx : context Response) (file name : string)
    : option (context Response * error) :=
  contentDisposition ctx file name "inline".

End ContextOps.

(** ** akita.go: handlers at work *)

(** What calling a [HandlerFunc] does: it may change the context and
    returns an error value; [None] is a run-time panic. *)
Definition action (Response : Type) : Type :=
  context Response -> option (context Response * error).

Section Chain.

Context {H : Type}.

(** [for i := len(middleware) - 1; i >= 0; i-- { h = middleware[i](h) }],
    with [rounds] rounds to go; round [S i] applies [middleware[i]], an
    index that is in range in every round of the loop. *)
Fixpoint chain_from (middleware : list (H -> H)) (rounds : nat) (h : H) : H :=
  match rounds with
  | 0 => h
  | S i =>
      match middleware !! i with
      | Some m => chain_from middleware i (m h)
      | None => h
      end
  end.

Definition chain (middleware : list (H -> H)) (h : H) : H :=
  chain_from middleware (length middleware) h.

End Chain.

Section Serve.

Context {ResponseWriter Response : Type}.
Context {fs : Files Response}.

Variable Response_reset : Response -> ResponseWriter -> Response.

(** What the user's functions and middleware do. *)
Variable funcs : nat -> action Response.
Variable mws : MiddlewareFunc -> action Response -> action Response.

(** The handlers of the package, the closure of [static] and the
    closure of [Akita.Add], applied to a context. *)
Fixpoint run (h : HandlerFunc) : action Response :=
  match h with
  | NotFoundHandler => fun c => Some (c, HTTPErr (Some ErrNotFound))
  | MethodNotAllowedHandler =>
      fun c => Some (c, HTTPErr (Some ErrMethodNotAllowed))
  | Func pc => funcs pc
  | StaticHandler root =>
      fun c =>
        match PathUnescape (Param c "*") with
        | inr err => Some (c, err)
        | inl p =>
            let name := filepath_Join root (gopath.Clean ("/" +:+ p)) in
            File_ c name
        end
  | AddClosure handler middleware =>
      chain (mws <$> middleware) (run handler)
  end.

(** ServeHTTP implements the [http.Handler] interface, which serves
    HTTP requests.  [ctx] is the context taken from the pool;
    [premiddleware] and [middleware] are the chains of the instance and
    [HTTPErrorHandler] its error handler.  The routing closure reads
    method and path through [r], the request [ServeHTTP] was called with:
    what a premiddleware writes to that request in place before the
    closure runs is not followed here, so the properties below are about
    instances without premiddleware.  The result is the context after the
    chain, or what the error handler made of the error. *)
Definition ServeHTTP {T : Type}
    (HTTPErrorHandler : error -> context Response -> option T)
    (premiddleware middleware : list MiddlewareFunc)
    (a : Akita) (ctx : context Response) (w : ResponseWriter) (r : Request)
    : option (context Response + T) :=
  let ctx := Reset Response_reset ctx (Some r) w in
  let h : action Response := fun ctx =>
    let ctx := route Response a r ctx in
    let h := Handler ctx in
    chain (mws <$> middleware) (run h) ctx in
  let h := chain (mws <$> premiddleware) h in
  '(ctx, err) ← h ctx;
  if negb (is_nil err) then inr <$> HTTPErrorHandler err ctx
  else Some (inl ctx).

End Serve.

(** ** akita.go: names and listings *)

Section Names.

Variable handlerName : HandlerFunc -> string.
Variable Sprintf_v : iface -> string.

(** URI generates a URI from handler. *)
Definition URI (order : list Route) (handler : HandlerFunc)
    (params : list iface) : string :=
  let name := handlerName handler in
  Reverse Sprintf_v order name params.

(** URL is an alias for [URI] function. *)
Definition URL (order : list Route) (h : HandlerFunc) (params : list iface)
    : string :=
  URI order h params.

(** Routes returns the registered routes, in the order [order] of the
    visit. *)
Definition Routes (order : list Route) : list Route :=
  fold_left (fun routes v => (routes ++ [v])%list) order [].

End Names.

(** ** group.go *)

(** Group is a set of sub-routes for a specified route.  The back
    pointer [akita] is not stored: operations that follow it take the
    instance as an argument. *)
Record Group : Type := mkGroup {
  prefix : string;
  middleware : list MiddlewareFunc
}.

Section Groups.

Variable handlerName : HandlerFunc -> string.

(** The function literal of [Group.Use], a function of the package with
    a program counter of its own. *)
Variable Use_func1 : nat.

(** Use implements [Akita#Use()] for sub-routes within the Group. *)
Definition Group_Use (g : Group) (m : list MiddlewareFunc) (a : Akita)
    : option (Group * Akita) :=
  let g := {| prefix := prefix g; middleware := (middleware g ++ m)%list |} in
  '(_, a) ← Any handlerName (gopath.Clean (prefix g +:+ "/*"))
              (Func Use_func1) (middleware g) a;
  Some (g, a).

(** Add implements [Akita#Add()] for sub-routes within the Group. *)
Definition Group_Add (g : Group) (method path : string)
    (handler : HandlerFunc) (m : list MiddlewareFunc) (a : Akita)
    : option (Route * Akita) :=
  let m := ([] ++ middleware g ++ m)%list in
  Add handlerName method (prefix g +:+ path) handler m a.

(** Akita.Group creates a new router group with prefix and optional
    group-level middleware. *)
Definition Akita_Group (p : string) (m : list MiddlewareFunc) (a : Akita)
    : option (Group * Akita) :=
  let g := {| prefix := p; middleware := [] |} in
  Group_Use g m a.

(** Group.Group creates a new sub-group with prefix and optional
    sub-group-level middleware. *)
Definition Group_Group (g : Group) (p : string) (m : list MiddlewareFunc)
    (a : Akita) : option (Group * Akita) :=
  let m := ([] ++ middleware g ++ m)%list in
  Akita_Group (prefix g +:+ p) m a.

End Groups.

(** ** Package middleware *)

Module middleware.

(** skipper.go: DefaultSkipper returns false which processes the
    middleware. *)
Definition DefaultSkipper {Response : Type} (c : context Response) : bool :=
  false.

(** *** redirect.go *)
Module redirect.

Section Redirect.

Context {Response : Type}.
Context {net : HTTPRequest} {out : HTTPResponse Response}.

Record RedirectConfig : Type := mkRedirectConfig {
  Skipper : option (context Response -> bool);
  Code : Z
}.

Definition www := "www".

Definition DefaultRedirectConfig : RedirectConfig :=
  {| Skipper := Some DefaultSkipper; Code := StatusMovedPermanently |}.

(** The defaults, which every constructor of this file applies to its
    config in the same way. *)
Definition defaults (config : RedirectConfig) : RedirectConfig :=
  let config :=
    match Skipper config with
    | None => {| Skipper := Some DefaultSkipper; Code := Code config |}
    | Some _ => config
    end in
  if (Code config =? 0)%Z then
    {| Skipper := Skipper config; Code := Code DefaultRedirectConfig |}
  else config.

(** The call [config.Skipper(c)]; the skipper is set once the defaults
    are applied. *)
Definition skips (config : RedirectConfig) (c : context Response) : bool :=
  match Skipper config with
  | Some skipper => skipper c
  | None => false
  end.

(** HTTPSRedirectWithConfig returns an HTTPSRedirect middleware with
    config. *)
Definition HTTPSRedirectWithConfig (config : RedirectConfig)
    (next : action Response) : action Response :=
  let config := defaults config in
  fun c =>
    if skips config c then next c
    else
      req ← request c;
      let host := Host req in
      let uri := RequestURI req in
      tls ← IsTLS c;
      if negb (tls : bool) then
        Some (Redirect c (Code config) ("https://" +:+ host +:+ uri))
      else next c.

Definition HTTPSWWWRedirectWithConfig (config : RedirectConfig)
    (next : action Response) : action Response :=
  let config := defaults config in
  fun ctx =>
    if skips config ctx then next ctx
    else
      req ← request ctx;
      let host := Host req in
      let uri := RequestURI req in
      tls ← IsTLS ctx;
      if negb (tls : bool) then
        h3 ← slice_to host 3;
        if negb (String.eqb h3 www) then
          Some (Redirect ctx (Code config) ("https://www." +:+ host +:+ uri))
        else next ctx
      else next ctx.

Definition HTTPSNonWWWRedirectWithConfig (config : RedirectConfig)
    (next : action Response) : action Response :=
  let config := defaults config in
  fun ctx =>
    if skips config ctx then next ctx
    else
      req ← request ctx;
      let host := Host req in
      let uri := RequestURI req in
      tls ← IsTLS ctx;
      if negb (tls : bool) then
        h3 ← slice_to host 3;
        if String.eqb h3 www then
          h4 ← slice_from host 4;
          Some (Redirect ctx (Code config) ("https://" +:+ h4 +:+ uri))
        else Some (Redirect ctx (Code config) ("https://" +:+ host +:+ uri))
      else next ctx.

Definition WWWRedirectWithConfig (config : RedirectConfig)
    (next : action Response) : action Response :=
  let config := defaults config in
  fun c =>
    if skips config c then next c
    else
      req ← request c;
      scheme ← Scheme c;
      let host := Host req in
      h3 ← slice_to host 3;
      if negb (String.eqb h3 www) then
        let uri := RequestURI req in
        Some (Redirect c (Code config)
                (scheme +:+ "://www." +:+ host +:+ uri))
      else next c.

Definition NonWWWRedirectWithConfig (config : RedirectConfig)
    (next : action Response) : action Response :=
  let config := defaults config in
  fun ctx =>
    if skips config ctx then next ctx
    else
      req ← request ctx;
      scheme ← Scheme ctx;
      let host := Host req in
      h3 ← slice_to host 3;
      if String.eqb h3 www then
        let uri := RequestURI req in
        h4 ← slice_from host 4;
        Some (Redirect ctx (Code config) (scheme +:+ "://" +:+ h4 +:+ uri))
      else next ctx.

Definition HTTPSRedirect := HTTPSRedirectWithConfig DefaultRedirectConfig.
Definition HTTPSWWWRedirect :=
  HTTPSWWWRedirectWithConfig DefaultRedirectConfig.
Definition HTTPSNonWWWRedirect :=
  HTTPSNonWWWRedirectWithConfig DefaultRedirectConfig.
Definition WWWRedirect := WWWRedirectWithConfig DefaultRedirectConfig.
Definition NonWWWRedirect := NonWWWRedirectWithConfig DefaultRedirectConfig.

End Redirect.

Arguments RedirectConfig : clear implicits.

End redirect.

(** *** slash.go *)
Module slash.

Section Slash.

Context {Response : Type}.
Context {net : HTTPRequest} {out : HTTPResponse Response}.

Record TrailingSlashConfig : Type := mkTrailingSlashConfig {
  Skipper : option (context Response -> bool);
  RedirectCode : Z
}.

Definition DefaultTrailingSlashConfig : TrailingSlashConfig :=
  {| Skipper := Some DefaultSkipper; RedirectCode := 0 |}.

Definition skips (config : TrailingSlashConfig) (c : context Response)
    : bool :=
  match Skipper config with
  | Some skipper => skipper c
  | None => DefaultSkipper c
  end.

(** The request after [req.RequestURI = uri; url.Path = path]. *)
Definition forwarded (req : Request) (uri path : string) : Request :=
  {| ReqMethod := ReqMethod req; URLPath := path;
     URLRawPath := URLRawPath req; RawQuery := RawQuery req;
     RequestURI := uri |}.

(** AddTrailingSlashWithConfig returns a AddTrailingSlash middleware
    with config.  The request is changed in place: the context handed to
    [next] shows the change. *)
Definition AddTrailingSlashWithConfig (config : TrailingSlashConfig)
    (next : action Response) : action Response :=
  fun ctx =>
    if skips config ctx then next ctx
    else
      req ← request ctx;
      let path := URLPath req in
      qs ← QueryString ctx;
      if negb (String.eqb path "/") then
        c ← last_byte path;
        if negb (Ascii.eqb c "/") then
          let path := path +:+ "/" in
          let uri := path in
          let uri :=
            if negb (String.eqb qs "") then uri +:+ "?" +:+ qs else uri in
          if negb (RedirectCode config =? 0)%Z then
            Some (Redirect ctx (RedirectCode config) uri)
          else next (SetRequest ctx (Some (forwarded req uri path)))
        else next ctx
      else next ctx.

(** RemoveTrailingSlashWithConfig returns a RemoveTrailingSlash
    middleware with config. *)
Definition RemoveTrailingSlashWithConfig (config : TrailingSlashConfig)
    (next : action Response) : action Response :=
  fun ctx =>
    if skips config ctx then next ctx
    else
      req ← request ctx;
      let path := URLPath req in
      qs ← QueryString ctx;
      match String.length path with
      | 0 => next ctx
      | S l =>
          if negb (String.eqb path "/") then
            c ← String.get l path;
            if Ascii.eqb c "/" then
              let path := gostr.take l path in
              let uri := path in
              let uri :=
                if negb (String.eqb qs "") then uri +:+ "?" +:+ qs
                else uri in
              if negb (RedirectCode config =? 0)%Z then
                Some (Redirect ctx (RedirectCode config) uri)
              else next (SetRequest ctx (Some (forwarded req uri path)))
            else next ctx
          else next ctx
      end.

Definition AddTrailingSlash :=
  AddTrailingSlashWithConfig DefaultTrailingSlashConfig.

Definition RemoveTrailingSlash :=
  RemoveTrailingSlashWithConfig {| Skipper := None; RedirectCode := 0 |}.

End Slash.

Arguments TrailingSlashConfig : clear implicits.

End slash.

(** *** method_override.go *)
Module method_override.

Section MethodOverride.

Context {Response : Type}.
Context {net : HTTPRequest}.

(** MethodOverrideGetter is a function that gets overridden method from
    the request; it may go through the context (the query cache). *)
Definition MethodOverrideGetter : Type :=
  context Response -> option (context Response * string).

Record MethodOverrideConfig : Type := mkMethodOverrideConfig {
  Skipper : option (context Response -> bool);
  Getter : option MethodOverrideGetter
}.

(** MethodFromHeader is a [MethodOverrideGetter] that gets overridden
    method from the request header. *)
Definition MethodFromHeader (header : string) : MethodOverrideGetter :=
  fun ctx =>
    r ← request ctx;
    Some (ctx, Header_Get r header).

(** MethodFromQuery is a [MethodOverrideGetter] that gets overridden
    method from the query parameter. *)
Definition MethodFromQuery (param : string) : MethodOverrideGetter :=
  fun ctx => QueryParam ctx param.

Definition DefaultMethodOverrideConfig : MethodOverrideConfig :=
  {| Skipper := Some DefaultSkipper;
     Getter := Some (MethodFromHeader HeaderXHTTPMethodOverride) |}.

(** The request after [req.Method = m]. *)
Definition overridden (req : Request) (m : string) : Request :=
  {| ReqMethod := m; URLPath := URLPath req; URLRawPath := URLRawPath req;
     RawQuery := RawQuery req; RequestURI := RequestURI req |}.

(** MethodOverrideWithConfig returns a MethodOverride middleware with
    config. *)
Definition MethodOverrideWithConfig (config : MethodOverrideConfig)
    (next : action Response) : action Response :=
  let skipper := default DefaultSkipper (Skipper config) in
  let getter :=
    default (MethodFromHeader HeaderXHTTPMethodOverride) (Getter config) in
  fun ctx =>
    if skipper ctx then next ctx
    else
      req ← request ctx;
      if String.eqb (ReqMethod req) POST then
        '(ctx, m) ← getter ctx;
        if negb (String.eqb m "") then
          next (SetRequest ctx (Some (overridden req m)))
        else next ctx
      else next ctx.

Definition MethodOverride :=
  MethodOverrideWithConfig DefaultMethodOverrideConfig.

End MethodOverride.

Arguments MethodOverrideGetter : clear implicits.
Arguments MethodOverrideConfig : clear implicits.

End method_override.

(** *** key_auth.go *)
Module key_auth.

Section KeyAuth.

Context {Response : Type}.
Context {net : HTTPRequest}.

Variable Sprintf_v : iface -> string.

(** KeyAuthValidator defines a function to validate KeyAuth
    credentials; it is handed the context and may change it. *)
Definition KeyAuthValidator : Type :=
  string -> context Response -> option (context Response * bool * error).

Definition keyExtractor : Type :=
  context Response -> option (context Response * string * error).

Record KeyAuthConfig : Type := mkKeyAuthConfig {
  Skipper : option (context Response -> bool);
  KeyLookup : string;
  AuthScheme : string;
  Validator : option KeyAuthValidator
}.

Definition DefaultKeyAuthConfig : KeyAuthConfig :=
  {| Skipper := Some DefaultSkipper;
     KeyLookup := "header:" +:+ HeaderAuthorization;
     AuthScheme := "Bearer";
     Validator := None |}.

(** keyFromHeader returns a [keyExtractor] that extracts key from the
    request header. *)
Definition keyFromHeader (header authScheme : string) : keyExtractor :=
  fun ctx =>
    r ← request ctx;
    let auth := Header_Get r header in
    if String.eqb auth "" then
      Some (ctx, "", OtherErr "Missing key in request header")
    else if String.eqb header HeaderAuthorization then
      let l := String.length authScheme in
      if Nat.ltb (l + 1) (String.length auth)
         && String.eqb (gostr.take l auth) authScheme
      then Some (ctx, gostr.drop (l + 1) auth, nil_error)
      else Some (ctx, "", OtherErr "Invalid key in the request header")
    else Some (ctx, auth, nil_error).

(** keyFromQuery returns a [keyExtractor] that extracts key from the
    query string. *)
Definition keyFromQuery (param : string) : keyExtractor :=
  fun ctx =>
    '(ctx, key) ← QueryParam ctx param;
    if String.eqb key "" then
      Some (ctx, "", OtherErr "Missing key in the query string")
    else Some (ctx, key, nil_error).

(** KeyAuthWithConfig returns an KeyAuth middleware with config.
    [None] is a panic while the middleware is built: no validator, or a
    [KeyLookup] without a second part. *)
Definition KeyAuthWithConfig (config : KeyAuthConfig)
    : option (action Response -> action Response) :=
  let skipper := default DefaultSkipper (Skipper config) in
  let authScheme :=
    if String.eqb (AuthScheme config) "" then AuthScheme DefaultKeyAuthConfig
    else AuthScheme config in
  let keyLookup :=
    if String.eqb (KeyLookup config) "" then KeyLookup DefaultKeyAuthConfig
    else KeyLookup config in
  validator ← Validator config;
  let parts := gostr.Split keyLookup ":" in
  part1 ← parts !! 1;
  part0 ← parts !! 0;
  let extractor :=
    if String.eqb part0 "query" then keyFromQuery part1
    else keyFromHeader part1 authScheme in
  Some (fun next ctx =>
          if skipper ctx then next ctx
          else
            '(ctx, key, err) ← extractor ctx;
            if negb (is_nil err) then
              text ← Error Sprintf_v err;
              Some (ctx,
                    HTTPErr (Some (NewHTTPError StatusBadRequest
                                     [IString text])))
            else
              '(ctx, valid, err) ← validator key ctx;
              if negb (is_nil err) then Some (ctx, err)
              else if (valid : bool) then next ctx
              else Some (ctx, HTTPErr (Some ErrUnauthorized))).

(** The extractor that [KeyAuthWithConfig] initialises for [config],
    on its own: [keyFromQuery] of the second part of [KeyLookup] when the
    first part is [query], [keyFromHeader] of the second part and of
    [AuthScheme] otherwise, with the defaults for the two fields put in.
    [None] is a [KeyLookup] without a second part. *)
Definition extractor (config : KeyAuthConfig) : option keyExtractor :=
  let authScheme :=
    if String.eqb (AuthScheme config) "" then AuthScheme DefaultKeyAuthConfig
    else AuthScheme config in
  let keyLookup :=
    if String.eqb (KeyLookup config) "" then KeyLookup DefaultKeyAuthConfig
    else KeyLookup config in
  let parts := gostr.Split keyLookup ":" in
  part1 ← parts !! 1;
  part0 ← parts !! 0;
  Some (if String.eqb part0 "query" then keyFromQuery part1
        else keyFromHeader part1 authScheme).

(** KeyAuth returns an KeyAuth middleware. *)
Definition KeyAuth (fn : option KeyAuthValidator)
    : option (action Response -> action Response) :=
  KeyAuthWithConfig
    {| Skipper := Skipper DefaultKeyAuthConfig;
       KeyLookup := KeyLookup DefaultKeyAuthConfig;
       AuthScheme := AuthScheme DefaultKeyAuthConfig;
       Validator := fn |}.

End KeyAuth.

Arguments KeyAuthValidator : clear implicits.
Arguments keyExtractor : clear implicits.
Arguments KeyAuthConfig : clear implicits.

End key_auth.

End middleware.

(** ** Notions for the trailing-slash middleware *)

(** The request URI that [AddTrailingSlashWithConfig] and
    [RemoveTrailingSlashWithConfig] make of a path and a raw query: the
    path, followed by [?] and the query when the query is not empty. *)
Definition uri_of (path qs : string) : string :=
  if negb (String.eqb qs "") then path +:+ "?" +:+ qs else path.

(** The request [r] with its [RequestURI] written anew from its path and
    its raw query, and everything else as it is. *)
Definition rewritten (r : Request) : Request :=
  {| ReqMethod := ReqMethod r; URLPath := URLPath r;
     URLRawPath := URLRawPath r; RawQuery := RawQuery r;
     RequestURI := uri_of (URLPath r) (RawQuery r) |}.

(** ** Stand-ins for examples *)

(** A response that records the status and the headers written to it. *)
Record Recorder : Type := mkRecorder {
  Status : Z;
  HeaderMap : list (string * string)
}.

Definition Recorder_response : HTTPResponse Recorder :=
  {| Header_Set := fun w name value =>
       {| Status := Status w; HeaderMap := (name, value) :: HeaderMap w |};
     Response_WriteHeader := fun w code =>
       {| Status := code; HeaderMap := HeaderMap w |} |}.

(** Requests that arrive without TLS for host [host], with a query
    that parses to [values] and with the headers [header]. *)
Definition plain_http (host : string)
    (values : list (string * list string)) (header : string -> string)
    : HTTPRequest :=
  {| TLS := fun _ => false;
     Host := fun _ => host;
     URL_Query := fun _ => values;
     Header_Get := fun _ name => header name |}.

(** The request for method [m], path [p] and raw query [qs] as it
    arrives: its request URI is the path, followed by [?] and the query
    when there is one. *)
Definition arriving (m p qs : string) : Request :=
  {| ReqMethod := m; URLPath := p; URLRawPath := "";
     RawQuery := qs;
     RequestURI := if String.eqb qs "" then p else p +:+ "?" +:+ qs |}.

(** A context around a request and a fresh recorder. *)
Definition recording (r : Request) : context Recorder :=
  {| request := Some r; response := {| Status := 0; HeaderMap := [] |};
     path := ""; pnames := []; pvalues := make 0; query := None;
     handler := NotFoundHandler; store := None |}.

(** A handler that returns nil and leaves the context alone. *)
Definition proceed {Response : Type} : action Response :=
  fun c => Some (c, nil_error).

(** No file can be opened. *)
Definition no_files {Response : Type} : Files Response :=
  {| platform := unix; os_File := unit; FileInfo := unit;
     os_Open := fun _ => None;
     Stat := fun _ => inl tt;
     IsDir := fun _ => false;
     ServeContent := fun w _ _ _ => w |}.

(** Middleware and user functions that leave a trace: each appends its
    mark to the text that the store of the context keeps under the key
    [trace], a middleware before it calls the next handler. *)
Definition trace {Response : Type} (c : context Response) : string :=
  match Get c "trace" with
  | IString s => s
  | _ => ""
  end.

Definition note {Response : Type} (mark : string) (c : context Response)
    : context Response :=
  Set_ c "trace" (IString (trace c +:+ mark)).

Definition noting_mws {Response : Type} (i : MiddlewareFunc)
    (next : action Response) : action Response :=
  fun c => next (note (pretty i) c).

Definition noting_funcs {Response : Type} (pc : nat) : action Response :=
  fun c => Some (note ("h" +:+ pretty pc) c, nil_error).

(** * Properties *)

(** ** context.Param *)

Lemma existsb_eqb_In (name : string) (l : list string) :
  existsb (fun p => String.eqb p name) l = true <-> In name l.
Proof.
  rewrite existsb_exists. split.
  - intros (x & Hx & He). apply String.eqb_eq in He. now subst.
  - intros H. exists name. split; [assumption | apply String.eqb_refl].
Qed.

Lemma binds_dec_spec (n name : string) :
  (String.eqb n name
   || existsb (fun p => String.eqb p name) (gostr.Split n ",")) = true
  <-> binds n name.
Proof.
  unfold binds. rewrite orb_true_iff, String.eqb_eq, existsb_eqb_In.
  reflexivity.
Qed.

Lemma Param_range_spec (name : string) (values : list string) :
  forall (names : list string) (i : nat),
    (exists j n v,
        names !! j = Some n /\ values !! (i + j) = Some v /\ binds n name /\
        (forall j' n', j' < j -> names !! j' = Some n' ->
                       i + j' < length values -> ~ binds n' name) /\
        Param_range i names values name = v)
    \/ ((forall j n, names !! j = Some n -> i + j < length values ->
                     ~ binds n name)
        /\ Param_range i names values name = "").
Proof.
  induction names as [| n names IH]; intros i; simpl.
  - right. split; [| reflexivity]. intros j n Hj. discriminate.
  - destruct (decide (i < length values)) as [Hi | Hi].
    + destruct (String.eqb n name
                || existsb (fun p => String.eqb p name) (gostr.Split n ","))
        eqn:Hb.
      * left. destruct (lookup_lt_is_Some_2 values i Hi) as [v Hv].
        exists 0, n, v. rewrite Nat.add_0_r.
        repeat split; try assumption.
        -- now apply binds_dec_spec.
        -- intros j' n' Hlt. lia.
        -- apply orb_true_iff in Hb.
           assert (Hn : nth i values "" = v).
           { apply nth_lookup_Some with (d := ""%string) in Hv. exact Hv. }
           destruct (String.eqb n name); [exact Hn |].
           destruct Hb as [Hb | Hb]; [discriminate |]. now rewrite Hb.
      * assert (Hnb : ~ binds n name).
        { intros Hc. apply binds_dec_spec in Hc. congruence. }
        apply orb_false_iff in Hb. destruct Hb as [Hb1 Hb2].
        rewrite Hb1, Hb2.
        destruct (IH (S i)) as [(j & m & v & Hj & Hv & Hbd & Hmin & Hres) | [Hno Hres]].
        -- left. exists (S j), m, v.
           replace (i + S j) with (S i + j) by lia.
           repeat split; try assumption.
           intros [| j'] n' Hlt Hl Hlen; simpl in Hl.
           ++ now inversion Hl; subst.
           ++ apply (Hmin j' n'); [lia | assumption | ].
              replace (S i + j') with (i + S j') by lia. exact Hlen.
        -- right. split; [| assumption].
           intros [| j] m Hl Hlen; simpl in Hl.
           ++ now inversion Hl; subst.
           ++ apply (Hno j m); [assumption |].
              replace (S i + j) with (i + S j) by lia. exact Hlen.
    + destruct (IH (S i)) as [(j & m & v & Hj & Hv & _) | [Hno Hres]].
      * apply lookup_lt_Some in Hv. lia.
      * right. split; [| assumption].
        intros j m Hl Hlen. lia.
Qed.

(** C4. [Param(name)] returns [pvalues[i]] for the smallest index [i]
    below [len(pvalues)] whose recorded name is [name] or has [name] among
    its comma-separated components, and the empty string when there is no
    such index. *)
Theorem Param_first_binding (Response : Type) (ctx : context Response)
    (name : string) :
  (exists i n v,
      pnames ctx !! i = Some n /\ elems (pvalues ctx) !! i = Some v /\
      binds n name /\
      (forall j n', j < i -> pnames ctx !! j = Some n' -> ~ binds n' name) /\
      Param ctx name = v)
  \/ ((forall i n, pnames ctx !! i = Some n -> i < len (pvalues ctx) ->
                   ~ binds n name)
      /\ Param ctx name = "").
Proof.
  unfold Param, len.
  destruct (Param_range_spec name (elems (pvalues ctx)) (pnames ctx) 0)
    as [(j & n & v & Hj & Hv & Hb & Hmin & Hres) | [Hno Hres]].
  - left. exists j, n, v. simpl in Hv.
    repeat split; try assumption.
    intros j' n' Hlt Hl. apply (Hmin j' n' Hlt Hl).
    apply lookup_lt_Some in Hv. simpl. lia.
  - right. split; [| assumption]. intros i n Hl Hlen. now apply (Hno i n).
Qed.

(** ** context.Reset *)

(** C7. [Reset] empties [query], [store], [path] and [pnames] and puts
    [NotFoundHandler] back, and leaves the [pvalues] slice as it was, in
    length and in contents. *)
Theorem Reset_keeps_pvalues (ResponseWriter Response : Type)
    (reset : Response -> ResponseWriter -> Response)
    (ctx : context Response) (r : option Request) (w : ResponseWriter) :
  let ctx' := Reset reset ctx r w in
  query ctx' = None /\ store ctx' = None /\ path ctx' = "" /\
  pnames ctx' = [] /\ handler ctx' = NotFoundHandler /\
  request ctx' = r /\
  pvalues ctx' = pvalues ctx /\
  len (pvalues ctx') = len (pvalues ctx) /\
  cap (pvalues ctx') = cap (pvalues ctx) /\
  elems (pvalues ctx') = elems (pvalues ctx).
Proof. repeat split. Qed.

(** ** context.ParamValues *)

Lemma reslice_within (s : slice) (n : nat) :
  n <= len s ->
  exists s', reslice s n = Some s' /\ elems s' = firstn n (elems s).
Proof.
  intros Hn. unfold reslice, cap. unfold len in Hn.
  destruct (decide (n <= length (elems s) + length (spare s))) as [_ | Hc];
    [| lia].
  eexists. split; [reflexivity |]. simpl.
  rewrite firstn_app.
  replace (n - length (elems s)) with 0 by lia.
  simpl. apply app_nil_r.
Qed.

Lemma reslice_beyond (s : slice) (n : nat) : cap s < n -> reslice s n = None.
Proof.
  intros Hn. unfold reslice. destruct (decide (n <= cap s)); [lia | reflexivity].
Qed.

Lemma make_len_cap (n : nat) : len (make n) = n /\ cap (make n) = n.
Proof.
  unfold len, cap, make. simpl. rewrite length_replicate. lia.
Qed.

(** C9. [ParamValues] returns the first [len(pnames)] elements of
    [pvalues] when [len(pnames) <= len(pvalues)].  The condition matters:
    [NewContext] makes [pvalues] with length and capacity [maxParam],
    [SetParamNames] leaves [pvalues] alone, and with more names than that
    the slice expression is out of range: [ParamValues] panics. *)
Theorem ParamValues_prefix (ResponseWriter Response : Type)
    (NewResponse : ResponseWriter -> Akita -> Response) :
  (forall ctx : context Response,
      length (pnames ctx) <= len (pvalues ctx) ->
      exists s, ParamValues ctx = Some s /\
                elems s = firstn (length (pnames ctx)) (elems (pvalues ctx)))
  /\ (forall (a : Akita) r (w : ResponseWriter),
         len (pvalues (NewContext _ _ NewResponse a r w)) = maxParam a
         /\ cap (pvalues (NewContext _ _ NewResponse a r w)) = maxParam a)
  /\ (forall (ctx : context Response) names,
         pvalues (SetParamNames ctx names) = pvalues ctx)
  /\ (forall (a : Akita) r (w : ResponseWriter) (names : list string),
         maxParam a < length names ->
         ParamValues (SetParamNames (NewContext _ _ NewResponse a r w) names)
         = None).
Proof.
  split; [| split; [| split]].
  - intros ctx H. unfold ParamValues. now apply reslice_within.
  - intros a r w. simpl. apply make_len_cap.
  - reflexivity.
  - intros a r w names H. unfold ParamValues. simpl.
    apply reslice_beyond. destruct (make_len_cap (maxParam a)) as [_ ->].
    exact H.
Qed.

Lemma ParamValues_prefix_witness :
  (exists s, ParamValues (SetParamValues (SetParamNames blank ["id"])
                            {| elems := ["42"; "x"]; spare := [] |}) = Some s
             /\ elems s = ["42"])
  /\ ParamValues (SetParamNames
                    (NewContext unit unit unit_response
                       {| Debug := false; maxParam := 1;
                          router := router.NewRouter |} None tt)
                    ["a"; "b"]) = None.
Proof.
  destruct (ParamValues_prefix unit unit unit_response) as (H1 & _ & _ & H4).
  split.
  - apply (H1 (SetParamValues (SetParamNames blank ["id"])
                 {| elems := ["42"; "x"]; spare := [] |})).
    simpl. unfold len. simpl. lia.
  - apply H4. simpl. lia.
Defined.

(** ** DefaultHTTPErrorHandler *)

(** C8 (what the code does). With [Debug] set and an error that is not a
    [*HTTPError], the handler takes the message from [err.Error()] and then
    reads [he.Inner] through the nil pointer left by the failed type
    assertion: it panics. *)
Theorem DefaultHTTPErrorHandler_debug_panics (Response : Type)
    (Committed : Response -> bool) (WriteHeader : Response -> Z -> Response)
    (Sprintf_v : iface -> string)
    (JSON : context Response -> Z -> iface -> context Response * error)
    (a : Akita) (text : string) (ctx : context Response) :
  Debug a = true ->
  DefaultHTTPErrorHandler Response Committed WriteHeader Sprintf_v JSON a
    (OtherErr text) ctx = None.
Proof.
  intros HD. unfold DefaultHTTPErrorHandler. simpl. rewrite HD. reflexivity.
Qed.

Lemma DefaultHTTPErrorHandler_debug_panics_witness :
  DefaultHTTPErrorHandler unit (fun _ => false) (fun r _ => r)
    (fun _ => "") (fun c _ _ => (c, nil_error))
    {| Debug := true; maxParam := 0; router := router.NewRouter |}
    (OtherErr "error") blank = None.
Proof.
  apply DefaultHTTPErrorHandler_debug_panics. reflexivity.
Defined.

(** With [Debug] off the same error is answered with status 500 and the
    status text, as the package's test expects. *)
Example DefaultHTTPErrorHandler_plain :
  DefaultHTTPErrorHandler unit (fun _ => false) (fun r _ => r)
    (fun _ => "") (fun c _ _ => (c, nil_error))
    {| Debug := false; maxParam := 0; router := router.NewRouter |}
    (OtherErr "error")
    (dispatch GET "/" New)
  = Some (500%Z, IMap [("message", IString "Internal Server Error")],
          dispatch GET "/" New).
Proof. reflexivity. Qed.

(** ** The trie: induction and the search *)

Lemma node_induction (P : router.node -> Prop) :
  (forall k p cs pn hs, Forall P cs -> P (router.Node k p cs pn hs)) ->
  forall n, P n.
Proof.
  intros H. fix IH 1. intros [k p cs pn hs]. apply H.
  induction cs as [| c cs IHcs]; constructor; [apply IH | exact IHcs].
Qed.

Section SearchFacts.

Context {R : Type}.
Variable accept : router.node -> list string -> option R.

Lemma search_unfold k p cs pn hs s values :
  router.search accept (router.Node k p cs pn hs) s values =
  match router.consume k p s with
  | None => None
  | Some (captured, rest) =>
      let values' := (values ++ captured)%list in
      match (if gostr.is_empty rest
             then accept (router.Node k p cs pn hs) values' else None) with
      | Some r => Some r
      | None =>
          match alternative accept router.skind cs rest values' with
          | Some r => Some r
          | None =>
              match alternative accept router.pkind cs rest values' with
              | Some r => Some r
              | None => alternative accept router.akind cs rest values'
              end
          end
      end
  end.
Proof.
  simpl. destruct (router.consume k p s) as [[captured rest] |];
    [| reflexivity].
  cbv zeta.
  match goal with
  | |- context [ ?f router.skind cs ] => set (try := f)
  end.
  assert (Htry : forall kd l,
             try kd l = alternative accept kd l rest (values ++ captured)%list).
  { intros kd l. unfold alternative, router.child.
    induction l as [| c l IHl]; [reflexivity |].
    simpl. destruct (router.selects kd rest c); [reflexivity | exact IHl]. }
  rewrite !Htry. reflexivity.
Qed.

Lemma child_In k rest cs c :
  router.child k rest cs = Some c -> c ∈ cs.
Proof.
  unfold router.child. intros H. apply find_some in H.
  apply list_elem_of_In. tauto.
Qed.

Lemma is_empty_spec (s : string) : gostr.is_empty s = true <-> s = "".
Proof. destruct s; simpl; split; congruence. Qed.

Lemma search_characterised : forall n, search_ok accept n.
Proof.
  apply node_induction. intros k p cs pn hs IH s values.
  rewrite Forall_forall in IH.
  rewrite search_unfold.
  destruct (router.consume k p s) as [[captured rest] |] eqn:Hc.
  2: { intros t n' values' Hw. inversion Hw; subst; simpl in *; congruence. }
  cbv zeta. set (n := router.Node k p cs pn hs).
  set (vs := (values ++ captured)%list).
  (* the walks from [n], sorted by their first step *)
  assert (Hinv : forall t n' values',
             walk n s values t n' values' ->
             (t = [] /\ rest = "" /\ n' = n /\ values' = vs)
             \/ (exists kd c t1,
                    t = kd :: t1 /\ router.child kd rest cs = Some c /\
                    walk c rest vs t1 n' values')).
  { intros t n' values' Hw. inversion Hw; subst; simpl in *.
    - left. replace captured0 with captured in * by congruence.
      assert (rest = "") by congruence. subst. auto.
    - right. assert (captured0 = captured /\ rest0 = rest) as [-> ->]
        by (split; congruence).
      eauto 10. }
  (* an alternative that yields nothing leaves no accepted walk *)
  assert (Hnone : forall kd,
             alternative accept kd cs rest vs = None ->
             forall c t1 n' values',
               router.child kd rest cs = Some c ->
               walk c rest vs t1 n' values' -> accept n' values' = None).
  { intros kd Ha c t1 n' values' Hch Hw. unfold alternative in Ha.
    rewrite Hch in Ha.
    pose proof (IH c (child_In _ _ _ _ Hch) rest vs) as Hs.
    rewrite Ha in Hs. eapply Hs; eassumption. }
  (* an alternative that yields a result yields the first of its walks *)
  assert (Hsome : forall kd r,
             alternative accept kd cs rest vs = Some r ->
             exists c t1 n' values',
               router.child kd rest cs = Some c /\
               walk n s values (kd :: t1) n' values' /\
               accept n' values' = Some r /\
               (forall t1' n'' values'',
                   walk c rest vs t1' n'' values'' ->
                   is_Some (accept n'' values'') -> prior t1 t1')).
  { intros kd r Ha. unfold alternative in Ha.
    destruct (router.child kd rest cs) as [c |] eqn:Hch; [| discriminate].
    pose proof (IH c (child_In _ _ _ _ Hch) rest vs) as Hs.
    rewrite Ha in Hs. destruct Hs as (t1 & n' & values' & Hw & Hacc & Hmin).
    exists c, t1, n', values'. repeat split; try assumption.
    eapply walk_down; [exact Hc | exact Hch | exact Hw]. }
  destruct (if gostr.is_empty rest then accept n vs else None)
    as [r |] eqn:Hhere.
  { (* the node itself *)
    destruct (gostr.is_empty rest) eqn:He; [| discriminate].
    apply is_empty_spec in He. subst rest.
    exists [], n, vs. repeat split; [| exact Hhere].
    apply walk_here. exact Hc. }
  assert (Hnothere : forall n' values',
             walk n s values [] n' values' -> accept n' values' = None).
  { intros n' values' Hw. apply Hinv in Hw.
    destruct Hw as [(_ & Hr & -> & ->) | (kd & c & t1 & Ht & _)];
      [| discriminate].
    subst rest. exact Hhere. }
  destruct (alternative accept router.skind cs rest vs) as [r |] eqn:Hs.
  { destruct (Hsome _ _ Hs) as (c & t1 & n' & values' & Hch & Hw & Hacc & Hmin).
    exists (router.skind :: t1), n', values'. repeat split; try assumption.
    intros t' n'' values'' Hw' Hok.
    destruct (Hinv _ _ _ Hw') as [(-> & _) | (kd & c' & t1' & -> & Hch' & Hw1)].
    - rewrite (Hnothere _ _ Hw') in Hok. now destruct Hok.
    - simpl. destruct kd; simpl; [right | left; lia | left; lia].
      split; [reflexivity |]. rewrite Hch in Hch'. inversion Hch'; subst c'.
      eapply Hmin; eassumption. }
  destruct (alternative accept router.pkind cs rest vs) as [r |] eqn:Hp.
  { destruct (Hsome _ _ Hp) as (c & t1 & n' & values' & Hch & Hw & Hacc & Hmin).
    exists (router.pkind :: t1), n', values'. repeat split; try assumption.
    intros t' n'' values'' Hw' Hok.
    destruct (Hinv _ _ _ Hw') as [(-> & _) | (kd & c' & t1' & -> & Hch' & Hw1)].
    - rewrite (Hnothere _ _ Hw') in Hok. now destruct Hok.
    - simpl. destruct kd; simpl; [| right | left; lia].
      + rewrite (Hnone _ Hs _ _ _ _ Hch' Hw1) in Hok. now destruct Hok.
      + split; [reflexivity |]. rewrite Hch in Hch'. inversion Hch'; subst c'.
        eapply Hmin; eassumption. }
  destruct (alternative accept router.akind cs rest vs) as [r |] eqn:Ha.
  { destruct (Hsome _ _ Ha) as (c & t1 & n' & values' & Hch & Hw & Hacc & Hmin).
    exists (router.akind :: t1), n', values'. repeat split; try assumption.
    intros t' n'' values'' Hw' Hok.
    destruct (Hinv _ _ _ Hw') as [(-> & _) | (kd & c' & t1' & -> & Hch' & Hw1)].
    - rewrite (Hnothere _ _ Hw') in Hok. now destruct Hok.
    - simpl. destruct kd; simpl; [| | right].
      + rewrite (Hnone _ Hs _ _ _ _ Hch' Hw1) in Hok. now destruct Hok.
      + rewrite (Hnone _ Hp _ _ _ _ Hch' Hw1) in Hok. now destruct Hok.
      + split; [reflexivity |]. rewrite Hch in Hch'. inversion Hch'; subst c'.
        eapply Hmin; eassumption. }
  intros t n' values' Hw.
  destruct (Hinv _ _ _ Hw) as [(-> & _) | (kd & c & t1 & -> & Hch & Hw1)].
  - exact (Hnothere _ _ Hw).
  - destruct kd; eauto.
Qed.

End SearchFacts.

(** ** Router.Find *)

Lemma lookup_characterised (r : router.Router) (m p : string) :
  match router.lookup m p r with
  | router.Matched h names values =>
      exists t n,
        walk (router.tree r) p [] t n values /\
        router.handlers n !! m = Some h /\ names = router.paramNames n /\
        (forall t' n' values',
            walk (router.tree r) p [] t' n' values' ->
            is_Some (router.handlers n' !! m) -> prior t t')
  | router.MethodNotAllowed =>
      (forall t n values,
          walk (router.tree r) p [] t n values ->
          router.handlers n !! m = None)
      /\ (exists t n values,
             walk (router.tree r) p [] t n values /\ router.handlers n <> ∅)
  | router.NotFound =>
      forall t n values,
        walk (router.tree r) p [] t n values -> router.handlers n = ∅
  end.
Proof.
  unfold router.lookup.
  pose proof (search_characterised (router.findHandler m) (router.tree r) p [])
    as H1.
  destruct (router.search (router.findHandler m) (router.tree r) p [])
    as [o |].
  - destruct H1 as (t & n & values & Hw & Hacc & Hmin).
    unfold router.findHandler in Hacc.
    destruct (router.handlers n !! m) as [h |] eqn:Hh; [| discriminate].
    simpl in Hacc. inversion Hacc; subst o. clear Hacc.
    exists t, n. repeat split; try assumption.
    intros t' n' values' Hw' [h' Hh']. apply (Hmin t' n' values' Hw').
    unfold router.findHandler. rewrite Hh'. simpl. eauto.
  - assert (Hm : forall t n values,
               walk (router.tree r) p [] t n values ->
               router.handlers n !! m = None).
    { intros t n values Hw. specialize (H1 t n values Hw).
      unfold router.findHandler in H1.
      destruct (router.handlers n !! m); [discriminate | reflexivity]. }
    pose proof (search_characterised router.hasHandlers (router.tree r) p [])
      as H2.
    destruct (router.search router.hasHandlers (router.tree r) p []) as [u |].
    + split; [exact Hm |].
      destruct H2 as (t & n & values & Hw & Hacc & _).
      exists t, n, values. split; [exact Hw |].
      unfold router.hasHandlers in Hacc.
      destruct (bool_decide (router.handlers n = ∅)) eqn:Hb; [discriminate |].
      now apply bool_decide_eq_false in Hb.
    + intros t n values Hw. specialize (H2 t n values Hw).
      unfold router.hasHandlers in H2.
      destruct (bool_decide (router.handlers n = ∅)) eqn:Hb; [| discriminate].
      now apply bool_decide_eq_true in Hb.
Qed.

(** C1. At every branch point [Router.Find] takes the alternatives in
    the order static, param, any, and gives one up for the next whenever it
    leads to no handler for the method further down: the handler found is
    the one at the end of the first walk, in that order, among all walks of
    the trie that consume the path and end at a handler for the method, and
    when nothing is found there is no such walk.  With [/users/new] and
    [/users/:id] registered, in either order, [/users/new] resolves to the
    static route's handler and [/users/42] to the param route's handler
    with [id = "42"]; with [/a/x/:c/d] and [/a/:b/c/e] registered,
    [/a/x/c/e] is found through the param child of [/a/] after the static
    child [x/] has led to a dead end two levels down. *)
Theorem Find_static_param_any :
  (forall (r : router.Router) (m p : string),
      match router.lookup m p r with
      | router.Matched h names values =>
          exists t n,
            walk (router.tree r) p [] t n values /\
            router.handlers n !! m = Some h /\
            names = router.paramNames n /\
            (forall t' n' values',
                walk (router.tree r) p [] t' n' values' ->
                is_Some (router.handlers n' !! m) -> prior t t')
      | _ =>
          forall t n values,
            walk (router.tree r) p [] t n values ->
            router.handlers n !! m = None
      end)
  /\ (forall handlerName h1 h2 mw1 mw2,
         exists a a',
           users_new_then_id handlerName h1 h2 mw1 mw2 = Some a /\
           users_id_then_new handlerName h1 h2 mw1 mw2 = Some a' /\
           handler (dispatch GET "/users/new" a) = AddClosure h1 mw1 /\
           handler (dispatch GET "/users/new" a') = AddClosure h1 mw1 /\
           handler (dispatch GET "/users/42" a) = AddClosure h2 mw2 /\
           handler (dispatch GET "/users/42" a') = AddClosure h2 mw2 /\
           Param (dispatch GET "/users/42" a) "id" = "42" /\
           Param (dispatch GET "/users/42" a') "id" = "42")
  /\ (forall handlerName h1 h2,
         exists a,
           backtracking_routes handlerName h1 h2 = Some a /\
           handler (dispatch GET "/a/x/c/d" a) = AddClosure h1 [] /\
           Param (dispatch GET "/a/x/c/d" a) "c" = "c" /\
           handler (dispatch GET "/a/x/c/e" a) = AddClosure h2 [] /\
           Param (dispatch GET "/a/x/c/e" a) "b" = "x").
Proof.
  split; [| split].
  - intros r m p. pose proof (lookup_characterised r m p) as H.
    destruct (router.lookup m p r); [exact H | | ].
    + apply H.
    + intros t n values Hw. rewrite (H t n values Hw). apply lookup_empty.
  - intros handlerName h1 h2 mw1 mw2. eexists. eexists.
    split; [vm_compute; reflexivity |].
    split; [vm_compute; reflexivity |].
    repeat split; vm_compute; reflexivity.
  - intros handlerName h1 h2. eexists.
    split; [vm_compute; reflexivity |].
    repeat split; vm_compute; reflexivity.
Qed.

Section Sentinels.

Context {os : Platform}.

(** C2. "Method not allowed" and "not found" are distinct outcomes of a
    lookup: the first when the path resolves to nodes with handlers, none
    of them for the requested method, the second when it resolves to no
    node with a handler at all; [Find] leaves the matching sentinel in the
    context.  [MethodNotAllowedHandler] returns [ErrMethodNotAllowed]
    (code 405), [NotFoundHandler] returns [ErrNotFound] (code 404), the two
    differ, and each carries the status text of its code as
    [NewHTTPError] sets it. *)
Theorem method_not_allowed_vs_not_found :
  (forall (r : router.Router) (m p : string),
      match router.lookup m p r with
      | router.Matched h _ _ => True
      | router.MethodNotAllowed =>
          (forall t n values,
              walk (router.tree r) p [] t n values ->
              router.handlers n !! m = None)
          /\ (exists t n values,
                 walk (router.tree r) p [] t n values /\
                 router.handlers n <> ∅)
      | router.NotFound =>
          forall t n values,
            walk (router.tree r) p [] t n values -> router.handlers n = ∅
      end)
  /\ (forall (Response : Type) (r : router.Router) (m p : string)
             (ctx : context Response),
         handler (router.Find m p r ctx) =
         match router.lookup m p r with
         | router.Matched h _ _ => h
         | router.MethodNotAllowed => MethodNotAllowedHandler
         | router.NotFound => NotFoundHandler
         end)
  /\ router.MethodNotAllowed <> router.NotFound
  /\ MethodNotAllowedHandler <> NotFoundHandler
  /\ (forall (Response : Type) (c : context Response),
         call Response MethodNotAllowedHandler c
         = Some (Returns (HTTPErr (Some ErrMethodNotAllowed)))
         /\ call Response NotFoundHandler c
            = Some (Returns (HTTPErr (Some ErrNotFound))))
  /\ ErrMethodNotAllowed <> ErrNotFound
  /\ Code ErrMethodNotAllowed = 405%Z
  /\ Code ErrNotFound = 404%Z
  /\ Message ErrMethodNotAllowed = IString (StatusText 405)
  /\ Message ErrNotFound = IString (StatusText 404)
  /\ (forall code, Message (NewHTTPError code []) = IString (StatusText code)
                   /\ Code (NewHTTPError code []) = code)
  /\ (forall handlerName h mw,
         exists a,
           only_get_root handlerName h mw = Some a /\
           handler (dispatch GET "/" a) = AddClosure h mw /\
           handler (dispatch POST "/" a) = MethodNotAllowedHandler /\
           handler (dispatch GET "/files" a) = NotFoundHandler /\
           handler (dispatch GET "/files" New) = NotFoundHandler).
Proof.
  split; [| split].
  - intros r m p. pose proof (lookup_characterised r m p) as H.
    destruct (router.lookup m p r); [exact I | exact H | exact H].
  - intros Response r m p ctx. unfold router.Find.
    destruct (router.lookup m p r); reflexivity.
  - repeat split; try discriminate; try reflexivity.
    intros handlerName h mw. eexists.
    split; [vm_compute; reflexivity |].
    repeat split; vm_compute; reflexivity.
Qed.

End Sentinels.

(** ** Go strings *)

Lemma drop_drop (i j : nat) (s : string) :
  gostr.drop j (gostr.drop i s) = gostr.drop (i + j) s.
Proof.
  revert s. induction i as [| i IH]; intros s; simpl.
  - reflexivity.
  - destruct s as [| c s]; [destruct j; reflexivity | apply IH].
Qed.

Lemma drop_length (i : nat) (s : string) :
  String.length (gostr.drop i s) = String.length s - i.
Proof.
  revert s. induction i as [| i IH]; intros [| c s]; simpl; auto with arith.
Qed.

Lemma drop_all (i : nat) (s : string) :
  String.length s <= i -> gostr.drop i s = "".
Proof.
  revert s. induction i as [| i IH]; intros [| c s]; simpl; intros H;
    try reflexivity; try lia.
  apply IH. lia.
Qed.

Lemma get_drop (i : nat) (s : string) :
  String.get i s = gostr.head (gostr.drop i s).
Proof.
  revert s. induction i as [| i IH]; intros [| c s]; simpl; auto.
Qed.

Lemma drop_S (i : nat) (s : string) (c : ascii) (s' : string) :
  gostr.drop i s = String c s' -> gostr.drop (S i) s = s'.
Proof.
  intros H. replace (S i) with (i + 1) by lia.
  rewrite <- drop_drop, H. reflexivity.
Qed.

Lemma drop_until_from (c : ascii) (s : string) :
  gostr.drop (String.length (gostr.until c s)) s = gostr.from c s.
Proof.
  induction s as [| x s IH]; simpl; [reflexivity |].
  destruct (Ascii.eqb x c); simpl; [reflexivity | exact IH].
Qed.

Lemma append_cons (x : ascii) (a b : string) :
  String x a +:+ b = String x (a +:+ b).
Proof. reflexivity. Qed.

Lemma append_assoc (a b c : string) : (a +:+ b) +:+ c = a +:+ (b +:+ c).
Proof.
  induction a as [| x a IH]; [reflexivity |].
  rewrite !append_cons. f_equal. exact IH.
Qed.

Lemma append_nil_r (a : string) : a +:+ "" = a.
Proof.
  induction a as [| x a IH]; [reflexivity |].
  rewrite append_cons. f_equal. exact IH.
Qed.

Lemma Split_nonempty (s : string) (sep : ascii) : gostr.Split s sep <> [].
Proof.
  induction s as [| c s IH]; simpl; [discriminate |].
  destruct (Ascii.eqb c sep); [discriminate |].
  destruct (gostr.Split s sep); [contradiction | discriminate].
Qed.

(** ** Akita.Reverse *)

Section ReverseFacts.

Variable Sprintf_v : iface -> string.

Lemma skip_from (s : string) (params : list iface) :
  skip Sprintf_v s params =
  match gostr.from "/" s with
  | EmptyString => EmptyString
  | String c s' => String c (subst Sprintf_v s' params)
  end.
Proof.
  induction s as [| c s IH]; simpl; [reflexivity |].
  destruct (Ascii.eqb c "/"); [reflexivity | exact IH].
Qed.

Lemma Reverse_loop_subst (path : string) :
  forall (fuel i : nat) (params : list iface) (uri : string),
    String.length path - i <= fuel ->
    Reverse_loop Sprintf_v fuel path i params uri
    = uri +:+ subst Sprintf_v (gostr.drop i path) params.
Proof.
  induction fuel as [fuel IH] using lt_wf_ind.
  intros i params uri Hfuel.
  destruct fuel as [| fuel].
  - simpl. rewrite drop_all by lia. simpl. now rewrite append_nil_r.
  - simpl. destruct (decide (i < String.length path)) as [Hi | Hi].
    2: { rewrite drop_all by lia. simpl. now rewrite append_nil_r. }
    rewrite get_drop.
    destruct (gostr.drop i path) as [| c s'] eqn:Hd.
    { pose proof (drop_length i path) as Hl. rewrite Hd in Hl. simpl in Hl.
      lia. }
    pose proof (drop_S _ _ _ _ Hd) as HdS.
    assert (Hplain : Reverse_loop Sprintf_v fuel path (S i) params
                       (uri +:+ String c "")
                     = uri +:+ String c (subst Sprintf_v s' params)).
    { rewrite IH; [| lia | lia]. rewrite HdS, append_assoc. reflexivity. }
    simpl gostr.head. cbv iota beta.
    destruct params as [| v params'].
    { rewrite get_drop, Hd. simpl. exact Hplain. }
    destruct (Ascii.eqb c ":") eqn:Hc.
    + apply Ascii.eqb_eq in Hc. subst c.
      simpl. rewrite skip_from.
      set (i' := skip_name path i).
      assert (Hi' : gostr.drop i' path = gostr.from "/" s').
      { unfold i', skip_name. rewrite <- drop_drop, Hd. simpl.
        apply drop_until_from. }
      assert (Hlt : i < i').
      { unfold i', skip_name. rewrite Hd. simpl. lia. }
      pose proof (drop_length i' path) as Hl.
      rewrite get_drop, Hi'. rewrite Hi' in Hl.
      destruct (gostr.from "/" s') as [| d s''] eqn:Hf; simpl in *.
      * rewrite IH; [| lia | lia].
        rewrite drop_all by lia. simpl. now rewrite !append_nil_r.
      * rewrite IH; [| lia | lia].
        rewrite (drop_S _ _ _ _ Hi'). rewrite !append_assoc. reflexivity.
    + simpl. rewrite Hc. rewrite get_drop, Hd. simpl. exact Hplain.
Qed.

End ReverseFacts.

Section ReverseSegments.

Variable Sprintf_v : iface -> string.

Lemma Join_cons (x : string) (l : list string) :
  gostr.Join (x :: l) "/" = x +:+ slashes l.
Proof.
  revert x. induction l as [| y l IH]; intros x.
  - simpl. now rewrite append_nil_r.
  - change (gostr.Join (x :: y :: l) "/")
      with (x +:+ "/" +:+ gostr.Join (y :: l) "/").
    rewrite IH. reflexivity.
Qed.

Lemma has_param_cons (c : ascii) (x : string) :
  has_param (String c x) = Ascii.eqb c ":" || has_param x.
Proof.
  unfold has_param. simpl. destruct (Ascii.eqb c ":"); reflexivity.
Qed.

Lemma fill_cons_plain (c : ascii) (x : string) (xs : list string)
    (params : list iface) :
  Ascii.eqb c ":" = false ->
  exists y ys,
    fill Sprintf_v (x :: xs) params = y :: ys /\
    fill Sprintf_v (String c x :: xs) params = String c y :: ys.
Proof.
  intros Hc. destruct params as [| v params']; simpl.
  - eauto.
  - rewrite has_param_cons, Hc. simpl.
    destruct (has_param x); [| eauto].
    try rewrite Hc. rewrite append_cons. eauto.
Qed.

Lemma subst_skip_fill (s : string) :
  forall params,
    subst Sprintf_v s params
    = gostr.Join (fill Sprintf_v (gostr.Split s "/") params) "/"
    /\ skip Sprintf_v s params
       = slashes (fill Sprintf_v (tail (gostr.Split s "/")) params).
Proof.
  induction s as [| c s IH]; intros params.
  - split; [| destruct params; reflexivity].
    destruct params; reflexivity.
  - pose proof (Split_nonempty s "/") as Hne.
    destruct (gostr.Split s "/") as [| x xs] eqn:Hs; [contradiction |].
    simpl gostr.Split. rewrite Hs.
    destruct (Ascii.eqb c "/") eqn:Hslash.
    + (* a separator *)
      apply Ascii.eqb_eq in Hslash. subst c.
      assert (Hfill : forall ps,
                 fill Sprintf_v ("" :: x :: xs) ps
                 = "" :: fill Sprintf_v (x :: xs) ps).
      { intros [| v ps]; reflexivity. }
      assert (Hrest : forall ps,
                 String "/" (subst Sprintf_v s ps)
                 = slashes (fill Sprintf_v (x :: xs) ps)).
      { intros ps. destruct (IH ps) as [-> _].
        destruct (fill Sprintf_v (x :: xs) ps) as [| y ys] eqn:Hf.
        - destruct ps; simpl in Hf; [discriminate |].
          destruct (has_param x); discriminate.
        - rewrite Join_cons. reflexivity. }
      split.
      * rewrite Hfill, Join_cons. simpl subst.
        destruct params; rewrite Hrest; reflexivity.
      * simpl. apply Hrest.
    + split.
      * destruct (Ascii.eqb c ":") eqn:Hc.
        -- apply Ascii.eqb_eq in Hc. subst c.
           destruct params as [| v params'].
           ++ simpl subst. destruct (IH []) as [-> _].
              assert (Hnil : forall l, fill Sprintf_v l [] = l)
                by (intros [| ? ?]; reflexivity).
              rewrite !Hnil, !Join_cons. reflexivity.
           ++ simpl subst. destruct (IH params') as [_ ->].
              simpl tail. simpl fill.
              rewrite Join_cons. reflexivity.
        -- assert (Hsub : subst Sprintf_v (String c s) params
                          = String c (subst Sprintf_v s params)).
           { destruct params; simpl; [reflexivity |]. now rewrite Hc. }
           rewrite Hsub. destruct (IH params) as [-> _].
           destruct (fill_cons_plain c x xs params Hc)
             as (y & ys & -> & ->).
           rewrite !Join_cons. reflexivity.
      * simpl skip. rewrite Hslash. destruct (IH params) as [_ ->].
        reflexivity.
Qed.

Lemma Reverse_loop_instantiate (pattern : string) (params : list iface) :
  Reverse_loop Sprintf_v (String.length pattern) pattern 0 params ""
  = instantiate Sprintf_v pattern params.
Proof.
  rewrite Reverse_loop_subst by lia. simpl.
  apply subst_skip_fill.
Qed.

(** What [Reverse] returns, whatever the order of the visit: the
    instantiated pattern of the record of that name met first, and the
    empty string when no record has the name. *)
Lemma Reverse_first (order : list Route) (name : string)
    (params : list iface) :
  (exists r, In r order /\ Name r = name /\
             Reverse Sprintf_v order name params
             = instantiate Sprintf_v (Path r) params)
  \/ ((forall r, In r order -> Name r <> name)
      /\ Reverse Sprintf_v order name params = "").
Proof.
  unfold Reverse.
  destruct (List.find (fun r => String.eqb (Name r) name) order)
    as [r |] eqn:Hf.
  - left. apply find_some in Hf. destruct Hf as [Hin He].
    apply String.eqb_eq in He. exists r.
    repeat split; try assumption. apply Reverse_loop_instantiate.
  - right. split; [| reflexivity].
    intros r Hin He.
    pose proof (find_none _ _ Hf r Hin) as Hn. simpl in Hn.
    apply String.eqb_neq in Hn. contradiction.
Qed.

End ReverseSegments.

(** C5 (as stated, refuted). When two records carry the same name and
    different patterns, which happens as soon as one handler is registered
    under two paths, [Reverse] cannot return the pattern of each of
    them. *)
Lemma Reverse_shared_name :
  ~ (forall (handlerName : HandlerFunc -> string) (Sprintf_v : iface -> string)
            (a : Akita) (order : list Route) (r : Route)
            (params : list iface),
        registered handlerName a -> visits a order -> In r (records a) ->
        Reverse Sprintf_v order (Name r) params
        = instantiate Sprintf_v (Path r) params).
Proof.
  intros H.
  set (hn := fun _ : HandlerFunc => "h").
  destruct (Add hn GET "/a/:x" (Func 1) [] New) as [[r1 a1] |] eqn:H1;
    [| vm_compute in H1; discriminate].
  destruct (Add hn GET "/b/:y" (Func 1) [] a1) as [[r2 a2] |] eqn:H2.
  2: { vm_compute in H1. injection H1 as <- <-. vm_compute in H2.
       discriminate. }
  assert (Hreg : registered hn a2).
  { eapply registered_Add; [| exact H2].
    eapply registered_Add; [apply registered_New | exact H1]. }
  assert (Hvis : visits a2 (records a2)) by (unfold visits; reflexivity).
  pose proof (H hn show a2 (records a2) (mkRoute GET "/a/:x" "h")
                [IString "1"] Hreg Hvis) as Ha.
  pose proof (H hn show a2 (records a2) (mkRoute GET "/b/:y" "h")
                [IString "1"] Hreg Hvis) as Hb.
  vm_compute in H1. injection H1 as <- <-.
  vm_compute in H2. injection H2 as <- <-.
  vm_compute in Ha, Hb.
  assert (Eb : "/a/1" = "/b/1") by (apply Hb; auto).
  discriminate.
Qed.

(** C5 (amended). [Reverse(n, v1, ..., vk)] returns the pattern of the
    record named [n], the i-th [:name] segment replaced by [vi] as far as
    values are supplied and every other byte kept, whenever the records
    named [n] all carry that pattern (in particular when a single record has
    the name); it returns the empty string when no record is named [n]. *)
Theorem Reverse_instantiates (Sprintf_v : iface -> string) (a : Akita)
    (order : list Route) (name : string) (params : list iface) :
  visits a order ->
  (forall r,
      In r (records a) -> Name r = name ->
      (forall r', In r' (records a) -> Name r' = name -> Path r' = Path r) ->
      Reverse Sprintf_v order name params
      = instantiate Sprintf_v (Path r) params)
  /\ ((forall r, In r (records a) -> Name r <> name) ->
      Reverse Sprintf_v order name params = "").
Proof.
  intros Hvis. unfold visits in Hvis. fold (records a) in Hvis.
  assert (Hin : forall r, In r order <-> In r (records a)).
  { intros r. split; intros Hr.
    - eapply Permutation_in; [exact Hvis | exact Hr].
    - eapply Permutation_in; [symmetry; exact Hvis | exact Hr]. }
  destruct (Reverse_first Sprintf_v order name params)
    as [(r0 & Hr0 & Hn0 & ->) | [Hno ->]].
  - split.
    + intros r Hr Hn Huniq. f_equal. apply Huniq; [now apply Hin | exact Hn0].
    + intros Hnone. exfalso. apply (Hnone r0); [now apply Hin | exact Hn0].
  - split; [| reflexivity].
    intros r Hr Hn _. exfalso. apply (Hno r); [now apply Hin | exact Hn].
Qed.

Lemma Reverse_instantiates_witness :
  exists a,
    url_test func_name = Some a /\
    Reverse show (records a) "getFile" [IString "1"]
    = "/group/users/1/files/:fid" /\
    Reverse show (records a) "getFile" [IString "1"; IString "7"]
    = "/group/users/1/files/7" /\
    Reverse show (records a) "getUser" [] = "/users/:id" /\
    Reverse show (records a) "missing" [IString "1"] = "".
Proof.
  destruct (url_test func_name) as [a |] eqn:Ha;
    [| vm_compute in Ha; discriminate].
  exists a. split; [reflexivity |].
  assert (Hvis : visits a (records a)) by (unfold visits; reflexivity).
  assert (Hrec : records a
                 = [mkRoute GET "/group/users/:uid/files/:fid" "getFile";
                    mkRoute GET "/static/file" "static";
                    mkRoute GET "/users/:id" "getUser"]).
  { vm_compute in Ha. injection Ha as <-. vm_compute. reflexivity. }
  assert (Hfile : forall params,
             Reverse show (records a) "getFile" params
             = instantiate show "/group/users/:uid/files/:fid" params).
  { intros params.
    apply (proj1 (Reverse_instantiates show a (records a) "getFile"
                    params Hvis)
             (mkRoute GET "/group/users/:uid/files/:fid" "getFile")).
    - rewrite Hrec. simpl. auto.
    - reflexivity.
    - rewrite Hrec. simpl. intros r' [<- | [<- | [<- | []]]]; simpl;
        intros; (reflexivity || discriminate). }
  split; [rewrite Hfile; reflexivity |].
  split; [rewrite Hfile; reflexivity |].
  split.
  - rewrite (proj1 (Reverse_instantiates show a (records a) "getUser"
                      [] Hvis) (mkRoute GET "/users/:id" "getUser")).
    + reflexivity.
    + rewrite Hrec. simpl. auto.
    + reflexivity.
    + rewrite Hrec. simpl. intros r' [<- | [<- | [<- | []]]]; simpl;
        intros; (reflexivity || discriminate).
  - apply (proj2 (Reverse_instantiates show a (records a) "missing"
                    [IString "1"] Hvis)).
    rewrite Hrec. simpl. intros r [<- | [<- | [<- | []]]]; discriminate.
Defined.

(** ** path.Clean and filepath.Join *)

Lemma Split_cons_sep (s : string) :
  gostr.Split (String "/" s) "/" = "" :: gostr.Split s "/".
Proof. reflexivity. Qed.

Lemma Split_app (a b : string) :
  gostr.Split (a +:+ String "/" b) "/"
  = (gostr.Split a "/" ++ gostr.Split b "/")%list.
Proof.
  induction a as [| c a IH]; [reflexivity |].
  rewrite append_cons. simpl gostr.Split. rewrite IH.
  destruct (Ascii.eqb c "/"); [reflexivity |].
  pose proof (Split_nonempty a "/") as Hne.
  destruct (gostr.Split a "/") as [| x xs]; [contradiction | reflexivity].
Qed.

Lemma Split_no_sep (s : string) :
  Forall (fun x => gostr.from "/" x = "") (gostr.Split s "/").
Proof.
  induction s as [| c s IH]; simpl.
  - constructor; [reflexivity | constructor].
  - destruct (Ascii.eqb c "/") eqn:Hc.
    + constructor; [reflexivity | exact IH].
    + pose proof (Split_nonempty s "/") as Hne.
      destruct (gostr.Split s "/") as [| x xs]; [contradiction |].
      inversion IH; subst. constructor; [| assumption].
      simpl. now rewrite Hc.
Qed.

Lemma Split_plain (x : string) :
  gostr.from "/" x = "" -> gostr.Split x "/" = [x].
Proof.
  induction x as [| c x IH]; simpl; [reflexivity |].
  destruct (Ascii.eqb c "/"); [discriminate |].
  intros H. now rewrite (IH H).
Qed.

Lemma Split_Join (els : list string) :
  Forall plain els -> els <> [] ->
  gostr.Split (gostr.Join els "/") "/" = els.
Proof.
  induction els as [| x els IH]; intros Hp Hne; [contradiction |].
  inversion Hp as [| ? ? Hx Hels]; subst.
  destruct els as [| y els].
  - simpl. apply Split_plain. apply Hx.
  - change (gostr.Join (x :: y :: els) "/")
      with (x +:+ String "/" (gostr.Join (y :: els) "/")).
    rewrite Split_app, IH; [| assumption | discriminate].
    rewrite Split_plain by apply Hx. reflexivity.
Qed.

Lemma clean_step_plain (r : bool) (out : list string) (el : string) :
  plain el -> gopath.clean_step r out el = el :: out.
Proof.
  intros (H1 & H2 & H3 & _). unfold gopath.clean_step.
  apply String.eqb_neq in H1, H2, H3. now rewrite H1, H2, H3.
Qed.

Lemma clean_fold_plain (r : bool) (els out : list string) :
  Forall plain els ->
  fold_left (gopath.clean_step r) els out = (rev els ++ out)%list.
Proof.
  revert out. induction els as [| x els IH]; intros out Hp; [reflexivity |].
  inversion Hp; subst. simpl fold_left.
  rewrite clean_step_plain by assumption. rewrite IH by assumption.
  simpl. now rewrite <- app_assoc.
Qed.

(** Cleaning a rooted path leaves plain elements only. *)
Lemma clean_rooted_plain (segs out : list string) :
  Forall (fun x => gostr.from "/" x = "") segs ->
  Forall plain out ->
  Forall plain (fold_left (gopath.clean_step true) segs out).
Proof.
  revert out. induction segs as [| el segs IH]; intros out Hs Ho;
    [exact Ho |].
  inversion Hs; subst. simpl. apply IH; [assumption |].
  unfold gopath.clean_step.
  destruct (String.eqb el "") eqn:E1; [exact Ho |].
  destruct (String.eqb el ".") eqn:E2; [exact Ho |].
  simpl. destruct (String.eqb el "..") eqn:E3.
  - destruct out as [| x out']; [constructor |].
    destruct (String.eqb x ".."); [exact Ho |]. now inversion Ho.
  - apply String.eqb_neq in E1, E2, E3. constructor; [| exact Ho].
    repeat split; assumption.
Qed.

Lemma rooted_append (root b : string) :
  root <> "" -> gopath.rooted (root +:+ b) = gopath.rooted root.
Proof. destruct root; [congruence | reflexivity]. Qed.

Lemma Clean_render (q : string) :
  q <> "" -> gopath.Clean q = render (gopath.rooted q) (gopath.clean_elems q).
Proof. destruct q; [congruence | reflexivity]. Qed.

Lemma Join_below (root : string) (els : list string) :
  root <> "" -> Forall plain els ->
  gopath.Join root ("/" +:+ gostr.Join els "/")
  = render (gopath.rooted root) (gopath.clean_elems root ++ els).
Proof.
  intros Hroot Hp. unfold gopath.Join.
  destruct root as [| c root'] eqn:Er; [congruence |]. rewrite <- Er in *.
  replace (gostr.is_empty root) with false by (now rewrite Er).
  simpl negb. cbv iota.
  set (b := "/" +:+ gostr.Join els "/").
  assert (Hq : root +:+ "/" +:+ b <> "") by (rewrite Er; discriminate).
  rewrite (Clean_render _ Hq). rewrite rooted_append by assumption.
  f_equal. unfold gopath.clean_elems.
  rewrite rooted_append by assumption.
  change (root +:+ "/" +:+ b) with (root +:+ String "/" b).
  rewrite Split_app. unfold b.
  change ("/" +:+ gostr.Join els "/") with (String "/" (gostr.Join els "/")).
  rewrite Split_cons_sep, fold_left_app. simpl fold_left.
  change (gopath.clean_step (gopath.rooted root)
            (fold_left (gopath.clean_step (gopath.rooted root))
               (gostr.Split root "/") []) "")
    with (fold_left (gopath.clean_step (gopath.rooted root))
            (gostr.Split root "/") []).
  destruct els as [| x els'].
  - simpl. now rewrite app_nil_r.
  - rewrite Split_Join by (assumption || discriminate).
    rewrite clean_fold_plain by assumption.
    rewrite rev_app_distr, rev_involutive. reflexivity.
Qed.

(** A cleaned rooted path is left as it is by [Clean]. *)
Lemma Clean_cleaned (els : list string) :
  Forall plain els ->
  gopath.Clean ("/" +:+ gostr.Join els "/") = "/" +:+ gostr.Join els "/".
Proof.
  intros Hp.
  change ("/" +:+ gostr.Join els "/") with (String "/" (gostr.Join els "/")).
  unfold gopath.Clean. simpl gostr.is_empty. cbv iota.
  simpl gopath.rooted. cbv iota. unfold gopath.clean_elems.
  simpl gopath.rooted. rewrite Split_cons_sep. simpl fold_left.
  change (gopath.clean_step true [] "") with (@nil string).
  destruct els as [| x els'].
  - reflexivity.
  - rewrite Split_Join by (assumption || discriminate).
    rewrite clean_fold_plain by assumption.
    now rewrite app_nil_r, rev_involutive.
Qed.

(** ** static *)

Lemma take_drop (n : nat) (s : string) :
  gostr.take n s +:+ gostr.drop n s = s.
Proof.
  revert s. induction n as [| n IH]; intros [| x s]; try reflexivity.
  simpl. rewrite append_cons. now rewrite IH.
Qed.

Lemma take_le (n : nat) (s : string) : String.length (gostr.take n s) <= n.
Proof.
  revert s. induction n as [| n IH]; intros [| x s]; simpl; try lia.
  specialize (IH s). lia.
Qed.

(** The escape at fault is a piece of the text decoded: it begins with
    the [%] and is three bytes long at most. *)
Lemma unescape_fragment (s fragment : string) :
  gopath.unescape s = inr fragment ->
  gostr.head fragment = Some "%"%char /\ String.length fragment <= 3 /\
  exists before after, s = before +:+ fragment +:+ after.
Proof.
  remember (String.length s) as n eqn:Hn. revert s fragment Hn.
  induction n as [n IH] using lt_wf_ind. intros s fragment Hn H.
  destruct s as [| c s']; [discriminate |]. simpl in H.
  destruct (Ascii.eqb c "%") eqn:Ec.
  - apply Ascii.eqb_eq in Ec. subst c.
    assert (Hhere : forall t,
               gostr.head (gostr.take 3 (String "%" t)) = Some "%"%char /\
               String.length (gostr.take 3 (String "%" t)) <= 3 /\
               exists before after,
                 String "%" t
                 = before +:+ gostr.take 3 (String "%" t) +:+ after).
    { intros t. split; [reflexivity |]. split; [apply take_le |].
      exists "", (gostr.drop 3 (String "%" t)).
      change ("" +:+ ?x) with x. symmetry. apply take_drop. }
    destruct s' as [| a [| b s'']];
      [injection H as <-; apply (Hhere "")
      | injection H as <-; apply (Hhere (String a "")) |].
    destruct (gopath.ishex a && gopath.ishex b);
      [| injection H as <-; apply (Hhere (String a (String b s'')))].
    destruct (gopath.unescape s'') as [p | f] eqn:Eu; [discriminate |].
    injection H as ->.
    destruct (IH (String.length s'')) with (s := s'') (fragment := fragment)
      as (Hh & Hl & before & after & E); try assumption; try reflexivity.
    { subst n. simpl. lia. }
    split; [exact Hh |]. split; [exact Hl |].
    exists (String "%" (String a (String b before))), after.
    rewrite !append_cons. now rewrite <- E.
  - destruct (gopath.unescape s') as [p | f] eqn:Eu; [discriminate |].
    injection H as ->.
    destruct (IH (String.length s')) with (s := s') (fragment := fragment)
      as (Hh & Hl & before & after & E); try assumption; try reflexivity.
    { subst n. simpl. lia. }
    split; [exact Hh |]. split; [exact Hl |].
    exists (String c before), after. rewrite append_cons. now rewrite <- E.
Qed.




(** ** Insertion into the trie *)

Lemma insert_unfold k p cs pn hs s ts names m h :
  router.insert (router.Node k p cs pn hs) s ts names m h =
  let l := match k with router.skind => gostr.lcp p s | _ => 0 end in
  if bool_decide (k = router.skind) && Nat.ltb l (String.length p) then
    let old := router.Node router.skind (gostr.drop l p) cs pn hs in
    Some match router.remaining l s ts with
         | [] => router.Node router.skind (gostr.take l p) [old] names
                   {[ m := h ]}
         | t :: ts' =>
             router.Node router.skind (gostr.take l p)
               [old; router.branch t ts' names m h] names ∅
         end
  else
    match router.remaining l s ts with
    | [] => Some (router.Node k p cs pn (<[ m := h ]> hs))
    | t :: ts' =>
        match descend t ts' names m h cs with
        | router.NoChild =>
            Some (router.Node k p
                    (cs ++ [router.branch t ts' names m h])%list pn hs)
        | router.Fatal => None
        | router.Updated cs' => Some (router.Node k p cs' pn hs)
        end
    end.
Proof.
  simpl. cbv zeta.
  destruct (bool_decide (k = router.skind)
            && Nat.ltb match k with
                       | router.skind => gostr.lcp p s
                       | _ => 0
                       end (String.length p)); [reflexivity |].
  destruct (router.remaining _ s ts) as [| t ts']; [reflexivity |].
  match goal with
  | |- match ?f cs with _ => _ end = _ => set (go := f)
  end.
  assert (Hgo : forall l, go l = descend t ts' names m h l).
  { induction l as [| c l IHl]; [reflexivity |].
    simpl. rewrite <- IHl. reflexivity. }
  now rewrite Hgo.
Qed.

Lemma lcp_le_l (p s : string) : gostr.lcp p s <= String.length p.
Proof.
  revert s. induction p as [| x p IH]; intros [| y s]; simpl; try lia.
  destruct (Ascii.eqb x y); [| lia]. specialize (IH s). lia.
Qed.

Lemma take_length (l : nat) (p : string) :
  l <= String.length p -> String.length (gostr.take l p) = l.
Proof.
  revert p. induction l as [| l IH]; intros [| x p]; simpl; intros H;
    try reflexivity; try lia.
  rewrite IH; [reflexivity | lia].
Qed.

Lemma lcp_take (p s : string) :
  gostr.lcp (gostr.take (gostr.lcp p s) p) s = gostr.lcp p s.
Proof.
  revert s. induction p as [| x p IH]; intros [| y s]; simpl; try reflexivity.
  destruct (Ascii.eqb x y) eqn:E; simpl; [| reflexivity].
  now rewrite E, IH.
Qed.

Lemma lcp_refl (s : string) : gostr.lcp s s = String.length s.
Proof.
  induction s as [| x s IH]; simpl; [reflexivity |].
  now rewrite Ascii.eqb_refl, IH.
Qed.

(** Past their longest common prefix two strings start with different
    bytes. *)
Lemma lcp_diverge (p s : string) :
  match gostr.head (gostr.drop (gostr.lcp p s) p),
        gostr.head (gostr.drop (gostr.lcp p s) s) with
  | Some x, Some y => Ascii.eqb x y
  | _, _ => false
  end = false.
Proof.
  revert s. induction p as [| x p IH]; intros [| y s]; simpl; try reflexivity.
  destruct (Ascii.eqb x y) eqn:E; simpl; [apply IH | exact E].
Qed.

Lemma head_take (l : nat) (p : string) :
  1 <= l -> gostr.head (gostr.take l p) = gostr.head p.
Proof. destruct l; [lia |]. destruct p; reflexivity. Qed.

Lemma label_lcp (c : router.node) (s : string) :
  router.label_matches c s = true -> 1 <= gostr.lcp (router.prefix c) s.
Proof.
  unfold router.label_matches.
  destruct (router.prefix c) as [| x p]; [discriminate |].
  destruct s as [| y s]; [discriminate |]. simpl.
  intros ->. lia.
Qed.

Lemma branch_shape t ts names m h :
  router.nkind (router.branch t ts names m h) = router.seg_kind t /\
  router.prefix (router.branch t ts names m h) = router.seg_prefix t /\
  router.paramNames (router.branch t ts names m h)
  = (names ++ router.seg_names t)%list.
Proof. destruct ts; simpl; auto. Qed.

Lemma branch_no_conflict t ts names m h :
  router.conflicts t (router.branch t ts names m h) = false.
Proof.
  destruct t as [text | name |]; try reflexivity.
  unfold router.conflicts.
  destruct (branch_shape (router.Par name) ts names m h) as (_ & _ & ->).
  simpl. rewrite last_snoc. rewrite bool_decide_eq_true_2; reflexivity.
Qed.

Lemma remaining_whole (t : router.segment) (ts : list router.segment) :
  router.remaining
    match router.seg_kind t with
    | router.skind => gostr.lcp (router.seg_prefix t) (router.seg_text t)
    | _ => 0
    end (router.seg_text t) ts = ts.
Proof.
  unfold router.remaining. destruct t as [text | name |]; simpl;
    try reflexivity.
  rewrite lcp_refl, drop_all by lia. reflexivity.
Qed.

Lemma branch_no_split (t : router.segment) :
  bool_decide (router.seg_kind t = router.skind)
  && Nat.ltb match router.seg_kind t with
             | router.skind =>
                 gostr.lcp (router.seg_prefix t) (router.seg_text t)
             | _ => 0
             end (String.length (router.seg_prefix t)) = false.
Proof.
  destruct t as [text | name |]; simpl; try reflexivity.
  rewrite lcp_refl, Nat.ltb_irrefl.
  destruct (bool_decide (router.skind = router.skind)); reflexivity.
Qed.

(** A branch just created takes the pattern it was created for. *)
Lemma insert_branch : forall ts t names m h names' m' h',
    is_Some (router.insert (router.branch t ts names m h)
               (router.seg_text t) ts names' m' h').
Proof.
  induction ts as [| t2 ts2 IH]; intros t names m h names' m' h'.
  - simpl router.branch. rewrite insert_unfold. cbv zeta.
    rewrite remaining_whole, branch_no_split. eauto.
  - simpl router.branch. rewrite insert_unfold. cbv zeta.
    rewrite remaining_whole, branch_no_split.
    simpl descend.
    destruct (router.selects _ _ _); [| eauto].
    rewrite branch_no_conflict.
    destruct (IH t2 (names ++ router.seg_names t)%list m h
                (names' ++ router.seg_names t2)%list m' h') as [c' ->].
    eauto.
Qed.

Lemma descend_branch t ts names m h names' m' h' :
  descend t ts names' m' h' [router.branch t ts names m h] <> router.Fatal.
Proof.
  simpl. destruct (router.selects _ _ _); [| discriminate].
  rewrite branch_no_conflict.
  destruct (insert_branch ts t names m h (names' ++ router.seg_names t)%list
              m' h') as [c' ->].
  discriminate.
Qed.

(** No child is selected: that does not depend on what is inserted. *)
Lemma descend_NoChild t ts names m h cs :
  descend t ts names m h cs = router.NoChild <->
  Forall (fun c => router.selects (router.seg_kind t) (router.seg_text t) c
                   = false) cs.
Proof.
  induction cs as [| c cs IH]; simpl.
  - split; [constructor | reflexivity].
  - destruct (router.selects _ _ c) eqn:Hsel.
    + split.
      * destruct (router.conflicts t c); [discriminate |].
        destruct (router.insert c _ _ _ _ _); discriminate.
      * intros H. inversion H; subst. congruence.
    + destruct (descend t ts names m h cs) eqn:Hd.
      * split; [| reflexivity].
        intros _. constructor; [exact Hsel | now apply IH].
      * split; [discriminate |]. intros H. inversion H; subst.
        assert (Hc : router.Fatal = router.NoChild) by now apply IH.
        discriminate.
      * split; [discriminate |]. intros H. inversion H; subst.
        assert (Hc : router.Updated cs0 = router.NoChild) by now apply IH.
        discriminate.
Qed.

Lemma descend_app t ts names m h cs l :
  descend t ts names m h cs = router.NoChild ->
  descend t ts names m h (cs ++ l)%list =
  match descend t ts names m h l with
  | router.Updated r => router.Updated (cs ++ r)%list
  | other => other
  end.
Proof.
  induction cs as [| c cs IH]; simpl.
  - intros _. destruct (descend t ts names m h l); reflexivity.
  - destruct (router.selects _ _ c).
    + destruct (router.conflicts t c); [discriminate |].
      destruct (router.insert c _ _ _ _ _); discriminate.
    + destruct (descend t ts names m h cs); try discriminate.
      intros _. rewrite IH by reflexivity.
      destruct (descend t ts names m h l); reflexivity.
Qed.

(** What an insertion keeps of the node it enters. *)
Lemma insert_shape n s ts names m h n' :
  router.insert n s ts names m h = Some n' ->
  router.nkind n' = router.nkind n /\
  (router.nkind n <> router.skind ->
   router.paramNames n' = router.paramNames n) /\
  (router.label_matches n s = true -> router.label_matches n' s = true) /\
  (router.prefix n = "" -> router.prefix n' = "").
Proof.
  destruct n as [k p cs pn hs]. rewrite insert_unfold. cbv zeta.
  destruct (bool_decide (k = router.skind)) eqn:Hk; simpl andb.
  - apply bool_decide_eq_true in Hk. subst k.
    destruct (Nat.ltb (gostr.lcp p s) (String.length p)) eqn:Hl.
    + intros H. injection H as <-.
      assert (Hshape :
                forall kids hs',
                  router.label_matches
                    (router.Node router.skind ( gostr.take (gostr.lcp p s) p)
                       kids names hs') s
                  = router.label_matches
                      (router.Node router.skind p cs pn hs) s
                       \/ router.label_matches
                            (router.Node router.skind p cs pn hs) s = false).
      { intros kids hs'.
        destruct (router.label_matches (router.Node router.skind p cs pn hs) s)
          eqn:Hm; [left | now right].
        pose proof (label_lcp _ _ Hm) as Hge. simpl in Hge.
        unfold router.label_matches in *. simpl in *.
        rewrite head_take by exact Hge. exact Hm. }
      apply Nat.ltb_lt in Hl.
      destruct (router.remaining _ s ts); simpl;
        (split; [reflexivity |]; split; [congruence |]; split;
         [ intros Hm;
           match goal with
           | |- router.label_matches (router.Node _ _ ?kids _ ?hs') _ = _ =>
               destruct (Hshape kids hs') as [-> | Hf]; [exact Hm | congruence]
           end
         | intros ->; simpl in Hl; lia ]).
    + destruct (router.remaining _ s ts) as [| t ts'].
      * intros H. injection H as <-. simpl. auto.
      * destruct (descend t ts' names m h cs); intros H;
          [injection H as <- | discriminate | injection H as <-];
          simpl; auto.
  - destruct (router.remaining _ s ts) as [| t ts'].
    + intros H. injection H as <-. simpl. auto.
    + destruct (descend t ts' names m h cs); intros H;
        [injection H as <- | discriminate | injection H as <-];
        simpl; auto.
Qed.

Lemma selects_kept k s c c' ts names m h :
  router.insert c s ts names m h = Some c' ->
  router.selects k s c = true -> router.selects k s c' = true.
Proof.
  intros Hins. destruct (insert_shape _ _ _ _ _ _ _ Hins) as (Hk & _ & Hl & _).
  unfold router.selects. rewrite Hk.
  destruct k; try tauto.
  rewrite !andb_true_iff. intros [H1 H2]. auto.
Qed.

Lemma conflicts_kept t c c' ts names m h :
  router.insert c (router.seg_text t) ts names m h = Some c' ->
  router.selects (router.seg_kind t) (router.seg_text t) c = true ->
  router.conflicts t c = false -> router.conflicts t c' = false.
Proof.
  intros Hins Hsel. destruct t as [text | name |]; try reflexivity.
  destruct (insert_shape _ _ _ _ _ _ _ Hins) as (_ & Hpn & _).
  simpl in Hsel. apply bool_decide_eq_true in Hsel.
  unfold router.conflicts. rewrite Hpn; [tauto | congruence].
Qed.

Lemma selected_static_text t c :
  router.selects (router.seg_kind t) (router.seg_text t) c = true ->
  router.nkind c = router.skind -> router.seg_text t <> "".
Proof.
  intros Hsel Hk Ht. destruct t as [text | name |]; simpl in *.
  - subst text. apply andb_true_iff in Hsel. destruct Hsel as [_ Hl].
    unfold router.label_matches in Hl.
    destruct (gostr.head (router.prefix c)); discriminate.
  - apply bool_decide_eq_true in Hsel. congruence.
  - apply bool_decide_eq_true in Hsel. congruence.
Qed.

Lemma descend_again t ts cs :
  Forall accepts_again cs ->
  alternating (negb (gostr.is_empty (router.seg_text t))) ts ->
  forall names m h cs',
    descend t ts names m h cs = router.Updated cs' ->
    forall names' m' h',
      exists cs'', descend t ts names' m' h' cs' = router.Updated cs''.
Proof.
  intros HP Halt. induction cs as [| c cs IH]; intros names m h cs' Hd;
    [discriminate |].
  inversion HP as [| ? ? Hc Hcs]; subst. simpl in Hd.
  destruct (router.selects _ _ c) eqn:Hsel.
  - destruct (router.conflicts t c) eqn:Hcf; [discriminate |].
    destruct (router.insert c _ _ _ _ _) as [c' |] eqn:Hins; [| discriminate].
    injection Hd as <-. intros names' m' h'. simpl.
    rewrite (selects_kept _ _ _ _ _ _ _ _ Hins Hsel).
    rewrite (conflicts_kept _ _ _ _ _ _ _ Hins Hsel Hcf).
    assert (Hth : threads c (router.seg_text t) ts).
    { split; [exact Halt |]. intros Hk Ht.
      now destruct (selected_static_text _ _ Hsel Hk). }
    destruct (Hc _ _ _ _ _ _ Hth Hins
                (names' ++ router.seg_names t)%list m' h') as [c'' ->].
    eauto.
  - destruct (descend t ts names m h cs) as [| | r] eqn:Hr; try discriminate.
    injection Hd as <-. intros names' m' h'. simpl. rewrite Hsel.
    destruct (IH Hcs _ _ _ _ Hr names' m' h') as [r' ->]. eauto.
Qed.

Lemma descend_skip t ts names m h c l :
  router.selects (router.seg_kind t) (router.seg_text t) c = false ->
  descend t ts names m h (c :: l) =
  match descend t ts names m h l with
  | router.Updated r => router.Updated (c :: r)
  | other => other
  end.
Proof. intros H. simpl. now rewrite H. Qed.

Lemma remaining_next l s ts t ts' :
  alternating (negb (gostr.is_empty s)) ts ->
  router.remaining l s ts = t :: ts' ->
  alternating (negb (gostr.is_empty (router.seg_text t))) ts' /\
  (gostr.drop l s <> "" -> t = router.Lit (gostr.drop l s)) /\
  (gostr.drop l s = "" -> s <> "" -> router.seg_kind t <> router.skind).
Proof.
  unfold router.remaining. intros Halt Hrem.
  destruct (gostr.drop l s) as [| x d] eqn:Hd.
  - simpl in Hrem. subst ts. split; [| split; [congruence |]].
    + destruct t as [text | name |]; simpl in *; try exact Halt.
      destruct Halt as (_ & Hne & Ht).
      destruct text; [congruence | exact Ht].
    + intros _ Hs. destruct s; [congruence |]. simpl in Halt.
      destruct t; simpl; try discriminate. destruct Halt. discriminate.
  - simpl in Hrem. injection Hrem as <- <-. simpl.
    split; [| split; [reflexivity | congruence]].
    destruct s as [| y s']; [destruct l; discriminate | exact Halt].
Qed.

Lemma insert_again : forall n, accepts_again n.
Proof.
  apply node_induction. intros k p cs pn hs IH.
  intros s ts names m h n' [Halt Hroot] Hins names' m' h'.
  rewrite insert_unfold in Hins. cbv zeta in Hins.
  set (l := match k with router.skind => gostr.lcp p s | _ => 0 end) in *.
  destruct (bool_decide (k = router.skind) && Nat.ltb l (String.length p))
    eqn:Hsplit.
  - (* the node was split *)
    apply andb_true_iff in Hsplit. destruct Hsplit as [Hk Hl].
    apply bool_decide_eq_true in Hk. subst k.
    apply Nat.ltb_lt in Hl. subst l.
    assert (Hs : s <> "").
    { intros ->. simpl in Hroot. rewrite Hroot in Hl by reflexivity.
      simpl in Hl. lia. }
    assert (Hagain :
              forall kids hs0,
                router.insert
                  (router.Node router.skind (gostr.take (gostr.lcp p s) p)
                     kids names hs0) s ts names' m' h'
                = match router.remaining (gostr.lcp p s) s ts with
                  | [] => Some (router.Node router.skind
                                  (gostr.take (gostr.lcp p s) p) kids names
                                  (<[ m' := h' ]> hs0))
                  | t :: ts' =>
                      match descend t ts' names' m' h' kids with
                      | router.NoChild =>
                          Some (router.Node router.skind
                                  (gostr.take (gostr.lcp p s) p)
                                  (kids ++ [router.branch t ts' names' m' h'])
                                  names hs0)
                      | router.Fatal => None
                      | router.Updated cs' =>
                          Some (router.Node router.skind
                                  (gostr.take (gostr.lcp p s) p) cs' names hs0)
                      end
                  end).
    { intros kids hs0. rewrite insert_unfold. cbv zeta.
      rewrite lcp_take, take_length by apply lcp_le_l.
      rewrite Nat.ltb_irrefl, andb_false_r. reflexivity. }
    destruct (router.remaining (gostr.lcp p s) s ts) as [| t ts'] eqn:Hrem;
      injection Hins as <-; rewrite Hagain; try rewrite Hrem; [eauto |].
    destruct (remaining_next _ _ _ _ _ Halt Hrem) as (_ & Hlit & Hpar).
    assert (Hold : router.selects (router.seg_kind t) (router.seg_text t)
                     (router.Node router.skind
                        (gostr.drop (gostr.lcp p s) p) cs pn hs) = false).
    { destruct (gostr.drop (gostr.lcp p s) s) as [| x d] eqn:Hd.
      - specialize (Hpar eq_refl Hs).
        destruct t; simpl in *; try congruence;
          apply bool_decide_eq_false; discriminate.
      - rewrite (Hlit ltac:(discriminate)). simpl.
        unfold router.label_matches. simpl.
        pose proof (lcp_diverge p s) as Hdiv. rewrite Hd in Hdiv.
        simpl in Hdiv. rewrite Hdiv.
        first [reflexivity | apply andb_false_r]. }
    rewrite (descend_skip _ _ _ _ _ _ _ Hold).
    pose proof (descend_branch t ts' names m h names' m' h') as Hb.
    destruct (descend t ts' names' m' h' [router.branch t ts' names m h]);
      [eauto | contradiction | eauto].
  - (* the prefix was matched in full *)
    assert (Hagain :
              forall kids hs0,
                router.insert (router.Node k p kids pn hs0) s ts names' m' h'
                = match router.remaining l s ts with
                  | [] => Some (router.Node k p kids pn (<[ m' := h' ]> hs0))
                  | t :: ts' =>
                      match descend t ts' names' m' h' kids with
                      | router.NoChild =>
                          Some (router.Node k p
                                  (kids ++ [router.branch t ts' names' m' h'])
                                  pn hs0)
                      | router.Fatal => None
                      | router.Updated cs' => Some (router.Node k p cs' pn hs0)
                      end
                  end).
    { intros kids hs0. rewrite insert_unfold. cbv zeta. fold l.
      rewrite Hsplit. reflexivity. }
    destruct (router.remaining l s ts) as [| t ts'] eqn:Hrem.
    { injection Hins as <-. rewrite Hagain. try rewrite Hrem. eauto. }
    destruct (remaining_next _ _ _ _ _ Halt Hrem) as (Hnext & _ & _).
    destruct (descend t ts' names m h cs) as [| | cs'] eqn:Hd;
      [| discriminate |]; injection Hins as <-; rewrite Hagain;
      try rewrite Hrem.
    + assert (Hd' : descend t ts' names' m' h' cs = router.NoChild).
      { apply descend_NoChild. now apply descend_NoChild in Hd. }
      rewrite (descend_app _ _ _ _ _ _ _ Hd').
      pose proof (descend_branch t ts' names m h names' m' h') as Hb.
      destruct (descend t ts' names' m' h' [router.branch t ts' names m h]);
        [eauto | contradiction | eauto].
    + destruct (descend_again t ts' cs IH Hnext _ _ _ _ Hd names' m' h')
        as [cs'' ->].
      eauto.
Qed.

(** Whether an insertion is accepted does not depend on the names, the
    method or the handler it carries. *)
Lemma insert_accepts_any : forall n s ts names m h names' m' h',
    is_Some (router.insert n s ts names m h) ->
    is_Some (router.insert n s ts names' m' h').
Proof.
  intros n. induction n as [k p cs pn hs IH] using node_induction.
  intros s ts names m h names' m' h'. rewrite !insert_unfold. cbv zeta.
  destruct (bool_decide (k = router.skind) && _); [eauto |].
  destruct (router.remaining _ s ts) as [| t ts']; [eauto |].
  assert (Hd : descend t ts' names m h cs <> router.Fatal ->
               descend t ts' names' m' h' cs <> router.Fatal).
  { clear -IH. induction cs as [| c cs IHcs]; simpl; [auto |].
    inversion IH as [| ? ? Hc Hcs]; subst.
    destruct (router.selects _ _ c).
    - destruct (router.conflicts t c); [auto |].
      destruct (router.insert c _ ts' (names ++ _)%list m h) eqn:H1.
      + destruct (Hc (router.seg_text t) ts'
                    (names ++ router.seg_names t)%list m h
                    (names' ++ router.seg_names t)%list m' h') as [c' ->];
          [rewrite H1; eauto | discriminate].
      + congruence.
    - specialize (IHcs Hcs).
      destruct (descend t ts' names m h cs);
        destruct (descend t ts' names' m' h' cs); auto; try discriminate;
        try (intros _; exfalso; apply IHcs; [discriminate | reflexivity]). }
  destruct (descend t ts' names m h cs);
    destruct (descend t ts' names' m' h' cs); eauto;
    try (intros [? ?]; discriminate);
    intros _; exfalso; apply Hd; (discriminate || reflexivity).
Qed.

(** ** Patterns *)

Lemma flush_alternating (text : string) (ts : list router.segment) :
  alternating (negb (gostr.is_empty text)) ts ->
  alternating false (router.flush text ++ ts)%list.
Proof.
  destruct text as [| c text]; simpl; [tauto |].
  intros H. repeat split; [discriminate | exact H].
Qed.

Lemma scan_alternating (s : string) :
  (forall text ts,
      router.scan s (router.InLit text) = Some ts -> alternating false ts)
  /\ (forall name ts,
         router.scan s (router.InPar name) = Some ts ->
         exists name' ts',
           ts = router.Par name' :: ts' /\ alternating false ts').
Proof.
  induction s as [| c s [IHlit IHpar]]; split.
  - intros text ts H. simpl in H. injection H as <-.
    rewrite <- (app_nil_r (router.flush text)).
    apply flush_alternating. destruct text; exact I.
  - intros name ts H. simpl in H. injection H as <-. exists name, [].
    split; [reflexivity | exact I].
  - intros text ts H. simpl in H.
    destruct (Ascii.eqb c ":").
    + destruct (router.scan s (router.InPar "")) as [ts2 |] eqn:H2;
        [| discriminate].
      simpl in H. injection H as <-.
      destruct (IHpar _ _ H2) as (name' & ts' & -> & Halt).
      apply flush_alternating. destruct text; exact Halt.
    + destruct (Ascii.eqb c "*").
      * destruct (gostr.is_empty s); [| discriminate]. injection H as <-.
        apply flush_alternating. destruct text; exact I.
      * eapply IHlit. exact H.
  - intros name ts H. simpl in H.
    destruct (Ascii.eqb c "/").
    + destruct (router.scan s (router.InLit "/")) as [ts2 |] eqn:H2;
        [| discriminate].
      simpl in H. injection H as <-. exists name, ts2.
      split; [reflexivity | eapply IHlit; exact H2].
    + eapply IHpar. exact H.
Qed.

Lemma segments_alternating (pattern : string) (ts : list router.segment) :
  router.segments pattern = Some ts -> alternating false ts.
Proof. apply scan_alternating. Qed.

(** ** Akita.Add *)

Section AddFacts.

Variable handlerName : HandlerFunc -> string.

(** [Add] spelled out: the segments of the path, the insertion from the
    root, the record and its key. *)
Lemma Add_inv m p h mw a r a' :
  Add handlerName m p h mw a = Some (r, a') ->
  exists ts t,
    router.segments p = Some ts /\
    router.insert (router.tree (router a)) "" ts [] m (AddClosure h mw)
    = Some t /\
    r = {| Method := m; Path := p; Name := handlerName h |} /\
    a' = {| Debug := Debug a;
            maxParam := Nat.max (maxParam a) (router.count_params ts);
            router := {| router.tree := t;
                         router.routes :=
                           <[ m +:+ p := r ]> (router.routes (router a)) |}
         |}.
Proof.
  unfold Add, router.Add. intros H.
  destruct (router.segments p) as [ts |]; [| discriminate].
  simpl in H.
  destruct (router.insert (router.tree (router a)) "" ts [] m
              (AddClosure h mw)) as [t |] eqn:Hi; [| discriminate].
  simpl in H. injection H as <- <-. exists ts, t. auto.
Qed.

Lemma Add_intro m p h mw a ts t :
  router.segments p = Some ts ->
  router.insert (router.tree (router a)) "" ts [] m (AddClosure h mw)
  = Some t ->
  Add handlerName m p h mw a =
  Some ({| Method := m; Path := p; Name := handlerName h |},
        {| Debug := Debug a;
           maxParam := Nat.max (maxParam a) (router.count_params ts);
           router := {| router.tree := t;
                        router.routes :=
                          <[ m +:+ p :=
                               {| Method := m; Path := p;
                                  Name := handlerName h |} ]>
                            (router.routes (router a)) |} |}).
Proof.
  intros Hs Hi. unfold Add, router.Add. rewrite Hs. simpl. rewrite Hi.
  reflexivity.
Qed.

Lemma Add_well_rooted m p h mw a r a' :
  well_rooted a -> Add handlerName m p h mw a = Some (r, a') ->
  well_rooted a'.
Proof.
  intros [Hk Hp] H. destruct (Add_inv _ _ _ _ _ _ _ H)
    as (ts & t & _ & Hi & _ & ->).
  destruct (insert_shape _ _ _ _ _ _ _ Hi) as (Hk' & _ & _ & Hp').
  split; simpl; [congruence | auto].
Qed.

Lemma registered_well_rooted a : registered handlerName a -> well_rooted a.
Proof.
  induction 1 as [| a b _ IH | a m p h mw r a' _ IH HA].
  - split; reflexivity.
  - exact IH.
  - eapply Add_well_rooted; eassumption.
Qed.

(** Acceptance of a path does not depend on the method, the handler or
    the middleware. *)
Lemma Add_accepts_any m p h mw m' h' mw' a :
  is_Some (Add handlerName m p h mw a) ->
  is_Some (Add handlerName m' p h' mw' a).
Proof.
  intros [[r a'] H]. destruct (Add_inv _ _ _ _ _ _ _ H)
    as (ts & t & Hs & Hi & _).
  destruct (insert_accepts_any (router.tree (router a)) "" ts [] m
              (AddClosure h mw) [] m' (AddClosure h' mw'))
    as [t' Hi']; [rewrite Hi; eauto |].
  rewrite (Add_intro _ _ _ _ _ _ _ Hs Hi'). eauto.
Qed.

(** A path that was accepted is accepted again afterwards. *)
Lemma Add_again m p h mw a r a' m' h' mw' :
  well_rooted a -> Add handlerName m p h mw a = Some (r, a') ->
  is_Some (Add handlerName m' p h' mw' a').
Proof.
  intros [Hk Hp] H. destruct (Add_inv _ _ _ _ _ _ _ H)
    as (ts & t & Hs & Hi & _ & ->).
  assert (Hth : threads (router.tree (router a)) "" ts).
  { split; [simpl; now apply segments_alternating with (pattern := p) |].
    intros _ _. exact Hp. }
  destruct (insert_again _ _ _ _ _ _ _ Hth Hi [] m' (AddClosure h' mw'))
    as [t' Hi'].
  erewrite Add_intro; [eauto | exact Hs | exact Hi'].
Qed.

Lemma add_each_in_turn p h mw :
  forall ms a acc,
    well_rooted a ->
    (forall m, head ms = Some m -> is_Some (Add handlerName m p h mw a)) ->
    exists rs a',
      add_each handlerName ms p h mw acc a = Some ((acc ++ rs)%list, a') /\
      added_in_turn handlerName p h mw ms a rs a' /\
      rs = map (fun m => {| Method := m; Path := p;
                            Name := handlerName h |}) ms.
Proof.
  induction ms as [| m ms IH]; intros a acc Hwr Hacc.
  - exists [], a. simpl. rewrite app_nil_r.
    repeat split. constructor.
  - destruct (Hacc m eq_refl) as [[r a1] HA].
    pose proof (Add_well_rooted _ _ _ _ _ _ _ Hwr HA) as Hwr1.
    destruct (IH a1 (acc ++ [r])%list Hwr1) as (rs & a' & He & Ht & Hrs).
    { intros m' _. exact (Add_again _ _ _ _ _ _ _ _ _ _ Hwr HA). }
    exists (r :: rs), a'. simpl. rewrite HA. simpl.
    rewrite He, <- app_assoc. simpl.
    repeat split.
    + econstructor; eassumption.
    + destruct (Add_inv _ _ _ _ _ _ _ HA) as (_ & _ & _ & _ & -> & _).
      now rewrite Hrs.
Qed.

End AddFacts.

(** C3 (as stated, refuted). Not every registration succeeds: once
    [/users/:id] is registered, adding [/users/:name] meets a parameter of
    another name at the same position of the trie and is rejected by the
    router, so neither of the two calls returns. *)
Lemma Add_rejects_other_name :
  ~ (forall (handlerName : HandlerFunc -> string) (a : Akita) (m p : string)
            (h1 h2 : HandlerFunc) (mw : list MiddlewareFunc),
        registered handlerName a ->
        exists r1 a1 r2 a2,
          Add handlerName m p h1 mw a = Some (r1, a1) /\
          Add handlerName m p h2 mw a1 = Some (r2, a2)).
Proof.
  intros H.
  destruct (Add func_name GET "/users/:id" (Func 1) [] New)
    as [[r a] |] eqn:Ha; [| vm_compute in Ha; discriminate].
  assert (Hreg : registered func_name a)
    by (eapply registered_Add; [apply registered_New | exact Ha]).
  destruct (H func_name a GET "/users/:name" (Func 2) (Func 3) [] Hreg)
    as (r1 & a1 & _ & _ & H1 & _).
  vm_compute in Ha. injection Ha as <- <-.
  vm_compute in H1. discriminate.
Qed.

(** C3 (amended). On an instance built by registration, when
    [Add(m, p, h1)] is accepted, [Add(m, p, h2)] after it is accepted too,
    and the route records are then what [Add(m, p, h2)] alone leaves: one
    record under the key [m+p], describing the last registration, and no
    record more than after the first call. *)
Theorem Add_twice_last_write_wins (handlerName : HandlerFunc -> string)
    (a : Akita) (m p : string) (h1 h2 : HandlerFunc)
    (mw1 mw2 : list MiddlewareFunc) (r1 : Route) (a1 : Akita) :
  registered handlerName a ->
  Add handlerName m p h1 mw1 a = Some (r1, a1) ->
  exists a2 a2',
    Add handlerName m p h2 mw2 a1
    = Some ({| Method := m; Path := p; Name := handlerName h2 |}, a2) /\
    Add handlerName m p h2 mw2 a
    = Some ({| Method := m; Path := p; Name := handlerName h2 |}, a2') /\
    router.routes (router a2) = router.routes (router a2') /\
    router.routes (router a2) !! (m +:+ p)
    = Some {| Method := m; Path := p; Name := handlerName h2 |} /\
    size (router.routes (router a2)) = size (router.routes (router a1)).
Proof.
  intros Hreg H1.
  pose proof (registered_well_rooted _ _ Hreg) as Hwr.
  destruct (Add_again handlerName _ _ _ _ _ _ _ m h2 mw2 Hwr H1)
    as [[r2 a2] H2].
  destruct (Add_accepts_any handlerName m p h1 mw1 m h2 mw2 a)
    as [[r2' a2'] H2']; [rewrite H1; eauto |].
  destruct (Add_inv _ _ _ _ _ _ _ _ H1) as (ts1 & t1 & _ & _ & -> & ->).
  destruct (Add_inv _ _ _ _ _ _ _ _ H2) as (ts2 & t2 & _ & _ & -> & E2).
  destruct (Add_inv _ _ _ _ _ _ _ _ H2') as (ts3 & t3 & _ & _ & -> & E3).
  exists a2, a2'. split; [exact H2 |]. split; [exact H2' |].
  subst a2 a2'. simpl. rewrite insert_insert_eq.
  split; [reflexivity |]. split; [apply lookup_insert_eq |].
  rewrite !map_size_insert. reflexivity.
Qed.

Lemma Add_twice_last_write_wins_witness :
  exists r1 a1 a2 a2',
    Add func_name GET "/users/:id" (Func 1) [] New = Some (r1, a1) /\
    Add func_name GET "/users/:id" (Func 2) [] a1
    = Some ({| Method := GET; Path := "/users/:id"; Name := "getUser" |}, a2)
    /\ Add func_name GET "/users/:id" (Func 2) [] New
       = Some ({| Method := GET; Path := "/users/:id"; Name := "getUser" |},
               a2')
    /\ router.routes (router a2) = router.routes (router a2').
Proof.
  destruct (Add func_name GET "/users/:id" (Func 1) [] New)
    as [[r1 a1] |] eqn:H1; [| vm_compute in H1; discriminate].
  destruct (Add_twice_last_write_wins func_name New GET "/users/:id"
              (Func 1) (Func 2) [] [] r1 a1 (registered_New _) H1)
    as (a2 & a2' & H2 & H2' & Hr & _).
  exists r1, a1, a2, a2'. auto.
Defined.

(** ** Akita.Any *)

(** C6 (as stated, refuted). [Any] returns nothing for a path that the
    router rejects: with [/users/:id] registered, [Any("/users/:name", h)]
    stops at its first [Add]. *)
Lemma Any_rejects_other_name :
  ~ (forall (handlerName : HandlerFunc -> string) (a : Akita) (p : string)
            (h : HandlerFunc) (mw : list MiddlewareFunc),
        registered handlerName a ->
        exists rs a',
          Any handlerName p h mw a = Some (rs, a') /\ length rs = 9).
Proof.
  intros H.
  destruct (Add func_name GET "/users/:id" (Func 1) [] New)
    as [[r a] |] eqn:Ha; [| vm_compute in Ha; discriminate].
  assert (Hreg : registered func_name a)
    by (eapply registered_Add; [apply registered_New | exact Ha]).
  destruct (H func_name a "/users/:name" (Func 2) [] Hreg)
    as (rs & a' & H1 & _).
  vm_compute in Ha. injection Ha as <- <-.
  vm_compute in H1. discriminate.
Qed.

(** C6 (amended). On an instance built by registration and for a path
    that the router accepts, [Any(p, h)] calls [Add] once for each of
    CONNECT, DELETE, GET, HEAD, OPTIONS, PATCH, POST, PUT, TRACE, in that
    order, and returns the nine records of these calls, each with path [p]
    and its method. *)
Theorem Any_registers_each_method (handlerName : HandlerFunc -> string)
    (a : Akita) (p : string) (h : HandlerFunc) (mw : list MiddlewareFunc) :
  registered handlerName a ->
  is_Some (Add handlerName CONNECT p h mw a) ->
  exists rs a',
    Any handlerName p h mw a = Some (rs, a') /\
    added_in_turn handlerName p h mw
      ["CONNECT"; "DELETE"; "GET"; "HEAD"; "OPTIONS"; "PATCH"; "POST"; "PUT";
       "TRACE"] a rs a' /\
    length rs = 9 /\
    map Method rs = methods /\
    Forall (fun r => Path r = p) rs /\
    rs = map (fun m => {| Method := m; Path := p; Name := handlerName h |})
           methods.
Proof.
  intros Hreg Hacc.
  pose proof (registered_well_rooted _ _ Hreg) as Hwr.
  destruct (add_each_in_turn handlerName p h mw methods a [] Hwr)
    as (rs & a' & He & Ht & Hrs).
  { intros m Hm. injection Hm as <-. exact Hacc. }
  exists rs, a'. unfold Any. rewrite He. simpl.
  split; [reflexivity |]. split; [exact Ht |].
  subst rs. repeat split. repeat constructor.
Qed.

Lemma Any_registers_each_method_witness :
  exists rs a',
    Any func_name "/users/:id" (Func 2) [] New = Some (rs, a') /\
    length rs = 9 /\
    map Method rs = methods.
Proof.
  destruct (Any_registers_each_method func_name New "/users/:id" (Func 2) []
              (registered_New _))
    as (rs & a' & He & _ & Hl & Hm & _).
  - vm_compute. eauto.
  - exists rs, a'. auto.
Defined.

(** ** context.Get and context.Set *)

Lemma index_assign (m : Map) (key : string) (val : iface) :
  index (assign m key val) key = val.
Proof.
  induction m as [| [k v] m IH]; simpl.
  - now rewrite String.eqb_refl.
  - destruct (String.eqb k key) eqn:E; simpl; rewrite E; auto.
Qed.

Lemma index_assign_ne (m : Map) (key key' : string) (val : iface) :
  key' <> key -> index (assign m key val) key' = index m key'.
Proof.
  intros Hne. induction m as [| [k v] m IH]; simpl.
  - apply String.eqb_neq in Hne. rewrite String.eqb_sym in Hne.
    now rewrite Hne.
  - destruct (String.eqb k key) eqn:E; simpl.
    + apply String.eqb_eq in E. subst k.
      apply String.eqb_neq in Hne. rewrite String.eqb_sym in Hne.
      now rewrite Hne.
    + now rewrite IH.
Qed.

(** X1. A value saved with [Set] is what [Get] returns for its key, on
    every context, one whose store is still nil included; the other keys
    answer as before; and after [Reset] no key answers any more. *)
Theorem Set_then_Get (ResponseWriter Response : Type)
    (reset : Response -> ResponseWriter -> Response)
    (ctx : context Response) (key : string) (val : iface) :
  Get (Set_ ctx key val) key = val /\
  (forall key', key' <> key -> Get (Set_ ctx key val) key' = Get ctx key') /\
  (forall r w key', Get (Reset reset (Set_ ctx key val) r w) key' = INil) /\
  (forall r w, Get (Set_ (Reset reset ctx r w) key val) key = val).
Proof.
  unfold Get, Set_. simpl. split; [apply index_assign |].
  split; [| split; [reflexivity | intros; now rewrite String.eqb_refl]].
  intros key' Hne. rewrite index_assign_ne by assumption.
  destruct (store ctx); reflexivity.
Qed.

(** ** context.QueryParams *)

(** X2. The query is parsed once: the first [QueryParams] stores the
    parsed query of the request in the context; from then on [QueryParam]
    answers from the stored query, also after [SetRequest] has put another
    request (or none) in the context, and only [Reset] makes it parse
    again. *)
Theorem QueryParams_cached {net : HTTPRequest} (ResponseWriter Response : Type)
    (reset : Response -> ResponseWriter -> Response)
    (ctx : context Response) (r1 : Request) :
  request ctx = Some r1 -> query ctx = None ->
  exists ctx1,
    QueryParams ctx = Some (ctx1, URL_Query r1) /\
    query ctx1 = Some (URL_Query r1) /\
    (forall r2 name,
        QueryParam (SetRequest ctx1 r2) name
        = Some (SetRequest ctx1 r2, Values_Get (URL_Query r1) name)) /\
    (forall r2 w name,
        exists ctx2,
          QueryParam (Reset reset ctx1 (Some r2) w) name
          = Some (ctx2, Values_Get (URL_Query r2) name)).
Proof.
  intros Hr Hq. unfold QueryParams. rewrite Hq, Hr. simpl.
  eexists. split; [reflexivity |]. split; [reflexivity |].
  split.
  - intros r2 name. reflexivity.
  - intros r2 w name. eexists. reflexivity.
Qed.

Lemma QueryParams_cached_witness :
  exists ctx1,
    QueryParams
      (net := plain_http "liusha.me" [("a", ["1"])]
                (fun _ => ""))
      (recording (arriving GET "/" "a=1"))
    = Some (ctx1, [("a", ["1"])]) /\
    query ctx1 = Some [("a", ["1"])].
Proof.
  destruct (QueryParams_cached
              (net := plain_http "liusha.me" [("a", ["1"])]
                        (fun _ => ""))
              unit Recorder (fun w _ => w)
              (recording (arriving GET "/" "a=1"))
              (arriving GET "/" "a=1")
              eq_refl eq_refl) as (ctx1 & H1 & H2 & _).
  exists ctx1. split; assumption.
Defined.

(** ** context.Scheme *)

(** X3. [Scheme] never returns the empty string: on a request it returns
    [https] when the connection is TLS, whatever the headers say, the
    first of the forwarding headers that is set otherwise, and [http] when
    none is; on a nil request it panics. *)
Theorem Scheme_never_empty {net : HTTPRequest} (Response : Type)
    (ctx : context Response) :
  match request ctx with
  | None => Scheme ctx = None
  | Some r =>
      exists s,
        Scheme ctx = Some s /\ s <> "" /\
        (TLS r = true -> s = "https") /\
        (TLS r = false ->
         s = "http" \/ s = "https" \/
         exists name,
           In name [HeaderXForwardedProto; HeaderXForwardedProtocol;
                    HeaderXUrlScheme] /\
           s = Header_Get r name)
  end.
Proof.
  unfold Scheme, IsTLS. destruct (request ctx) as [r |]; [| reflexivity].
  simpl. destruct (TLS r) eqn:Etls.
  - exists "https". repeat split; discriminate.
  - repeat
      match goal with
      | |- context [String.eqb ?a ?b] =>
          let E := fresh "E" in
          destruct (String.eqb a b) eqn:E; simpl;
          [apply String.eqb_eq in E | apply String.eqb_neq in E]
      end;
      eexists; (split; [reflexivity |]);
      (split; [assumption || discriminate |]);
      (split; [discriminate |]); intros _;
      first [ left; reflexivity
            | right; left; reflexivity
            | right; right; eexists; split; [| reflexivity]; simpl; tauto ].
Qed.

(** ** Slices of strings *)

Lemma length_append (a b : string) :
  String.length (a +:+ b) = String.length a + String.length b.
Proof.
  induction a as [| x a IH]; [reflexivity |].
  rewrite append_cons. simpl. now rewrite IH.
Qed.

Lemma take_append (a b : string) : gostr.take (String.length a) (a +:+ b) = a.
Proof.
  induction a as [| x a IH]; [destruct b; reflexivity |].
  rewrite append_cons. simpl. now rewrite IH.
Qed.

Lemma drop_append (a b : string) : gostr.drop (String.length a) (a +:+ b) = b.
Proof.
  induction a as [| x a IH]; [destruct b; reflexivity |].
  rewrite append_cons. simpl. exact IH.
Qed.

Lemma slice_to_short (s : string) (n : nat) :
  String.length s < n -> slice_to s n = None.
Proof.
  intros Hn. unfold slice_to.
  destruct (decide (n <= String.length s)); [lia | reflexivity].
Qed.

Lemma slice_to_within (s : string) (n : nat) :
  n <= String.length s -> slice_to s n = Some (gostr.take n s).
Proof.
  intros Hn. unfold slice_to.
  destruct (decide (n <= String.length s)); [reflexivity | lia].
Qed.

(** ** Package middleware: redirect.go *)

Section RedirectFacts.

Context {Response : Type} {net : HTTPRequest} {out : HTTPResponse Response}.

Lemma defaults_skips (config : middleware.redirect.RedirectConfig Response)
    (c : context Response) :
  (forall skipper, middleware.redirect.Skipper config = Some skipper ->
                   skipper c = false) ->
  middleware.redirect.skips (middleware.redirect.defaults config) c = false.
Proof.
  intros Hs. unfold middleware.redirect.skips, middleware.redirect.defaults.
  destruct (middleware.redirect.Skipper config) as [skipper |] eqn:E; simpl;
    destruct (_ =? 0)%Z; simpl; try rewrite E; auto.
Qed.

Lemma defaults_Code (config : middleware.redirect.RedirectConfig Response) :
  middleware.redirect.Code (middleware.redirect.defaults config)
  = if (middleware.redirect.Code config =? 0)%Z then StatusMovedPermanently
    else middleware.redirect.Code config.
Proof.
  unfold middleware.redirect.defaults.
  destruct (middleware.redirect.Skipper config); simpl;
    destruct (_ =? 0)%Z eqn:E; simpl; reflexivity.
Qed.

Lemma Redirect_in_range (c : context Response) (code : Z) (url : string) :
  (300 <= code <= 308)%Z ->
  Redirect c code url
  = (responded c
       (Response_WriteHeader (Header_Set (response c) HeaderLocation url)
          code),
     nil_error).
Proof.
  intros Hc. unfold Redirect.
  destruct (code <? 300)%Z eqn:E1; [lia |].
  destruct (308 <? code)%Z eqn:E2; [lia | reflexivity].
Qed.

Lemma Redirect_out_of_range (c : context Response) (code : Z)
    (url : string) :
  ~ (300 <= code <= 308)%Z ->
  Redirect c code url = (c, ErrInvalidRedirectCode).
Proof.
  intros Hc. unfold Redirect.
  destruct (code <? 300)%Z eqn:E1; [reflexivity |].
  destruct (308 <? code)%Z eqn:E2; [reflexivity | lia].
Qed.

(** X4. [HTTPSRedirectWithConfig], when its skipper does not skip the
    request: a request over TLS goes to [next] with the context untouched
    and is never redirected; any other request is answered without [next]:
    with a [Location] of [https://] followed by the host and the request
    URI and status 301 when the config leaves [Code] at zero, with the
    configured status when that is one of 300..308, and with
    [ErrInvalidRedirectCode] and an untouched response for any other
    [Code]. *)
Theorem HTTPSRedirect_plain_http_only
    (config : middleware.redirect.RedirectConfig Response)
    (next : action Response) (c : context Response) (r : Request) :
  request c = Some r ->
  (forall skipper, middleware.redirect.Skipper config = Some skipper ->
                   skipper c = false) ->
  let url := "https://" +:+ Host r +:+ RequestURI r in
  let code := middleware.redirect.Code config in
  (TLS r = true ->
   middleware.redirect.HTTPSRedirectWithConfig config next c = next c)
  /\ (TLS r = false -> code = 0%Z ->
      middleware.redirect.HTTPSRedirectWithConfig config next c
      = Some (responded c
                (Response_WriteHeader
                   (Header_Set (response c) HeaderLocation url) 301),
              nil_error))
  /\ (TLS r = false -> (300 <= code <= 308)%Z ->
      middleware.redirect.HTTPSRedirectWithConfig config next c
      = Some (responded c
                (Response_WriteHeader
                   (Header_Set (response c) HeaderLocation url) code),
              nil_error))
  /\ (TLS r = false -> code <> 0%Z -> ~ (300 <= code <= 308)%Z ->
      middleware.redirect.HTTPSRedirectWithConfig config next c
      = Some (c, ErrInvalidRedirectCode)).
Proof.
  intros Hr Hs url code.
  unfold middleware.redirect.HTTPSRedirectWithConfig.
  rewrite (defaults_skips _ _ Hs), Hr. unfold IsTLS. rewrite Hr. simpl.
  rewrite defaults_Code. fold code. fold url.
  repeat split; intros Htls; rewrite Htls; simpl; try reflexivity.
  - intros ->. simpl.
    now rewrite Redirect_in_range by (unfold StatusMovedPermanently; lia).
  - intros Hc. destruct (code =? 0)%Z eqn:E; [lia |].
    now rewrite Redirect_in_range.
  - intros Hz Hc. destruct (code =? 0)%Z eqn:E; [lia |].
    now rewrite Redirect_out_of_range.
Qed.

End RedirectFacts.

Lemma HTTPSRedirect_plain_http_only_witness :
  middleware.redirect.HTTPSRedirect
    (net := plain_http "liusha.me" [] (fun _ => ""))
    (out := Recorder_response) proceed
    (recording (arriving GET "/docs" "x=1"))
  = Some (responded
            (recording (arriving GET "/docs" "x=1"))
            {| Status := 301;
               HeaderMap := [("Location", "https://liusha.me/docs?x=1")] |},
          nil_error).
Proof.
  destruct (HTTPSRedirect_plain_http_only
              (net := plain_http "liusha.me" [] (fun _ => ""))
              (out := Recorder_response)
              middleware.redirect.DefaultRedirectConfig proceed
              (recording (arriving GET "/docs" "x=1"))
              (arriving GET "/docs" "x=1")
              eq_refl) as (_ & _ & H3 & _).
  - intros skipper Hsk. injection Hsk as <-. reflexivity.
  - apply H3; [reflexivity | simpl; unfold StatusMovedPermanently; lia].
Defined.

Section RedirectHosts.

Context {Response : Type} {net : HTTPRequest} {out : HTTPResponse Response}.

Lemma Scheme_on_request (c : context Response) (r : Request) :
  request c = Some r -> is_Some (Scheme c).
Proof.
  intros Hr. unfold Scheme, IsTLS. rewrite Hr. simpl.
  destruct (TLS r); [eauto |].
  repeat match goal with
         | |- context [if ?b then _ else _] => destruct b
         end; eauto.
Qed.

(** X5. The host that [WWWRedirectWithConfig] sends a client to is the
    host that [NonWWWRedirectWithConfig] sends it back from.  A host [h]
    of three bytes or more that does not begin with [www] is redirected to
    [www.h]; a host that begins with [www] is redirected to what follows
    its fourth byte, whatever that byte is (so [www.h] goes back to [h]);
    every other request goes to [next] untouched. *)
Theorem WWWRedirect_NonWWWRedirect_hosts
    (config : middleware.redirect.RedirectConfig Response)
    (next : action Response)
    (c : context Response) (r : Request) :
  request c = Some r ->
  (forall skipper, middleware.redirect.Skipper config = Some skipper ->
                   skipper c = false) ->
  exists scheme,
    Scheme c = Some scheme /\
    let code :=
      middleware.redirect.Code (middleware.redirect.defaults config) in
    (forall h,
        Host r = h -> 3 <= String.length h -> gostr.take 3 h <> "www" ->
        middleware.redirect.WWWRedirectWithConfig config next c
        = Some (Redirect c code
                  (scheme +:+ "://www." +:+ h +:+ RequestURI r))
        /\ middleware.redirect.NonWWWRedirectWithConfig config next c = next c)
    /\ (forall x h,
           Host r = String "w" (String "w" (String "w" (String x h))) ->
           middleware.redirect.NonWWWRedirectWithConfig config next c
           = Some (Redirect c code (scheme +:+ "://" +:+ h +:+ RequestURI r))
           /\ middleware.redirect.WWWRedirectWithConfig config next c = next c).
Proof.
  intros Hr Hs. destruct (Scheme_on_request c r Hr) as [scheme Hsch].
  exists scheme. split; [assumption |]. intros code.
  unfold middleware.redirect.WWWRedirectWithConfig,
    middleware.redirect.NonWWWRedirectWithConfig.
  rewrite (defaults_skips _ _ Hs), Hr, Hsch. simpl. fold code.
  split.
  - intros h -> Hlen Hwww.
    rewrite slice_to_within by assumption. simpl.
    apply String.eqb_neq in Hwww. unfold middleware.redirect.www.
    rewrite Hwww. simpl. split; reflexivity.
  - intros x h ->. split; reflexivity.
Qed.

(** X6. The redirects that look for [www] slice the first three bytes
    of the host without looking at its length: for a host shorter than
    three bytes (an HTTP/1.0 request without [Host] has an empty one)
    [WWWRedirect] and [NonWWWRedirect] panic, and so do their HTTPS
    variants on a connection without TLS; [NonWWWRedirect] also panics on
    the host [www] itself, slicing from its fifth byte on. *)
Theorem redirect_short_host_panics
    (config : middleware.redirect.RedirectConfig Response)
    (next : action Response)
    (c : context Response) (r : Request) :
  request c = Some r ->
  (forall skipper, middleware.redirect.Skipper config = Some skipper ->
                   skipper c = false) ->
  (String.length (Host r) < 3 ->
   middleware.redirect.WWWRedirectWithConfig config next c = None /\
   middleware.redirect.NonWWWRedirectWithConfig config next c = None /\
   (TLS r = false ->
    middleware.redirect.HTTPSWWWRedirectWithConfig config next c = None /\
    middleware.redirect.HTTPSNonWWWRedirectWithConfig config next c = None) /\
   (TLS r = true ->
    middleware.redirect.HTTPSWWWRedirectWithConfig config next c = next c /\
    middleware.redirect.HTTPSNonWWWRedirectWithConfig config next c = next c))
  /\ (Host r = "www" ->
      middleware.redirect.NonWWWRedirectWithConfig config next c = None /\
      (TLS r = false ->
       middleware.redirect.HTTPSNonWWWRedirectWithConfig config next c = None)).
Proof.
  intros Hr Hs. destruct (Scheme_on_request c r Hr) as [scheme Hsch].
  unfold middleware.redirect.WWWRedirectWithConfig,
    middleware.redirect.NonWWWRedirectWithConfig,
    middleware.redirect.HTTPSWWWRedirectWithConfig,
    middleware.redirect.HTTPSNonWWWRedirectWithConfig.
  rewrite (defaults_skips _ _ Hs), Hr, Hsch. unfold IsTLS. rewrite Hr.
  simpl. split.
  - intros Hlen. rewrite (slice_to_short _ _ Hlen). simpl.
    split; [reflexivity |]. split; [reflexivity |].
    split; intros ->; split; reflexivity.
  - intros ->. split; [reflexivity |]. intros ->. reflexivity.
Qed.

End RedirectHosts.

Lemma WWWRedirect_NonWWWRedirect_hosts_witness :
  middleware.redirect.WWWRedirect
    (net := plain_http "liusha.me" [] (fun _ => ""))
    (out := Recorder_response) proceed
    (recording (arriving GET "/docs" ""))
  = Some (responded
            (recording (arriving GET "/docs" ""))
            {| Status := 301;
               HeaderMap := [("Location", "http://www.liusha.me/docs")] |},
          nil_error)
  /\ middleware.redirect.NonWWWRedirect
       (net := plain_http "www.liusha.me" [] (fun _ => ""))
       (out := Recorder_response) proceed
       (recording (arriving GET "/docs" ""))
     = Some (responded
               (recording (arriving GET "/docs" ""))
               {| Status := 301;
                  HeaderMap := [("Location", "http://liusha.me/docs")] |},
             nil_error).
Proof.
  split.
  - destruct (WWWRedirect_NonWWWRedirect_hosts
                (net := plain_http "liusha.me" [] (fun _ => ""))
                (out := Recorder_response)
                middleware.redirect.DefaultRedirectConfig proceed
                (recording (arriving GET "/docs" ""))
                (arriving GET "/docs" "")
                eq_refl) as (scheme & Hsch & H1 & _).
    + intros skipper Hsk. injection Hsk as <-. reflexivity.
    + injection Hsch as <-.
      destruct (H1 "liusha.me" eq_refl) as [E _];
        [simpl; lia | discriminate |].
      unfold middleware.redirect.WWWRedirect. rewrite E. reflexivity.
  - destruct (WWWRedirect_NonWWWRedirect_hosts
                (net := plain_http "www.liusha.me" [] (fun _ => ""))
                (out := Recorder_response)
                middleware.redirect.DefaultRedirectConfig proceed
                (recording (arriving GET "/docs" ""))
                (arriving GET "/docs" "")
                eq_refl) as (scheme & Hsch & _ & H2).
    + intros skipper Hsk. injection Hsk as <-. reflexivity.
    + injection Hsch as <-.
      destruct (H2 "."%char "liusha.me" eq_refl) as [E _].
      unfold middleware.redirect.NonWWWRedirect. rewrite E. reflexivity.
Defined.

Lemma redirect_short_host_panics_witness :
  middleware.redirect.WWWRedirect
    (net := plain_http "" [] (fun _ => "")) (out := Recorder_response)
    proceed (recording (arriving GET "/" ""))
  = None.
Proof.
  destruct (redirect_short_host_panics
              (net := plain_http "" [] (fun _ => ""))
              (out := Recorder_response)
              middleware.redirect.DefaultRedirectConfig proceed
              (recording (arriving GET "/" ""))
              (arriving GET "/" "")
              eq_refl) as [H1 _].
  - intros skipper Hsk. injection Hsk as <-. reflexivity.
  - destruct H1 as [E _]; [simpl; lia | exact E].
Defined.

(** ** Package middleware: slash.go *)

Lemma get_append_length (a : string) (x : ascii) (b : string) :
  String.get (String.length a) (a +:+ String x b) = Some x.
Proof.
  induction a as [| y a IH]; [reflexivity |].
  rewrite append_cons. simpl. exact IH.
Qed.

Lemma last_byte_append (a : string) (x : ascii) :
  last_byte (a +:+ String x "") = Some x.
Proof.
  unfold last_byte. rewrite length_append. simpl.
  replace (String.length a + 1) with (S (String.length a)) by lia.
  apply get_append_length.
Qed.

Lemma append_slash_not_root (a : string) :
  a <> "" -> String.eqb (a +:+ "/") "/" = false.
Proof.
  intros Ha. apply String.eqb_neq. intros E.
  apply (f_equal String.length) in E. rewrite length_append in E.
  destruct a; [congruence | simpl in E; lia].
Qed.

Lemma last_byte_root (p : string) :
  last_byte p <> Some "/"%char -> String.eqb p "/" = false.
Proof.
  intros Hl. apply String.eqb_neq. intros ->. now apply Hl.
Qed.

Lemma last_byte_nonempty (p : string) : p <> "" -> is_Some (last_byte p).
Proof.
  unfold last_byte. destruct p as [| y p]; [congruence |]. intros _. simpl.
  revert y. induction p as [| z p IH]; intros y; [eauto | simpl; apply IH].
Qed.

Section SlashFacts.

Context {Response : Type} {net : HTTPRequest} {out : HTTPResponse Response}.

Lemma SetRequest_same (c : context Response) (r : Request) :
  request c = Some r -> SetRequest c (Some r) = c.
Proof. intros H. destruct c. simpl in H. subst. reflexivity. Qed.

Lemma slash_skips (config : middleware.slash.TrailingSlashConfig Response)
    (c : context Response) :
  (forall skipper, middleware.slash.Skipper config = Some skipper ->
                   skipper c = false) ->
  middleware.slash.skips config c = false.
Proof.
  intros Hs. unfold middleware.slash.skips.
  destruct (middleware.slash.Skipper config); [now apply Hs | reflexivity].
Qed.

(** X7. [AddTrailingSlashWithConfig] reads the last byte of the path
    without looking at its length: on the empty path (a request for a bare
    URL) it panics, where [RemoveTrailingSlashWithConfig] hands the request
    on as it is.  On any other path, when it forwards ([RedirectCode] is
    zero), the request that reaches [next] has a path that ends in [/]:
    the path it came with, with one [/] added when it did not end in one.
    Method and raw path stay as they were, so the routing step of
    [ServeHTTP], which looks at the raw path first, routes a request with a
    raw path as if the middleware had not run.  The raw query stays as it
    was too; and either the request is the one that came, or its
    [RequestURI] is written anew from the new path and the query. *)
Theorem AddTrailingSlash_path
    (config : middleware.slash.TrailingSlashConfig Response)
    (c : context Response) (r : Request) :
  request c = Some r ->
  (forall skipper, middleware.slash.Skipper config = Some skipper ->
                   skipper c = false) ->
  (URLPath r = "" ->
   forall next,
     middleware.slash.AddTrailingSlashWithConfig config next c = None /\
     middleware.slash.RemoveTrailingSlashWithConfig config next c = next c)
  /\ (URLPath r <> "" -> middleware.slash.RedirectCode config = 0%Z ->
      exists r',
        (forall next,
            middleware.slash.AddTrailingSlashWithConfig config next c
            = next (SetRequest c (Some r'))) /\
        last_byte (URLPath r') = Some "/"%char /\
        (URLPath r' = URLPath r \/ URLPath r' = URLPath r +:+ "/") /\
        ReqMethod r' = ReqMethod r /\ URLRawPath r' = URLRawPath r /\
        (URLRawPath r <> "" ->
         forall (a : Akita) (ctx : context Response),
           route Response a r' ctx = route Response a r ctx) /\
        RawQuery r' = RawQuery r /\
        (r' = r \/ RequestURI r' = uri_of (URLPath r') (RawQuery r))).
Proof.
  intros Hr Hs.
  unfold middleware.slash.AddTrailingSlashWithConfig,
    middleware.slash.RemoveTrailingSlashWithConfig, QueryString.
  rewrite (slash_skips _ _ Hs), Hr. simpl. split.
  - intros -> next. split; reflexivity.
  - intros Hne Hz. rewrite Hz. simpl.
    destruct (String.eqb (URLPath r) "/") eqn:Eroot; simpl.
    + apply String.eqb_eq in Eroot. exists r.
      split; [intros next; now rewrite SetRequest_same |].
      rewrite Eroot. repeat split; auto.
    + destruct (last_byte_nonempty _ Hne) as [x El]. rewrite El. simpl.
      destruct (Ascii.eqb x "/") eqn:Ex; simpl.
      * apply Ascii.eqb_eq in Ex. subst x. exists r.
        split; [intros next; now rewrite SetRequest_same |].
        repeat split; auto.
      * exists (middleware.slash.forwarded r
                  (if negb (String.eqb (RawQuery r) "")
                   then (URLPath r +:+ "/") +:+ "?" +:+ RawQuery r
                   else URLPath r +:+ "/")
                  (URLPath r +:+ "/")).
        split; [reflexivity |]. simpl.
        split; [apply last_byte_append |].
        split; [now right |].
        split; [reflexivity |]. split; [reflexivity |].
        split; [| split; [reflexivity | now right]].
        intros Hraw a ctx. unfold route. simpl.
        apply String.eqb_neq in Hraw. now rewrite Hraw.
Qed.

(** X8. Adding a trailing slash and removing it again, both
    middleware forwarding, gives back the path but not always the request
    URI.  On a path that is not empty and does not end in [/],
    [RemoveTrailingSlash] run after [AddTrailingSlash] hands [next] the
    request with its method, path, raw path and raw query as they came
    and with [RequestURI] written anew: the path, then [?] and the query
    when there is one.  On a path [q/] with [q] of that kind,
    [AddTrailingSlash] run after [RemoveTrailingSlash] does the same.  So
    [next] sees the request as it came exactly when its [RequestURI] had
    that form already; a [RequestURI] with an escape in it ([/a%20b] for
    the path [/a b]) comes out decoded. *)
Theorem RemoveTrailingSlash_after_Add
    (add remove : middleware.slash.TrailingSlashConfig Response)
    (next : action Response) (c : context Response) (r : Request) :
  request c = Some r ->
  (forall skipper c', middleware.slash.Skipper add = Some skipper ->
                      skipper c' = false) ->
  (forall skipper c', middleware.slash.Skipper remove = Some skipper ->
                      skipper c' = false) ->
  middleware.slash.RedirectCode add = 0%Z ->
  middleware.slash.RedirectCode remove = 0%Z ->
  (URLPath r <> "" -> last_byte (URLPath r) <> Some "/"%char ->
   middleware.slash.AddTrailingSlashWithConfig add
     (middleware.slash.RemoveTrailingSlashWithConfig remove next) c
   = next (SetRequest c (Some (rewritten r))))
  /\ (forall q,
         URLPath r = q +:+ "/" -> q <> "" -> last_byte q <> Some "/"%char ->
         middleware.slash.RemoveTrailingSlashWithConfig remove
           (middleware.slash.AddTrailingSlashWithConfig add next) c
         = next (SetRequest c (Some (rewritten r))))
  /\ (SetRequest c (Some (rewritten r)) = c
      <-> RequestURI r = uri_of (URLPath r) (RawQuery r)).
Proof.
  intros Hr Hsa Hsr Hza Hzr.
  assert (Hback : forall p uri,
             SetRequest
               (SetRequest c (Some (middleware.slash.forwarded r uri p)))
               (Some (middleware.slash.forwarded
                        (middleware.slash.forwarded r uri p)
                        (uri_of (URLPath r) (RawQuery r))
                        (URLPath r)))
             = SetRequest c (Some (rewritten r))).
  { intros p uri. destruct c, r. reflexivity. }
  split; [| split].
  - intros Hne Hl.
    unfold middleware.slash.AddTrailingSlashWithConfig at 1. unfold QueryString.
    rewrite slash_skips by (intros; eapply Hsa; eassumption).
    rewrite Hr. simpl. rewrite (last_byte_root _ Hl). simpl.
    destruct (last_byte_nonempty _ Hne) as [x El]. rewrite El. simpl.
    destruct (Ascii.eqb x "/") eqn:Ex;
      [apply Ascii.eqb_eq in Ex; subst x; congruence |].
    simpl. rewrite Hza. simpl.
    unfold middleware.slash.RemoveTrailingSlashWithConfig, QueryString.
    rewrite slash_skips by (intros; eapply Hsr; eassumption).
    simpl. rewrite length_append. simpl.
    replace (String.length (URLPath r) + 1)
      with (S (String.length (URLPath r))) by lia.
    rewrite (append_slash_not_root _ Hne). simpl.
    rewrite get_append_length. simpl. rewrite Hzr. simpl.
    rewrite take_append. fold (uri_of (URLPath r) (RawQuery r)).
    now rewrite Hback.
  - intros q Hq Hne Hl.
    unfold middleware.slash.RemoveTrailingSlashWithConfig at 1.
    unfold QueryString.
    rewrite slash_skips by (intros; eapply Hsr; eassumption).
    rewrite Hr. simpl. rewrite Hq, length_append. simpl.
    replace (String.length q + 1) with (S (String.length q)) by lia.
    rewrite (append_slash_not_root _ Hne). simpl.
    rewrite get_append_length. simpl. rewrite Hzr. simpl.
    rewrite take_append.
    unfold middleware.slash.AddTrailingSlashWithConfig, QueryString.
    rewrite slash_skips by (intros; eapply Hsa; eassumption).
    simpl. rewrite (last_byte_root _ Hl). simpl.
    destruct (last_byte_nonempty _ Hne) as [x El]. rewrite El. simpl.
    destruct (Ascii.eqb x "/") eqn:Ex;
      [apply Ascii.eqb_eq in Ex; subst x; congruence |].
    simpl. rewrite Hza. simpl. rewrite <- Hq.
    fold (uri_of (URLPath r) (RawQuery r)). now rewrite Hback.
  - destruct c as [rq rs p pn pv qy hd st], r as [m up urp rqs ruri].
    simpl in Hr. subst rq. unfold SetRequest, rewritten. simpl.
    split; [intros H; injection H as H; now symmetry | now intros ->].
Qed.

End SlashFacts.

Lemma AddTrailingSlash_path_witness :
  middleware.slash.AddTrailingSlash
    (out := Recorder_response) proceed
    (recording (arriving GET "" ""))
  = None
  /\ middleware.slash.RemoveTrailingSlash
       (out := Recorder_response) proceed
       (recording (arriving GET "" ""))
     = Some (recording (arriving GET "" ""),
             nil_error).
Proof.
  split.
  - destruct (AddTrailingSlash_path
                (out := Recorder_response)
                middleware.slash.DefaultTrailingSlashConfig
                (recording (arriving GET "" ""))
                (arriving GET "" "")
                eq_refl) as [H1 _].
    + intros skipper Hsk. injection Hsk as <-. reflexivity.
    + exact (proj1 (H1 eq_refl proceed)).
  - destruct (AddTrailingSlash_path
                (out := Recorder_response)
                {| middleware.slash.Skipper := None;
                   middleware.slash.RedirectCode := 0 |}
                (recording (arriving GET "" ""))
                (arriving GET "" "")
                eq_refl) as [H1 _].
    + discriminate.
    + exact (proj2 (H1 eq_refl proceed)).
Defined.

Lemma RemoveTrailingSlash_after_Add_witness :
  middleware.slash.AddTrailingSlash
    (out := Recorder_response)
    (middleware.slash.RemoveTrailingSlash
       (out := Recorder_response) proceed)
    (recording {| ReqMethod := GET; URLPath := "/a b";
                  URLRawPath := "/a%20b"; RawQuery := "x=1";
                  RequestURI := "/a%20b?x=1" |})
  = Some (recording {| ReqMethod := GET; URLPath := "/a b";
                       URLRawPath := "/a%20b"; RawQuery := "x=1";
                       RequestURI := "/a b?x=1" |},
          nil_error).
Proof.
  destruct (RemoveTrailingSlash_after_Add
              (out := Recorder_response)
              middleware.slash.DefaultTrailingSlashConfig
              {| middleware.slash.Skipper := None;
                 middleware.slash.RedirectCode := 0 |}
              proceed
              (recording {| ReqMethod := GET; URLPath := "/a b";
                            URLRawPath := "/a%20b"; RawQuery := "x=1";
                            RequestURI := "/a%20b?x=1" |})
              {| ReqMethod := GET; URLPath := "/a b";
                 URLRawPath := "/a%20b"; RawQuery := "x=1";
                 RequestURI := "/a%20b?x=1" |}
              eq_refl) as [H _].
  - intros skipper c' Hsk. injection Hsk as <-. reflexivity.
  - discriminate.
  - reflexivity.
  - reflexivity.
  - unfold middleware.slash.AddTrailingSlash,
      middleware.slash.RemoveTrailingSlash.
    rewrite H; [reflexivity | discriminate | vm_compute; discriminate].
Defined.

(** ** Package middleware: method_override.go *)

Section MethodOverrideFacts.

Context {Response : Type} {net : HTTPRequest}.

(** X9. Only a POST can be overridden: [MethodOverrideWithConfig] hands
    a request of any other method to [next] without consulting the getter
    and without a change.  With the default getter, a POST goes on with the
    method named by the [X-HTTP-Method-Override] header when that is set
    (path and raw path kept), and unchanged when it is not. *)
Theorem MethodOverride_only_POST
    (config : middleware.method_override.MethodOverrideConfig Response)
    (next : action Response) (c : context Response) (r : Request) :
  request c = Some r ->
  (forall skipper, middleware.method_override.Skipper config = Some skipper ->
                   skipper c = false) ->
  (ReqMethod r <> POST ->
   middleware.method_override.MethodOverrideWithConfig config next c = next c)
  /\ (ReqMethod r = POST ->
      middleware.method_override.Getter config = None \/
      middleware.method_override.Getter config
      = Some (middleware.method_override.MethodFromHeader
                HeaderXHTTPMethodOverride) ->
      let m := Header_Get r HeaderXHTTPMethodOverride in
      middleware.method_override.MethodOverrideWithConfig config next c
      = if String.eqb m "" then next c
        else next (SetRequest c
                     (Some {| ReqMethod := m; URLPath := URLPath r;
                              URLRawPath := URLRawPath r;
                              RawQuery := RawQuery r;
                              RequestURI := RequestURI r |}))).
Proof.
  intros Hr Hs. unfold middleware.method_override.MethodOverrideWithConfig.
  assert (Hskip : default middleware.DefaultSkipper
                    (middleware.method_override.Skipper config) c = false).
  { destruct (middleware.method_override.Skipper config); [now apply Hs |].
    reflexivity. }
  rewrite Hskip, Hr. simpl. split.
  - intros Hm. apply String.eqb_neq in Hm. now rewrite Hm.
  - intros Hm Hg. rewrite Hm. simpl.
    destruct Hg as [-> | ->]; simpl;
      unfold middleware.method_override.MethodFromHeader; rewrite Hr; simpl;
      destruct (String.eqb _ ""); reflexivity.
Qed.

End MethodOverrideFacts.

Lemma MethodOverride_only_POST_witness :
  middleware.method_override.MethodOverride
    (net := plain_http "localhost" [] (fun _ => "DELETE")) proceed
    (recording (arriving GET "/" ""))
  = Some (recording (arriving GET "/" ""),
          nil_error)
  /\ middleware.method_override.MethodOverride
       (net := plain_http "localhost" [] (fun _ => "DELETE")) proceed
       (recording (arriving POST "/" ""))
     = Some (recording (arriving DELETE "/" ""),
             nil_error).
Proof.
  split.
  - destruct (MethodOverride_only_POST
                (net := plain_http "localhost" [] (fun _ => "DELETE"))
                (middleware.method_override.DefaultMethodOverrideConfig
                   (net := plain_http "localhost" []
                             (fun _ => "DELETE")))
                proceed
                (recording (arriving GET "/" ""))
                (arriving GET "/" "")
                eq_refl) as [H1 _].
    + intros skipper Hsk. injection Hsk as <-. reflexivity.
    + apply H1. discriminate.
  - reflexivity.
Defined.

(** ** Package middleware: key_auth.go *)

Lemma Split_first (s : string) (sep : ascii) :
  is_Some (gostr.Split s sep !! 0).
Proof.
  destruct (gostr.Split s sep) eqn:E; [| simpl; eauto].
  now apply Split_nonempty in E.
Qed.

Lemma Split_second (s : string) (sep : ascii) :
  is_Some (gostr.Split s sep !! 1) <-> gostr.from sep s <> "".
Proof.
  induction s as [| c s IH]; simpl.
  - split; [intros [x Hx]; discriminate | congruence].
  - destruct (Ascii.eqb c sep) eqn:E.
    + split; [discriminate |]. intros _. simpl. apply Split_first.
    + destruct (gostr.Split s sep) as [| x xs] eqn:Es;
        [now apply Split_nonempty in Es |].
      simpl. simpl in IH. exact IH.
Qed.

Section KeyAuthFacts.

Context {Response : Type} {net : HTTPRequest}.

Variable Sprintf_v : iface -> string.

(** X10. From the [Authorization] header [keyFromHeader] accepts
    exactly the values made of the scheme, one more byte and a key that is
    not empty, and the key it returns is what follows that byte.  The byte
    itself is not looked at: it need not be a space. *)
Theorem keyFromHeader_Authorization (authScheme : string)
    (c : context Response) (r : Request) (key : string) :
  request c = Some r ->
  middleware.key_auth.keyFromHeader HeaderAuthorization authScheme c
  = Some (c, key, nil_error)
  <-> exists sep : ascii,
        Header_Get r HeaderAuthorization = authScheme +:+ String sep key /\
        key <> "".
Proof.
  intros Hr. unfold middleware.key_auth.keyFromHeader. rewrite Hr. simpl.
  set (auth := Header_Get r HeaderAuthorization).
  set (l := String.length authScheme).
  split.
  - destruct (String.eqb auth "") eqn:Ee; [discriminate |].
    destruct (Nat.ltb (l + 1) (String.length auth)) eqn:El; simpl;
      [| discriminate].
    destruct (String.eqb (gostr.take l auth) authScheme) eqn:Et;
      [| discriminate].
    intros Hk. injection Hk as Hk.
    apply Nat.ltb_lt in El. apply String.eqb_eq in Et.
    destruct (gostr.drop l auth) as [| sep rest] eqn:Ed.
    { apply (f_equal String.length) in Ed. rewrite drop_length in Ed.
      simpl in Ed. lia. }
    exists sep.
    replace (l + 1) with (S l) in Hk by lia.
    rewrite (drop_S _ _ _ _ Ed) in Hk. subst rest.
    split.
    + rewrite <- Et at 1. rewrite <- Ed. symmetry. apply take_drop.
    + intros ->. apply (f_equal String.length) in Ed.
      rewrite drop_length in Ed. simpl in Ed. lia.
  - intros (sep & Ha & Hk). rewrite Ha.
    destruct (String.eqb (authScheme +:+ String sep key) "") eqn:Ee.
    { apply String.eqb_eq in Ee. apply (f_equal String.length) in Ee.
      rewrite length_append in Ee. simpl in Ee. lia. }
    rewrite length_append. simpl. fold l.
    assert (El : Nat.ltb (l + 1) (l + S (String.length key)) = true).
    { apply Nat.ltb_lt. destruct key; [congruence | simpl; lia]. }
    rewrite El. unfold l. rewrite take_append, String.eqb_refl. simpl.
    rewrite <- drop_drop, drop_append. reflexivity.
Qed.

(** X11. The middleware of [KeyAuthWithConfig] lets a request through
    to [next] in one case only (its skipper aside): the extractor that the
    configuration selects has returned a key from the context with a nil
    error, and the configured validator has returned true and a nil error
    for that very key; [next] then runs on the context the validator left.
    In every other case, that is when no key is extracted that the
    validator accepts, the outcome does not depend on [next] and is never
    a nil error. *)
Theorem KeyAuth_next_only_if_valid
    (config : middleware.key_auth.KeyAuthConfig Response)
    (m : action Response -> action Response) (c : context Response) :
  middleware.key_auth.KeyAuthWithConfig Sprintf_v config = Some m ->
  (forall skipper, middleware.key_auth.Skipper config = Some skipper ->
                   skipper c = false) ->
  exists validator extractor,
    middleware.key_auth.Validator config = Some validator /\
    middleware.key_auth.extractor config = Some extractor /\
    ((exists key c1 c2,
         extractor c = Some (c1, key, nil_error) /\
         validator key c1 = Some (c2, true, nil_error) /\
         forall next, m next c = next c2)
     \/ ((forall key c1 c2,
             extractor c = Some (c1, key, nil_error) ->
             validator key c1 <> Some (c2, true, nil_error)) /\
         exists outcome,
           (forall next, m next c = outcome) /\
           forall c' err, outcome = Some (c', err) -> err <> nil_error)).
Proof.
  unfold middleware.key_auth.KeyAuthWithConfig, middleware.key_auth.extractor.
  intros Hm Hs.
  destruct (middleware.key_auth.Validator config) as [validator |];
    [| discriminate].
  simpl in Hm.
  destruct (gostr.Split _ ":" !! 1) as [part1 |]; [| discriminate].
  simpl in Hm.
  destruct (gostr.Split _ ":" !! 0) as [part0 |]; [| discriminate].
  simpl in Hm. injection Hm as <-.
  assert (Hskip : default middleware.DefaultSkipper
                    (middleware.key_auth.Skipper config) c
                  = false).
  { destruct (middleware.key_auth.Skipper config); [now apply Hs |].
    reflexivity. }
  rewrite Hskip. simpl.
  set (extractor := if String.eqb part0 "query" then _ else _).
  exists validator, extractor. split; [reflexivity |].
  split; [reflexivity |].
  destruct (extractor c) as [[[c1 key] err] |]; simpl.
  2: { right. split; [discriminate |].
       exists None. split; [reflexivity | discriminate]. }
  destruct err as [| he | text]; simpl.
  - destruct (validator key c1) as [[[c2 valid] err] |] eqn:Ev; simpl.
    2: { right. split; [intros k x y H; injection H as <- <-; congruence |].
         exists None. split; [reflexivity | discriminate]. }
    destruct err as [| he | text]; simpl.
    + destruct valid.
      * left. exists key, c1, c2. auto.
      * right. split; [intros k x y H; injection H as <- <-; congruence |].
        eexists. split; [reflexivity |].
        intros c' err Hx. injection Hx as _ <-. discriminate.
    + right. split; [intros k x y H; injection H as <- <-; congruence |].
      eexists. split; [reflexivity |].
      intros c' err Hx. injection Hx as _ <-. discriminate.
    + right. split; [intros k x y H; injection H as <- <-; congruence |].
      eexists. split; [reflexivity |].
      intros c' err Hx. injection Hx as _ <-. discriminate.
  - right. split; [discriminate |]. destruct he as [he |]; simpl.
    + eexists. split; [reflexivity |].
      intros c' err Hx. injection Hx as _ <-. discriminate.
    + exists None. split; [reflexivity | discriminate].
  - right. split; [discriminate |]. eexists. split; [reflexivity |].
    intros c' err Hx. injection Hx as _ <-. discriminate.
Qed.

(** X12. [KeyAuthWithConfig] builds its middleware exactly when a
    validator is configured and [KeyLookup] is left empty (the default
    [header:Authorization] is used) or holds a [:]; otherwise it panics, on
    the missing validator or on the missing second part of the lookup. *)
Theorem KeyAuthWithConfig_builds
    (config : middleware.key_auth.KeyAuthConfig Response) :
  is_Some (middleware.key_auth.KeyAuthWithConfig Sprintf_v config)
  <-> is_Some (middleware.key_auth.Validator config) /\
      (middleware.key_auth.KeyLookup config = "" \/
       gostr.from ":" (middleware.key_auth.KeyLookup config) <> "").
Proof.
  unfold middleware.key_auth.KeyAuthWithConfig.
  destruct (middleware.key_auth.Validator config) as [validator |]; simpl.
  2: { split; [intros [x Hx]; discriminate | intros [[x Hx] _]; discriminate]. }
  set (keyLookup := if String.eqb (middleware.key_auth.KeyLookup config) ""
                    then _ else _).
  assert (Hl : is_Some (gostr.Split keyLookup ":" !! 1)
               <-> middleware.key_auth.KeyLookup config = "" \/
                   gostr.from ":" (middleware.key_auth.KeyLookup config) <> "").
  { rewrite Split_second. unfold keyLookup.
    destruct (String.eqb (middleware.key_auth.KeyLookup config) "") eqn:E.
    - apply String.eqb_eq in E. split; [auto |]. intros _. discriminate.
    - apply String.eqb_neq in E. tauto. }
  destruct (Split_first keyLookup ":") as [part0 H0]. rewrite H0.
  destruct (gostr.Split keyLookup ":" !! 1) as [part1 |]; simpl.
  - split; [intros _; split; [eauto | apply Hl; eauto] | eauto].
  - split; [intros [x Hx]; discriminate |].
    intros [_ H]. apply Hl in H. destruct H as [x Hx]. discriminate.
Qed.

End KeyAuthFacts.

Lemma keyFromHeader_Authorization_witness :
  middleware.key_auth.keyFromHeader
    (net := plain_http "localhost" [] (fun _ => "Bearer valid-key"))
    HeaderAuthorization "Bearer"
    (recording (arriving GET "/" ""))
  = Some (recording (arriving GET "/" ""),
          "valid-key", nil_error).
Proof.
  apply (keyFromHeader_Authorization
           (net := plain_http "localhost" []
                     (fun _ => "Bearer valid-key"))
           "Bearer"
           (recording (arriving GET "/" ""))
           (arriving GET "/" "")
           "valid-key" eq_refl).
  exists " "%char. split; [reflexivity | discriminate].
Defined.

Lemma KeyAuth_next_only_if_valid_witness :
  (exists m,
      middleware.key_auth.KeyAuth
        (net := plain_http "localhost" [] (fun _ => "Bearer valid-key"))
        show
        (Some (fun key (c : context Recorder) =>
                 Some (c, String.eqb key "valid-key", nil_error)))
      = Some m /\
      m (fun c => Some (c, OtherErr "reached"))
        (recording (arriving GET "/" ""))
      = Some (recording (arriving GET "/" ""), OtherErr "reached"))
  /\ (exists m,
         middleware.key_auth.KeyAuth
           (net := plain_http "localhost" [] (fun _ => "Bearer invalid-key"))
           show
           (Some (fun key (c : context Recorder) =>
                    Some (c, String.eqb key "valid-key", nil_error)))
         = Some m /\
         m (fun c => Some (c, OtherErr "reached"))
           (recording (arriving GET "/" ""))
         = Some (recording (arriving GET "/" ""),
                 HTTPErr (Some ErrUnauthorized))).
Proof.
  split.
  - destruct (middleware.key_auth.KeyAuth
                (net := plain_http "localhost" []
                          (fun _ => "Bearer valid-key"))
                show
                (Some (fun key (c : context Recorder) =>
                         Some (c, String.eqb key "valid-key", nil_error))))
      as [m |] eqn:Hm; [| vm_compute in Hm; discriminate].
    exists m. split; [reflexivity |].
    unfold middleware.key_auth.KeyAuth in Hm.
    destruct (KeyAuth_next_only_if_valid show _ m
                (recording (arriving GET "/" "")) Hm)
      as (validator & extractor & Hv & He & H).
    { intros skipper Hsk. injection Hsk as <-. reflexivity. }
    simpl in Hv. injection Hv as <-.
    vm_compute in He. injection He as <-.
    destruct H as [(key & c1 & c2 & Hx & Hval & Hnext) | [Hno _]].
    + rewrite Hnext. vm_compute in Hx. injection Hx as <- <-.
      vm_compute in Hval. injection Hval as <-. reflexivity.
    + exfalso.
      apply (Hno "valid-key" (recording (arriving GET "/" ""))
               (recording (arriving GET "/" ""))); reflexivity.
  - destruct (middleware.key_auth.KeyAuth
                (net := plain_http "localhost" []
                          (fun _ => "Bearer invalid-key"))
                show
                (Some (fun key (c : context Recorder) =>
                         Some (c, String.eqb key "valid-key", nil_error))))
      as [m |] eqn:Hm; [| vm_compute in Hm; discriminate].
    exists m. split; [reflexivity |].
    pose proof Hm as Hm'. unfold middleware.key_auth.KeyAuth in Hm'.
    destruct (KeyAuth_next_only_if_valid show _ m
                (recording (arriving GET "/" "")) Hm')
      as (validator & extractor & Hv & He & H).
    { intros skipper Hsk. injection Hsk as <-. reflexivity. }
    simpl in Hv. injection Hv as <-.
    vm_compute in He. injection He as <-.
    destruct H
      as [(key & c1 & c2 & Hx & Hval & Hnext) | [_ (outcome & Ho & _)]].
    + vm_compute in Hx. injection Hx as <- <-.
      vm_compute in Hval. discriminate.
    + rewrite (Ho (fun c => Some (c, OtherErr "reached"))).
      rewrite <- (Ho proceed).
      vm_compute in Hm. injection Hm as <-. reflexivity.
Defined.

(** ** Middleware chains *)

Lemma chain_from_take {H : Type} (ms : list (H -> H)) :
  forall i h,
    i <= length ms ->
    chain_from ms i h = fold_right (fun m acc => m acc) h (take i ms).
Proof.
  induction i as [| i IH]; intros h Hi; [reflexivity |].
  simpl chain_from.
  destruct (ms !! i) as [m |] eqn:Em.
  - rewrite IH by lia. rewrite (take_S_r _ _ _ Em), fold_right_app.
    reflexivity.
  - apply lookup_ge_None in Em. lia.
Qed.

Lemma chain_fold {H : Type} (ms : list (H -> H)) (h : H) :
  chain ms h = fold_right (fun m acc => m acc) h ms.
Proof.
  unfold chain. rewrite chain_from_take by lia. now rewrite firstn_all.
Qed.

Lemma chain_app {H : Type} (ms ms' : list (H -> H)) (h : H) :
  chain (ms ++ ms') h = chain ms (chain ms' h).
Proof. rewrite !chain_fold. apply fold_right_app. Qed.

(** X13. The loop that chains middleware, counting down from the last
    one, wraps the handler from the inside out: the first middleware of
    the slice is the outermost, so the middleware run in the order they
    were given, and chaining two slices one after the other is chaining
    their concatenation. *)
Theorem chain_nests {H : Type} (m : H -> H) (ms ms' : list (H -> H))
    (h : H) :
  chain [] h = h /\
  chain (m :: ms) h = m (chain ms h) /\
  chain (ms ++ ms') h = chain ms (chain ms' h).
Proof.
  split; [reflexivity |]. split; [| apply chain_app].
  now rewrite !chain_fold.
Qed.

(** ** Groups *)

Section GroupFacts.

Context {Response : Type} {fs : Files Response}.

Variable handlerName : HandlerFunc -> string.
Variable Use_func1 : nat.
Variable funcs : nat -> action Response.
Variable mws : MiddlewareFunc -> action Response -> action Response.

(** X14. A sub-group made with [Group.Group] carries the prefix of its
    parent followed by its own and the middleware of its parent followed
    by its own, and making it registers the catch-all route of [Group.Use]
    under the cleaned prefix for every method.  A route added through the
    sub-group is the route that [Akita.Add] registers under the
    concatenated path, and its handler runs the parent's middleware
    outermost, then the sub-group's, then the route's own, then the
    handler. *)
Theorem subgroup_route (g : Group) (p : string) (m : list MiddlewareFunc)
    (a : Akita) (g' : Group) (a' : Akita) :
  Group_Group handlerName Use_func1 g p m a = Some (g', a') ->
  prefix g' = prefix g +:+ p /\
  middleware g' = (middleware g ++ m)%list /\
  (exists rs,
      Any handlerName (gopath.Clean ((prefix g +:+ p) +:+ "/*"))
        (Func Use_func1) (middleware g ++ m)%list a
      = Some (rs, a')) /\
  forall method path h rm a1,
    Group_Add handlerName g' method path h rm a1
    = Add handlerName method (prefix g +:+ p +:+ path) h
        (middleware g ++ m ++ rm)%list a1 /\
    run funcs mws (AddClosure h (middleware g' ++ rm)%list)
    = chain (mws <$> middleware g)
        (chain (mws <$> m) (chain (mws <$> rm) (run funcs mws h))).
Proof.
  unfold Group_Group, Akita_Group, Group_Use. simpl. intros H.
  destruct (Any handlerName _ _ _ a) as [[rs a2] |] eqn:HA; [| discriminate].
  simpl in H. injection H as <- <-. simpl.
  split; [reflexivity |]. split; [reflexivity |].
  split; [eauto |].
  intros method path h rm a1. unfold Group_Add. simpl.
  rewrite append_assoc, <- app_assoc. split; [reflexivity |].
  now rewrite !fmap_app, !chain_app.
Qed.

End GroupFacts.

Lemma subgroup_route_witness :
  exists g a g' a',
    Akita_Group func_name 0 "/group" [1] New = Some (g, a) /\
    Group_Group func_name 0 g "/users" [2] a = Some (g', a') /\
    prefix g' = "/group/users" /\ middleware g' = [1; 2] /\
    forall (funcs : nat -> action unit)
           (mws : MiddlewareFunc -> action unit -> action unit)
           (fs : Files unit),
      run funcs mws (AddClosure (Func 7) (middleware g' ++ [3])%list)
      = mws 1 (mws 2 (mws 3 (funcs 7))).
Proof.
  destruct (Akita_Group func_name 0 "/group" [1] New) as [[g a] |] eqn:Hg;
    [| vm_compute in Hg; discriminate].
  destruct (Group_Group func_name 0 g "/users" [2] a) as [[g' a'] |] eqn:Hg'.
  2: { vm_compute in Hg. injection Hg as <- <-. vm_compute in Hg'.
       discriminate. }
  exists g, a, g', a'. split; [reflexivity |]. split; [exact Hg' |].
  assert (Eg : g = {| prefix := "/group"; middleware := [1] |}).
  { clear Hg'. vm_compute in Hg. now injection Hg as <- _. }
  split; [| split].
  - destruct (subgroup_route (Response := unit)
                (fs := no_files)
                func_name 0 (fun _ c => Some (c, nil_error))
                (fun _ next => next) g "/users" [2] a g' a' Hg')
      as (-> & _). now rewrite Eg.
  - destruct (subgroup_route (Response := unit)
                (fs := no_files)
                func_name 0 (fun _ c => Some (c, nil_error))
                (fun _ next => next) g "/users" [2] a g' a' Hg')
      as (_ & -> & _). now rewrite Eg.
  - intros funcs mws fs.
    destruct (subgroup_route func_name 0 funcs mws g "/users" [2] a g' a' Hg')
      as (_ & _ & _ & H).
    destruct (H GET "/:id" (Func 7) [3] a) as [_ ->]. now rewrite Eg.
Defined.

(** ** ServeHTTP and the default error handler *)

Lemma route_keeps_request (Response : Type) (a : Akita) (r : Request)
    (ctx : context Response) :
  request (route Response a r ctx) = request ctx /\
  response (route Response a r ctx) = response ctx.
Proof.
  unfold route, router.Find.
  destruct (router.lookup _ _ _); split; reflexivity.
Qed.

Section ServeFacts.

Context {ResponseWriter Response : Type} {fs : Files Response}.

Variable reset : Response -> ResponseWriter -> Response.
Variable funcs : nat -> action Response.
Variable mws : MiddlewareFunc -> action Response -> action Response.
Variable Committed : Response -> bool.
Variable WriteHeader : Response -> Z -> Response.
Variable Sprintf_v : iface -> string.
Variable JSON : context Response -> Z -> iface -> context Response * error.

(** What the default handler sends for status [code] and message [msg]
    on context [ctx]: nothing on a committed response, the status alone
    for a HEAD request, the JSON rendering otherwise. *)
Lemma DefaultHTTPErrorHandler_HTTPError (a : Akita) (he : HTTPError)
    (ctx : context Response) (r : Request) :
  request ctx = Some r ->
  DefaultHTTPErrorHandler Response Committed WriteHeader Sprintf_v JSON a
    (HTTPErr (Some he)) ctx
  = let msg := match Message he with
               | IString s => IMap [("message", IString s)]
               | _ => Message he
               end in
    Some (Code he, msg,
          if Committed (response ctx) then ctx
          else if String.eqb (ReqMethod r) HEAD
               then fst (NoContent Response WriteHeader ctx (Code he))
               else fst (JSON ctx (Code he) msg)).
Proof.
  intros Hr. destruct ctx as [rq rs p pn pv q hd st]. simpl in Hr. subst rq.
  unfold DefaultHTTPErrorHandler. simpl.
  destruct (Committed rs); simpl; [reflexivity |].
  destruct (String.eqb (ReqMethod r) HEAD); [reflexivity |].
  now destruct (JSON _ (Code he) _).
Qed.

(** X15. A request for which the router leaves one of its two
    sentinels selected is handled by [ServeHTTP], on an instance without
    middleware and with the default error handler, as status 404 with the
    message [Not Found], or as status 405 with the message [Method Not
    Allowed], the message being an object with the one key [message].
    What is sent, on the context as the router leaves it: that object with
    [JSON]; for a HEAD request the status alone with [NoContent]; on a
    response that is committed already, nothing.  This holds with [Debug]
    on or off, and nothing in it panics. *)
Theorem ServeHTTP_sentinels (a : Akita) (ctx : context Response)
    (w : ResponseWriter) (r : Request) :
  let routed := route Response a r (Reset reset ctx (Some r) w) in
  let sent (code : Z) (msg : iface) :=
    if Committed (response routed) then routed
    else if String.eqb (ReqMethod r) HEAD
         then fst (NoContent Response WriteHeader routed code)
         else fst (JSON routed code msg) in
  (handler routed = NotFoundHandler ->
   ServeHTTP reset funcs mws
     (DefaultHTTPErrorHandler Response Committed WriteHeader Sprintf_v JSON
        a) [] [] a ctx w r
   = Some (inr (404%Z, IMap [("message", IString "Not Found")],
                sent 404%Z (IMap [("message", IString "Not Found")]))))
  /\ (handler routed = MethodNotAllowedHandler ->
      ServeHTTP reset funcs mws
        (DefaultHTTPErrorHandler Response Committed WriteHeader Sprintf_v
           JSON a) [] [] a ctx w r
      = Some (inr (405%Z, IMap [("message", IString "Method Not Allowed")],
                   sent 405%Z
                     (IMap [("message", IString "Method Not Allowed")])))).
Proof.
  intros routed sent.
  assert (Hreq : request routed = Some r)
    by (unfold routed; now rewrite (proj1 (route_keeps_request _ _ _ _))).
  split; intros Hh; unfold ServeHTTP, chain; simpl; unfold Handler;
    fold routed; rewrite Hh; simpl;
    rewrite (DefaultHTTPErrorHandler_HTTPError _ _ _ _ Hreq); simpl;
    reflexivity.
Qed.

(** X16. On an instance without premiddleware, [ServeHTTP] runs, on the
    context as the router leaves it, the middleware added with [Use] in the
    order they were added, then the middleware of the matched route in the
    order they were given to [Add], then the handler of the route; the
    error that comes back, if it is not nil, goes to the error handler
    with the context as the chain left it. *)
Theorem ServeHTTP_order {T : Type}
    (HTTPErrorHandler : error -> context Response -> option T)
    (middleware : list MiddlewareFunc) (a : Akita) (ctx : context Response)
    (w : ResponseWriter) (r : Request) (h : HandlerFunc)
    (rm : list MiddlewareFunc) :
  handler (route Response a r (Reset reset ctx (Some r) w)) = AddClosure h rm ->
  ServeHTTP reset funcs mws HTTPErrorHandler [] middleware a ctx w r
  = match fold_right mws (run funcs mws h) (middleware ++ rm)
            (route Response a r (Reset reset ctx (Some r) w)) with
    | Some (ctx', err) =>
        if is_nil err then Some (inl ctx')
        else inr <$> HTTPErrorHandler err ctx'
    | None => None
    end.
Proof.
  intros Hh. unfold ServeHTTP.
  change (chain (mws <$> []) ?f) with f. cbv beta zeta.
  unfold Handler. rewrite Hh. simpl run.
  rewrite <- chain_app, <- fmap_app, chain_fold.
  replace (fold_right (fun m acc => m acc) (run funcs mws h)
             (mws <$> (middleware ++ rm)%list))
    with (fold_right mws (run funcs mws h) (middleware ++ rm)%list).
  2: { generalize (middleware ++ rm)%list as l.
       induction l as [| x l IH]; simpl; [reflexivity | now rewrite IH]. }
  destruct (fold_right mws _ _ _) as [[ctx' err] |]; simpl; [| reflexivity].
  now destruct (is_nil err).
Qed.

End ServeFacts.

Lemma ServeHTTP_order_witness :
  exists a ctx',
    only_get_root func_name (Func 1) [3] = Some a /\
    ServeHTTP (fs := no_files) (fun (w : unit) (_ : unit) => w)
      noting_funcs noting_mws (fun err c => Some err) [] [1; 2] a blank tt
      (arriving GET "/" "")
    = Some (inl ctx') /\
    trace ctx' = "123h1".
Proof.
  destruct (only_get_root func_name (Func 1) [3]) as [a |] eqn:Ha;
    [| vm_compute in Ha; discriminate].
  assert (Hh : handler
                 (route unit a
                    (arriving GET "/" "")
                    (Reset (fun (w : unit) (_ : unit) => w) blank
                       (Some (arriving GET "/" "")) tt))
               = AddClosure (Func 1) [3]).
  { vm_compute in Ha. injection Ha as <-. vm_compute. reflexivity. }
  pose proof (ServeHTTP_order (fs := no_files)
                (fun (w : unit) (_ : unit) => w)
                noting_funcs noting_mws (fun err c => Some err) [1; 2] a
                blank tt
                (arriving GET "/" "")
                (Func 1) [3] Hh) as Hs.
  exists a. eexists. split; [reflexivity |]. split; [rewrite Hs |].
  - vm_compute in Ha. injection Ha as <-. vm_compute. reflexivity.
  - reflexivity.
Defined.

Section ErrorHandlerFacts.

Context {Response : Type}.

Variable Committed : Response -> bool.
Variable WriteHeader : Response -> Z -> Response.
Variable Sprintf_v : iface -> string.
Variable JSON : context Response -> Z -> iface -> context Response * error.

(** X17. What [DefaultHTTPErrorHandler] does on a context that holds
    a request.  For a [*HTTPError] the status is the code of the error and
    the message is its message, a string message wrapped in an object with
    the key [message], with [Debug] on or off.  For any other error, with
    [Debug] off, the status is 500 and the message is the object with
    [Internal Server Error].  What is sent is the message with [JSON]; for
    a HEAD request the status alone with [NoContent]; on a response that
    is committed already, nothing.  So with [Debug] off the text of an
    error that is not a [*HTTPError] reaches neither [JSON] nor the
    response.  For the nil [*HTTPError] pointer held as an error the
    handler panics. *)
Theorem DefaultHTTPErrorHandler_answers (a : Akita) (err : error)
    (ctx : context Response) (r : Request) :
  request ctx = Some r ->
  let sent (code : Z) (msg : iface) :=
    if Committed (response ctx) then ctx
    else if String.eqb (ReqMethod r) HEAD
         then fst (NoContent Response WriteHeader ctx code)
         else fst (JSON ctx code msg) in
  match err with
  | HTTPErr (Some he) =>
      let msg := match Message he with
                 | IString s => IMap [("message", IString s)]
                 | _ => Message he
                 end in
      DefaultHTTPErrorHandler Response Committed WriteHeader Sprintf_v JSON
        a err ctx
      = Some (Code he, msg, sent (Code he) msg)
  | HTTPErr None =>
      DefaultHTTPErrorHandler Response Committed WriteHeader Sprintf_v JSON
        a err ctx = None
  | _ =>
      Debug a = false ->
      DefaultHTTPErrorHandler Response Committed WriteHeader Sprintf_v JSON
        a err ctx
      = Some (500%Z, IMap [("message", IString "Internal Server Error")],
              sent 500%Z
                (IMap [("message", IString "Internal Server Error")]))
  end.
Proof.
  intros Hr sent. subst sent.
  destruct ctx as [rq rs p pn pv q hd st]. simpl in Hr. subst rq.
  destruct err as [| [he |] | text]; unfold DefaultHTTPErrorHandler; simpl;
    try reflexivity; try intros ->; simpl;
    destruct (Committed rs); simpl; try reflexivity;
    destruct (String.eqb (ReqMethod r) HEAD); try reflexivity;
    now destruct (JSON _ _ _).
Qed.

End ErrorHandlerFacts.

Lemma DefaultHTTPErrorHandler_answers_witness :
  DefaultHTTPErrorHandler Recorder (fun w => negb (Status w =? 0)%Z)
    (Response_WriteHeader (HTTPResponse := Recorder_response)) show
    (fun c code _ =>
       NoContent Recorder
         (Response_WriteHeader (HTTPResponse := Recorder_response)) c code)
    New
    (OtherErr "open /etc/secret: permission denied")
    (recording (arriving GET "/" ""))
  = Some (500%Z, IMap [("message", IString "Internal Server Error")],
          {| request := Some (arriving GET "/" "");
             response := {| Status := 500; HeaderMap := [] |};
             path := ""; pnames := []; pvalues := make 0; query := None;
             handler := NotFoundHandler; store := None |}).
Proof.
  exact (DefaultHTTPErrorHandler_answers
           (fun w => negb (Status w =? 0)%Z)
           (Response_WriteHeader (HTTPResponse := Recorder_response)) show
           (fun c code _ =>
              NoContent Recorder
                (Response_WriteHeader (HTTPResponse := Recorder_response))
                c code)
           New (OtherErr "open /etc/secret: permission denied")
           (recording (arriving GET "/" "")) (arriving GET "/" "")
           eq_refl eq_refl).
Defined.

(** ** context.File and context.Attachment *)

(** X18. [File] answers a file that cannot be opened with
    [ErrNotFound]; [Attachment] and [Inline] set the
    [Content-Disposition] header, call [File] and drop what it returns:
    they return nil whatever happens to the file, so for a file that
    cannot be opened the caller sees no error and the response carries
    the header alone. *)
Theorem Attachment_drops_error {Response : Type} {out : HTTPResponse Response}
    {fs : Files Response} (Sprintf_q : string -> string)
    (c : context Response) (file name : string) :
  (os_Open file = None ->
   File_ c file = Some (c, HTTPErr (Some ErrNotFound)) /\
   Attachment Sprintf_q c file name
   = Some (responded c
             (Header_Set (response c) HeaderContentDisposition
                ("attachment; filename=" +:+ Sprintf_q name)),
           nil_error))
  /\ (forall c' err,
         Attachment Sprintf_q c file name = Some (c', err) ->
         err = nil_error)
  /\ (forall c' err,
         Inline Sprintf_q c file name = Some (c', err) -> err = nil_error).
Proof.
  unfold Attachment, Inline, contentDisposition.
  split; [| split].
  - intros Ho. unfold File_. rewrite Ho. split; reflexivity.
  - intros c' err H. destruct (File_ _ file) as [[c1 e] |]; [| discriminate].
    simpl in H. now injection H as _ <-.
  - intros c' err H. destruct (File_ _ file) as [[c1 e] |]; [| discriminate].
    simpl in H. now injection H as _ <-.
Qed.

(** ** Akita.Static, Akita.Match, Akita.URL and Akita.Routes *)

Lemma append_longer (s t : string) : t <> "" -> s +:+ t <> s.
Proof.
  intros Ht E. apply (f_equal String.length) in E.
  rewrite length_append in E. destruct t; [congruence | simpl in E; lia].
Qed.

Lemma records_insert (a : Akita) (k : string) (r : Route) (t : router.node)
    (d : bool) (mp : nat) :
  let a' := {| Debug := d; maxParam := mp;
               router := {| router.tree := t;
                            router.routes :=
                              <[ k := r ]> (router.routes (router a)) |} |} in
  In r (records a') /\
  forall r0, In r0 (records a') -> r0 = r \/ In r0 (records a).
Proof.
  intros a'. unfold records, a'. simpl. split.
  - apply list_elem_of_In, list_elem_of_fmap. exists (k, r).
    split; [reflexivity |].
    apply elem_of_map_to_list, lookup_insert_eq.
  - intros r0 Hin. apply list_elem_of_In, list_elem_of_fmap in Hin.
    destruct Hin as ([k0 r0'] & -> & Hin). simpl.
    apply elem_of_map_to_list, lookup_insert_Some in Hin.
    destruct Hin as [[_ <-] | [_ Hl]]; [now left | right].
    apply list_elem_of_In, list_elem_of_fmap. exists (k0, r0').
    split; [reflexivity |]. now apply elem_of_map_to_list.
Qed.

Section RegistrationFacts.

Variable handlerName : HandlerFunc -> string.
Variable Sprintf_v : iface -> string.

Lemma Add_records m p h mw a r a' :
  Add handlerName m p h mw a = Some (r, a') ->
  r = {| Method := m; Path := p; Name := handlerName h |} /\
  router.routes (router a') = <[ m +:+ p := r ]> (router.routes (router a)) /\
  In r (records a') /\
  forall r0, In r0 (records a') -> r0 = r \/ In r0 (records a).
Proof.
  intros H. destruct (Add_inv _ _ _ _ _ _ _ _ H) as (ts & t & _ & _ & Hr & ->).
  split; [exact Hr |]. split; [reflexivity |].
  apply records_insert.
Qed.

(** X19. [Static], when the router accepts its two registrations,
    registers the prefix itself and the wildcard below it ([/*] for the
    prefix [/]) as GET routes with one and the same handler, returns the
    record of the wildcard route, and leaves both records in the route
    map.  The handler serves from the root given, or from [.] when the
    root given is empty: it never serves from an empty root. *)
Theorem Static_registers_two_routes (p root : string) (a : Akita) (r : Route)
    (a' : Akita) :
  Static handlerName p root a = Some (r, a') ->
  let root' := if String.eqb root "" then "." else root in
  let h := StaticHandler root' in
  let wildcard := if String.eqb p "/" then p +:+ "*" else p +:+ "/*" in
  root' <> "" /\
  r = {| Method := GET; Path := wildcard; Name := handlerName h |} /\
  (exists r1 a1,
      Add handlerName GET p h [] a = Some (r1, a1) /\
      Add handlerName GET wildcard h [] a1 = Some (r, a')) /\
  router.routes (router a') !! (GET +:+ p)
  = Some {| Method := GET; Path := p; Name := handlerName h |} /\
  router.routes (router a') !! (GET +:+ wildcard) = Some r.
Proof.
  intros H root' h wildcard. unfold Static, static, GET_ in H.
  fold root' in H. fold h in H. split.
  - unfold root'. destruct (String.eqb root "") eqn:E; [discriminate |].
    now apply String.eqb_neq in E.
  -
    change ("" +:+ p) with p in H.
    destruct (Add handlerName GET p h [] a) as [[r1 a1] |] eqn:H1;
      [| discriminate].
    simpl in H.
    assert (H2 : Add handlerName GET wildcard h [] a1 = Some (r, a')).
    { unfold wildcard. destruct (String.eqb p "/"); exact H. }
    destruct (Add_records _ _ _ _ _ _ _ H1) as (E1 & Hm1 & _).
    destruct (Add_records _ _ _ _ _ _ _ H2) as (E2 & Hm2 & _).
    split; [exact E2 |]. split; [eauto |].
    rewrite Hm2, Hm1. split; [| apply lookup_insert_eq].
    rewrite lookup_insert_ne, lookup_insert_eq; [now rewrite E1 |].
    unfold wildcard. destruct (String.eqb p "/");
      rewrite <- append_assoc; apply append_longer; discriminate.
Qed.

(** X20. [Match], on an instance built by registration and for a path
    the router accepts for the first of the methods listed, calls [Add]
    once for each method of the list, in the order of the list, and
    returns the records of these calls: one record per listed method, a
    method listed twice included. *)
Theorem Match_registers_listed_methods (a : Akita) (ms : list string)
    (p : string) (h : HandlerFunc) (mw : list MiddlewareFunc) :
  registered handlerName a ->
  (forall m, head ms = Some m -> is_Some (Add handlerName m p h mw a)) ->
  exists rs a',
    Match handlerName ms p h mw a = Some (rs, a') /\
    added_in_turn handlerName p h mw ms a rs a' /\
    rs = map (fun m => {| Method := m; Path := p; Name := handlerName h |}) ms.
Proof.
  intros Hreg Hacc.
  pose proof (registered_well_rooted _ _ Hreg) as Hwr.
  destruct (add_each_in_turn handlerName p h mw ms a [] Hwr Hacc)
    as (rs & a' & He & Ht & Hrs).
  exists rs, a'. unfold Match. rewrite He. auto.
Qed.

(** X21. Register a handler, then ask for its URL: when no route
    registered before carries the handler's name with another path,
    [URL(h, v1, ..., vk)] after an accepted [Add(m, p, h)] is the path [p]
    with its parameters replaced by the values, whatever the order in
    which the route map is visited. *)
Theorem URL_after_Add (a : Akita) (m p : string) (h : HandlerFunc)
    (mw : list MiddlewareFunc) (r : Route) (a' : Akita)
    (order : list Route) (params : list iface) :
  Add handlerName m p h mw a = Some (r, a') ->
  (forall r0, In r0 (records a) -> Name r0 = handlerName h -> Path r0 = p) ->
  visits a' order ->
  URL handlerName Sprintf_v order h params = instantiate Sprintf_v p params
  /\ URI handlerName Sprintf_v order h params
     = Reverse Sprintf_v order (Name r) params.
Proof.
  intros HA Hold Hvis. destruct (Add_records _ _ _ _ _ _ _ HA)
    as (Er & _ & Hin & Hrest).
  unfold visits in Hvis. fold (records a') in Hvis.
  unfold URL, URI. split; [| now rewrite Er].
  destruct (Reverse_first Sprintf_v order (handlerName h) params)
    as [(r0 & Hr0 & Hn0 & ->) | [Hno _]].
  - f_equal. apply (Permutation_in _ Hvis) in Hr0.
    destruct (Hrest r0 Hr0) as [-> | Hbefore]; [now rewrite Er |].
    now apply Hold.
  - exfalso. apply (Hno r); [| now rewrite Er].
    eapply Permutation_in; [symmetry; exact Hvis | exact Hin].
Qed.

(** X22. [Routes] returns the records of the route map, each once, in
    the order of the visit; after an accepted [Add] the record of the new
    route is among them, every other one was a record before, and there is
    at most one record more than before. *)
Theorem Routes_after_Add (a : Akita) (m p : string) (h : HandlerFunc)
    (mw : list MiddlewareFunc) (r : Route) (a' : Akita)
    (order : list Route) :
  Add handlerName m p h mw a = Some (r, a') ->
  visits a' order ->
  Routes order = order /\
  Permutation (Routes order) (records a') /\
  In r (Routes order) /\
  (forall r0, In r0 (Routes order) -> r0 = r \/ In r0 (records a)) /\
  length (Routes order) <= S (length (records a)).
Proof.
  intros HA Hvis. destruct (Add_records _ _ _ _ _ _ _ HA)
    as (Er & Hm & Hin & Hrest).
  assert (HR : forall l acc : list Route,
             fold_left (fun routes v => (routes ++ [v])%list) l acc
             = (acc ++ l)%list).
  { induction l as [| x l IH]; intros acc; simpl;
      [now rewrite app_nil_r | now rewrite IH, <- app_assoc]. }
  unfold Routes. rewrite HR. simpl.
  unfold visits in Hvis. fold (records a') in Hvis.
  split; [reflexivity |]. split; [exact Hvis |].
  split; [eapply Permutation_in; [symmetry; exact Hvis | exact Hin] |].
  split.
  - intros r0 H0. apply Hrest. eapply Permutation_in; eassumption.
  - rewrite (Permutation_length Hvis). unfold records.
    rewrite !length_fmap, !length_map_to_list, Hm.
    destruct (router.routes (router a) !! (m +:+ p)) eqn:El.
    + rewrite map_size_insert_Some by eauto. lia.
    + rewrite map_size_insert_None by assumption. lia.
Qed.

End RegistrationFacts.

Lemma Static_registers_two_routes_witness :
  exists r a',
    Static func_name "/static" "" New = Some (r, a') /\
    r = {| Method := GET; Path := "/static/*";
           Name := func_name (StaticHandler ".") |} /\
    router.routes (router a') !! "GET/static"
    = Some {| Method := GET; Path := "/static";
              Name := func_name (StaticHandler ".") |}.
Proof.
  destruct (Static func_name "/static" "" New) as [[r a'] |] eqn:H;
    [| vm_compute in H; discriminate].
  exists r, a'. split; [reflexivity |].
  destruct (Static_registers_two_routes func_name "/static" "" New r a' H)
    as (_ & Hr & _ & Hl & _).
  split; [exact Hr | exact Hl].
Defined.

Lemma Match_registers_listed_methods_witness :
  exists rs a',
    Match func_name [GET; POST; GET] "/users/:id" (Func 2) [] New
    = Some (rs, a') /\
    rs = [ {| Method := GET; Path := "/users/:id"; Name := "getUser" |};
           {| Method := POST; Path := "/users/:id"; Name := "getUser" |};
           {| Method := GET; Path := "/users/:id"; Name := "getUser" |} ].
Proof.
  destruct (Match_registers_listed_methods func_name New [GET; POST; GET]
              "/users/:id" (Func 2) [] (registered_New _))
    as (rs & a' & He & _ & Hrs).
  - intros m Hm. injection Hm as <-. vm_compute. eauto.
  - exists rs, a'. split; [exact He | exact Hrs].
Defined.

Lemma URL_after_Add_witness :
  exists r a',
    Add func_name GET "/users/:id" (Func 2) [] New = Some (r, a') /\
    URL func_name show (records a') (Func 2) [IString "1"] = "/users/1".
Proof.
  destruct (Add func_name GET "/users/:id" (Func 2) [] New)
    as [[r a'] |] eqn:H; [| vm_compute in H; discriminate].
  exists r, a'. split; [reflexivity |].
  destruct (URL_after_Add func_name show New GET "/users/:id" (Func 2) [] r a'
              (records a') [IString "1"] H) as [-> _].
  - intros r0 Hin. vm_compute in Hin. contradiction.
  - unfold visits. reflexivity.
  - reflexivity.
Defined.

Lemma Routes_after_Add_witness :
  exists r a',
    Add func_name GET "/users/:id" (Func 2) [] New = Some (r, a') /\
    Routes (records a') = [r].
Proof.
  destruct (Add func_name GET "/users/:id" (Func 2) [] New)
    as [[r a'] |] eqn:H; [| vm_compute in H; discriminate].
  exists r, a'. split; [reflexivity |].
  destruct (Routes_after_Add func_name New GET "/users/:id" (Func 2) [] r a'
              (records a') H) as (-> & _).
  - unfold visits. reflexivity.
  - vm_compute in H. injection H as <- <-. vm_compute. reflexivity.
Defined.
